(** * The ZeroMQ Majordomo 0.1 broker of zato.zmq_.mdp.broker

    A shallow embedding of the class [Broker] of
    src/code/zato-zmq/src/zato/zmq_/mdp/broker.py, and the properties of its
    registry, its sweep of expired workers and its dispatch of requests.

    - Python objects are records; the dicts [self.services] and
      [self.workers] are finite maps; lists are lists.  Python does not
      promise the order in which a loop visits the [values()] of a dict
      beyond what the interpreter at hand does; the loops below visit them
      in the order of [map_to_list], and no statement depends on that
      order: what a loop sends is given up to a permutation, and what it
      leaves in the broker is stated where it is the same for every order.
    - A method is a function from the broker to an [outcome]: it returns or
      it raises, and in both cases the broker carries every mutation made so
      far, as the Python object does when an exception leaves a method.
    - Byte strings are [string]s; points in time and durations are integers,
      in seconds.  [datetime.utcnow] is an oracle the broker carries.
    - The lock is reentrant and the broker runs in one thread of control, so
      [with self.lock] is left out.  A [KeyboardInterrupt] is taken at the
      poll of the main loop. *)

From stdpp Require Import gmap strings list fin_maps.
From Stdlib Require Import ZArith Lia Ascii.

Abbreviation bytes := string (only parsing).

(** ** The package zato.zmq_.mdp, as far as the broker uses it *)

(** Modelled from the spec: [const.worker_type] of the package zato.zmq_.mdp,
    which is not part of the sources at hand.  The worker-class tag tells an
    external-transport worker ([zmq]) from an internal-delivery one ([zato]). *)
Module worker_type.
Inductive t : Set := zato | zmq.

Definition eqb (a b : t) : bool :=
  match a, b with
  | zato, zato | zmq, zmq => true
  | _, _ => false
  end.
End worker_type.

(** Modelled from the spec: the constants of [const] and [const.v01] that the
    broker reads.  Their values live in the missing package, so they are kept
    as fields of a record every method is given. *)
Module const.
Record t : Set := mk {
  ttl : Z;
  client : bytes;
  worker : bytes;
  ready : bytes;
  reply_from_worker : bytes;
  heartbeat : bytes;
  disconnect : bytes;
}.
End const.

(** Modelled from the spec: [EventWorkerRequest(body, client)], a client
    request waiting for a worker. *)
Module EventWorkerRequest.
Record t : Set := mk { body : bytes; client : bytes }.
End EventWorkerRequest.

(** Modelled from the spec: [EventClientReply(body, recipient, service)]. *)
Module EventClientReply.
Record t : Set := mk { body : bytes; recipient : bytes; service : bytes }.
End EventClientReply.

(** Modelled from the spec: [Service(name)], the two FIFO queues of a service:
    pending requests and identities of available workers, both empty at first. *)
Module Service.
Record t : Set := mk {
  name : bytes;
  pending_requests : list EventWorkerRequest.t;
  workers : list bytes;
}.

Definition init (name : bytes) : t := mk name [] [].

Definition set_pending_requests (l : list EventWorkerRequest.t) (s : t) : t :=
  mk (name s) l (workers s).

Definition set_workers (l : list bytes) (s : t) : t :=
  mk (name s) (pending_requests s) l.
End Service.

(** Modelled from the spec: [WorkerData(type, id, service_name, last_hb_received,
    last_hb_sent, expires_at)], the six constructor arguments in the order of
    the call in [on_event_ready]; [id] holds the wrapped identity, which is
    the key of the record in [self.workers]. *)
Module WorkerData.
Record t : Set := mk {
  type : worker_type.t;
  id : bytes;
  service_name : bytes;
  last_hb_received : Z;
  last_hb_sent : option Z;
  expires_at : Z;
}.

Definition set_last_hb_sent (v : option Z) (w : t) : t :=
  mk (type w) (id w) (service_name w) (last_hb_received w) v (expires_at w).

Definition set_last_hb_received (v : Z) (w : t) : t :=
  mk (type w) (id w) (service_name w) v (last_hb_sent w) (expires_at w).

Definition set_expires_at (v : Z) (w : t) : t :=
  mk (type w) (id w) (service_name w) (last_hb_received w) (last_hb_sent w) v.
End WorkerData.

(** Modelled from the spec: what [self.socket.send_multipart] is handed.  The
    [serialize] methods of the events are in the missing package; a message
    is kept as the event together with the argument it is serialized with. *)
Inductive frames : Set :=
  | EventWorkerRequest_serialize (req : EventWorkerRequest.t) (worker_id : bytes)
  | EventBrokerDisconnect_serialize (worker_id : bytes)
  | EventBrokerHeartbeat_serialize (worker_id : bytes)
  | EventClientReply_serialize (reply : EventClientReply.t).

(** The calls of [logger]. *)
Inductive log_record : Set :=
  | info_starting (address : bytes)
  | info_received (address : bytes) (msg : list bytes)
  | debug_no_items (address : bytes)
  | info_added_worker (wd : WorkerData.t)
  | warn_no_worker_for_hb (wrapped_id : bytes).

(** Python exceptions the broker code can raise.  [Impossible] is not one of
    them: it marks the two branches of the model of [dispatch_requests] that
    the code cannot take (the loop out of fuel, the service gone while the
    loop runs), and [dispatch_requests_total] shows that neither is taken. *)
Inductive exn : Set :=
  | IndexError
  | KeyError (key : bytes)
  | ValueError (what : string)
  | TypeError (callee : string)
  | Impossible.

(** [list.remove(x)]: drops the first occurrence of [x], [None] stands for the
    [ValueError] of a list without [x]. *)
Fixpoint list_remove (x : bytes) (l : list bytes) : option (list bytes) :=
  match l with
  | [] => None
  | y :: l' =>
      if decide (x = y) then Some l'
      else match list_remove x l' with
           | Some k => Some (y :: k)
           | None => None
           end
  end.

(** ** The broker *)

Module Broker.

(** The attributes set by [__init__].  The socket is kept as the list of
    messages sent on it (oldest first), the logger as the list of its
    records, and [datetime.utcnow] as an oracle: [utc k] is the result of
    the [k]-th call, [utc_reads] counts the calls made. *)
Record t : Type := mk {
  address : bytes;
  poll_interval : Z;
  keep_running : bool;
  log_details : bool;
  has_debug : bool;
  services : gmap string Service.t;
  workers : gmap string WorkerData.t;
  heartbeat : Z;
  heartbeat_mult : Z;
  socket : list frames;
  logger : list log_record;
  utc : nat -> Z;
  utc_reads : nat;
}.

Definition set_services (f : gmap string Service.t -> gmap string Service.t) (s : t) : t :=
  mk (address s) (poll_interval s) (keep_running s) (log_details s) (has_debug s)
     (f (services s)) (workers s) (heartbeat s) (heartbeat_mult s)
     (socket s) (logger s) (utc s) (utc_reads s).

Definition set_workers (f : gmap string WorkerData.t -> gmap string WorkerData.t) (s : t) : t :=
  mk (address s) (poll_interval s) (keep_running s) (log_details s) (has_debug s)
     (services s) (f (workers s)) (heartbeat s) (heartbeat_mult s)
     (socket s) (logger s) (utc s) (utc_reads s).

Definition send_multipart (data : frames) (s : t) : t :=
  mk (address s) (poll_interval s) (keep_running s) (log_details s) (has_debug s)
     (services s) (workers s) (heartbeat s) (heartbeat_mult s)
     (socket s ++ [data]) (logger s) (utc s) (utc_reads s).

Definition log (r : log_record) (s : t) : t :=
  mk (address s) (poll_interval s) (keep_running s) (log_details s) (has_debug s)
     (services s) (workers s) (heartbeat s) (heartbeat_mult s)
     (socket s) (logger s ++ [r]) (utc s) (utc_reads s).

Definition tick (s : t) : t :=
  mk (address s) (poll_interval s) (keep_running s) (log_details s) (has_debug s)
     (services s) (workers s) (heartbeat s) (heartbeat_mult s)
     (socket s) (logger s) (utc s) (S (utc_reads s)).

(** The result of a method call. *)
Inductive outcome (A : Type) : Type :=
  | Return (a : A) (s : t)
  | Raise (e : exn) (s : t).
Arguments Return {A} a s.
Arguments Raise {A} e s.

Definition M (A : Type) : Type := t -> outcome A.

Definition ret {A} (a : A) : M A := fun s => Return a s.

Definition bind {A B} (m : M A) (k : A -> M B) : M B :=
  fun s => match m s with
           | Return a s' => k a s'
           | Raise e s' => Raise e s'
           end.

Definition raise {A} (e : exn) : M A := fun s => Raise e s.

Definition modify (f : t -> t) : M unit := fun s => Return tt (f s).

Definition gets {A} (f : t -> A) : M A := fun s => Return (f s) s.

(** The broker a call leaves behind, returned or raised. *)
Definition final {A} (o : outcome A) : t :=
  match o with
  | Return _ s => s
  | Raise _ s => s
  end.

Definition raised {A} (o : outcome A) : option exn :=
  match o with
  | Return _ _ => None
  | Raise e _ => Some e
  end.

Declare Scope broker_scope.
Delimit Scope broker_scope with broker.
Notation "'let*' x := m 'in' k" := (bind m (fun x => k))
  (at level 10, x name, m at level 100, k at level 200,
   format "'[v' 'let*'  x  :=  m  'in' '/' k ']'") : broker_scope.
Notation "m ;; k" := (bind m (fun _ => k))
  (at level 100, k at level 200, right associativity,
   format "'[v' m  ;; '/' k ']'") : broker_scope.
Local Open Scope broker_scope.

(** [datetime.utcnow()]. *)
Definition utcnow : M Z := fun s => Return (utc s (utc_reads s)) (tick s).

(** [for x in l: body(x)]. *)
Fixpoint for_each {A} (l : list A) (body : A -> M unit) : M unit :=
  match l with
  | [] => ret tt
  | x :: l' => body x ;; for_each l' body
  end.

(** Modelled from the spec: what the broker takes from the package
    zato.zmq_.mdp besides the classes above: the constants, and the wrapped
    worker identity of [WorkerData] (the static method [wrap_worker_id], which
    combines the worker-class tag and the raw transport address, and the
    method [unwrap_id], which gives the address back). *)
Class Mdp : Type := {
  C : const.t;
  wrap_worker_id : worker_type.t -> bytes -> bytes;
  unwrap_id : WorkerData.t -> bytes;
}.

Section methods.

Context `{mdp : Mdp}.

(** Modelled from the spec: the constructor [WorkerData(type, id, ...)] of
    the missing package, which keeps the wrapped identity as [id]. *)
Definition WorkerData_init (ty : worker_type.t) (raw_id service_name : bytes)
    (last_hb_received : Z) (last_hb_sent : option Z) (expires_at : Z) : WorkerData.t :=
  WorkerData.mk ty (wrap_worker_id ty raw_id) service_name
                last_hb_received last_hb_sent expires_at.

Definition init (address : bytes) (poll_interval : Z) (log_details has_debug : bool)
    (heartbeat heartbeat_mult : Z) (utc : nat -> Z) : t :=
  mk address poll_interval true log_details has_debug ∅ ∅
     heartbeat heartbeat_mult [] [] utc 0.

(** [service.workers.remove(item)] for one service of [self.services]. *)
Definition remove_from_service (item : bytes) (entry : string * Service.t) : M unit :=
  match list_remove item (Service.workers entry.2) with
  | None => raise (ValueError "list.remove(x): x not in list")
  | Some l => modify (set_services (insert entry.1 (Service.set_workers l entry.2)))
  end.

(** The body of the second loop of [cleanup_workers]. *)
Definition remove_expired (item : bytes) : M unit :=
  let* registry := gets workers in
  match registry !! item with
  | None => raise (KeyError item)
  | Some _ =>
      modify (set_workers (delete item)) ;;
      let* all := gets services in
      for_each (map_to_list all) (remove_from_service item)
  end.

Definition is_expired (now : Z) (worker : WorkerData.t) : bool :=
  bool_decide (WorkerData.expires_at worker ≤ now)%Z.

Definition cleanup_workers : M unit :=
  let* now := utcnow in
  let* registry := gets workers in
  let expired :=
    WorkerData.id <$> List.filter (is_expired now) (map_to_list registry).*2 in
  for_each expired remove_expired.

(** The caller of [send_to_worker_zato] passes one argument where the
    method takes three, so the call raises before the body is reached. *)
Definition send_to_worker_zato (data : frames) : M unit :=
  raise (TypeError "send_to_worker_zato").

Definition send_to_worker_zmq (data : frames) : M unit :=
  modify (send_multipart data).

Definition send_to_worker (worker : WorkerData.t) : frames -> M unit :=
  if worker_type.eqb (WorkerData.type worker) worker_type.zato
  then send_to_worker_zato else send_to_worker_zmq.

(** The [while] loop of [dispatch_requests]; every turn pops a request,
    so the number of pending requests is enough fuel.  [service] is the
    object of [self.services] that the method fetched before the loop. *)
Fixpoint dispatch_loop (fuel : nat) (service_name : bytes) : M unit :=
  fun s =>
  match services s !! service_name with
  | None => Raise Impossible s
  | Some service =>
      match Service.pending_requests service, Service.workers service with
      | req :: pending, worker_id :: available =>
          match fuel with
          | O => Raise Impossible s
          | S fuel' =>
              let s1 := set_services
                (insert service_name (Service.set_pending_requests pending service)) s in
              let s2 := set_services
                (insert service_name
                   (Service.set_workers available
                      (Service.set_pending_requests pending service))) s1 in
              match workers s2 !! worker_id with
              | None => Raise (KeyError worker_id) s2
              | Some worker =>
                  (send_to_worker worker
                     (EventWorkerRequest_serialize req (unwrap_id worker)) ;;
                   dispatch_loop fuel' service_name)
                    (set_workers (delete worker_id) s2)
              end
          end
      | _, _ => Return tt s
      end
  end.

Definition dispatch_requests (service_name : bytes) : M unit :=
  let* all := gets services in
  match all !! service_name with
  | None => raise (KeyError service_name)
  | Some _ =>
      cleanup_workers ;;
      let* all := gets services in
      let pending :=
        match all !! service_name with
        | Some service => Service.pending_requests service
        | None => []
        end in
      dispatch_loop (length pending) service_name
  end.

(** [self.services.setdefault(service_name, Service(service_name))]. *)
Definition setdefault_service (service_name : bytes) : M Service.t :=
  let* all := gets services in
  match all !! service_name with
  | Some service => ret service
  | None =>
      modify (set_services (insert service_name (Service.init service_name))) ;;
      ret (Service.init service_name)
  end.

Definition handle_client (sender_id service_name received_body : bytes) : M unit :=
  let* service := setdefault_service service_name in
  modify (set_services (insert service_name
    (Service.set_pending_requests
       (Service.pending_requests service
          ++ [EventWorkerRequest.mk received_body sender_id]) service))) ;;
  dispatch_requests service_name.

Definition on_event_ready (worker_id : bytes) (service_name : list bytes) : M unit :=
  match service_name with
  | [] => raise IndexError
  | service_name :: _ =>
      let* now := utcnow in
      let expires_at := (now + const.ttl C)%Z in
      let wd := WorkerData_init worker_type.zmq worker_id service_name
                                now None expires_at in
      modify (set_workers (insert (WorkerData.id wd) wd)) ;;
      let* service := setdefault_service service_name in
      modify (set_services (insert service_name
        (Service.set_workers (Service.workers service ++ [WorkerData.id wd]) service))) ;;
      modify (log (info_added_worker wd)) ;;
      dispatch_requests service_name
  end.

Definition on_event_reply (worker_id : bytes) (data : list bytes) : M unit :=
  match data with
  | [recipient; _; body] =>
      modify (send_multipart
        (EventClientReply_serialize
           (EventClientReply.mk body recipient "dummy-for-now")))
  | _ => raise (ValueError "unpack")
  end.

(** [if not worker] tells [None] from a record: an object is true. *)
Definition on_event_heartbeat (worker_id : bytes) (_ignored : list bytes) : M unit :=
  let wrapped_id := wrap_worker_id worker_type.zmq worker_id in
  let* registry := gets workers in
  match registry !! wrapped_id with
  | None => modify (log (warn_no_worker_for_hb wrapped_id))
  | Some worker =>
      let* now := utcnow in
      let expires_at := (now + const.ttl C)%Z in
      modify (set_workers (insert wrapped_id
        (WorkerData.set_expires_at expires_at
           (WorkerData.set_last_hb_received now worker))))
  end.

(** The guarded [service.workers.remove(wrapped_id)] of [on_event_disconnect]. *)
Definition discard_from_service (item : bytes) (entry : string * Service.t) : M unit :=
  match list_remove item (Service.workers entry.2) with
  | None => ret tt
  | Some l => modify (set_services (insert entry.1 (Service.set_workers l entry.2)))
  end.

(** The two [print(self.workers)] write to the standard output only. *)
Definition on_event_disconnect (worker_id : bytes) (data : list bytes) : M unit :=
  let wrapped_id := wrap_worker_id worker_type.zmq worker_id in
  modify (set_workers (delete wrapped_id)) ;;
  let* all := gets services in
  for_each (map_to_list all) (discard_from_service wrapped_id).

(** The methods [self.handle_event_map] maps a command to. *)
Inductive event_handler : Set :=
  | h_on_event_ready
  | h_on_event_reply
  | h_on_event_heartbeat
  | h_on_event_disconnect.

Definition call_event_handler (h : event_handler) : bytes -> list bytes -> M unit :=
  match h with
  | h_on_event_ready => on_event_ready
  | h_on_event_reply => on_event_reply
  | h_on_event_heartbeat => on_event_heartbeat
  | h_on_event_disconnect => on_event_disconnect
  end.

(** The dict display of [__init__]: a later entry replaces an earlier one
    with an equal key. *)
Definition handle_event_map : gmap string event_handler :=
  <[const.disconnect C := h_on_event_disconnect]>
    (<[const.heartbeat C := h_on_event_heartbeat]>
       (<[const.reply_from_worker C := h_on_event_reply]>
          (<[const.ready C := h_on_event_ready]> ∅))).

Definition handle_worker (worker_id : bytes) (payload : list bytes) : M unit :=
  match payload with
  | [] => raise IndexError
  | event :: rest =>
      match handle_event_map !! event with
      | None => raise (KeyError event)
      | Some func => call_event_handler func worker_id rest
      end
  end.

(** [func(sender_id, *payload)]: [handle_client] takes exactly two frames
    of payload, [handle_worker] any number. *)
Definition handle (msg : list bytes) : M unit :=
  match msg with
  | sender_id :: _ :: originator :: payload =>
      if decide (originator = const.client C) then
        match payload with
        | [service_name; received_body] =>
            handle_client sender_id service_name received_body
        | _ => raise (TypeError "handle_client")
        end
      else handle_worker sender_id payload
  | _ => raise IndexError
  end.

Definition _send_heartbeat (key : string) (worker : WorkerData.t) (now : Z) : M unit :=
  send_to_worker_zmq (EventBrokerHeartbeat_serialize (unwrap_id worker)) ;;
  modify (set_workers (insert key (WorkerData.set_last_hb_sent (Some now) worker))).

(** The test of [send_heartbeats] on one worker.  Times and durations are
    integers here: [heartbeat] is taken in the range where
    [timedelta(seconds=self.heartbeat)] and the sum with [last_hb_sent] are
    defined, outside of which Python raises [OverflowError]. *)
Definition heartbeat_due (s : t) (now : Z) (worker : WorkerData.t) : bool :=
  match WorkerData.last_hb_sent worker with
  | None => true
  | Some sent => bool_decide (sent + heartbeat s ≤ now)%Z
  end.

(** The loop visits the workers the sweep left, each once; the order of
    the visit is a choice of the model, see the head of the file. *)
Definition send_heartbeats : M unit :=
  let* now := utcnow in
  cleanup_workers ;;
  let* registry := gets workers in
  for_each (map_to_list registry) (fun entry =>
    let* due := gets (fun s => heartbeat_due s now entry.2) in
    if due then _send_heartbeat entry.1 entry.2 now else ret tt).

(** The same holds of the order of this loop. *)
Definition send_disconnect_to_all : M unit :=
  cleanup_workers ;;
  let* registry := gets workers in
  for_each (map_to_list registry) (fun entry =>
    send_to_worker_zmq (EventBrokerDisconnect_serialize (unwrap_id entry.2))).

(** What one turn of the main loop gets from [self.poller.poll]: a
    [KeyboardInterrupt], nothing, or a message to receive. *)
Inductive poll_result : Set :=
  | KeyboardInterrupt
  | items (msg : option (list bytes)).

Definition debug (r : t -> log_record) : M unit :=
  fun s => Return tt (if has_debug s then log (r s) s else s).

(** The main loop of [serve_forever], run on the polls of a finite prefix
    of its life. *)
Fixpoint main_loop (polls : list poll_result) : M unit :=
  match polls with
  | [] => ret tt
  | poll :: polls' =>
      let* running := gets keep_running in
      if running then
        match poll with
        | KeyboardInterrupt => send_disconnect_to_all
        | items received =>
            send_heartbeats ;;
            match received with
            | Some msg =>
                debug (fun s => info_received (address s) msg) ;;
                handle msg
            | None => ret tt
            end ;;
            debug (fun s => debug_no_items (address s)) ;;
            main_loop polls'
        end
      else ret tt
  end.

Definition serve_forever (polls : list poll_result) : M unit :=
  let* a := gets address in
  modify (log (info_starting a)) ;;
  main_loop polls.

End methods.

(** ** Specifications *)

(** [hoare P m Q R]: from a broker with [P], the call [m] either returns a
    value and a broker with [Q], or raises an exception and leaves a broker
    with [R]. *)
Definition hoare {A} (P : t -> Prop) (m : M A)
    (Q : A -> t -> Prop) (R : exn -> t -> Prop) : Prop :=
  forall s, P s ->
    match m s with
    | Return a s' => Q a s'
    | Raise e s' => R e s'
    end.

(** The entry points of the broker: the methods of the class. *)
Inductive call : Type :=
  | call_cleanup_workers
  | call_send_disconnect_to_all
  | call_send_heartbeats
  | call_handle (msg : list bytes)
  | call_dispatch_requests (service_name : bytes)
  | call_handle_client (sender_id service_name received_body : bytes)
  | call_handle_worker (worker_id : bytes) (payload : list bytes)
  | call_on_event_ready (worker_id : bytes) (service_name : list bytes)
  | call_on_event_reply (worker_id : bytes) (data : list bytes)
  | call_on_event_heartbeat (worker_id : bytes) (data : list bytes)
  | call_on_event_disconnect (worker_id : bytes) (data : list bytes)
  | call_serve_forever (polls : list poll_result).

Definition run `{mdp : Mdp} (c : call) : M unit :=
  match c with
  | call_cleanup_workers => cleanup_workers
  | call_send_disconnect_to_all => send_disconnect_to_all
  | call_send_heartbeats => send_heartbeats
  | call_handle msg => handle msg
  | call_dispatch_requests service_name => dispatch_requests service_name
  | call_handle_client sender_id service_name received_body =>
      handle_client sender_id service_name received_body
  | call_handle_worker worker_id payload => handle_worker worker_id payload
  | call_on_event_ready worker_id service_name => on_event_ready worker_id service_name
  | call_on_event_reply worker_id data => on_event_reply worker_id data
  | call_on_event_heartbeat worker_id data => on_event_heartbeat worker_id data
  | call_on_event_disconnect worker_id data => on_event_disconnect worker_id data
  | call_serve_forever polls => serve_forever polls
  end.

(** The brokers that exist at some point: a new one, and the one any call
    leaves behind, whether it returned or raised. *)
Inductive reachable `{mdp : Mdp} : t -> Prop :=
  | reachable_init address poll_interval log_details has_debug heartbeat heartbeat_mult utc :
      reachable (init address poll_interval log_details has_debug heartbeat heartbeat_mult utc)
  | reachable_call s c :
      reachable s -> reachable (final (run c s)).

(** Every worker of the registry is an external-transport one. *)
Definition all_zmq (s : t) : Prop :=
  forall key worker, workers s !! key = Some worker ->
    WorkerData.type worker = worker_type.zmq.

(** What the calls never touch: the options given to [__init__] and the clock. *)
Definition same_options (s0 s : t) : Prop :=
  address s = address s0 /\ poll_interval s = poll_interval s0 /\
  keep_running s = keep_running s0 /\ log_details s = log_details s0 /\
  has_debug s = has_debug s0 /\ heartbeat s = heartbeat s0 /\
  heartbeat_mult s = heartbeat_mult s0 /\ utc s = utc s0.

(** No worker of the registry has expired at the time [now]. *)
Definition none_expired (now : Z) (s : t) : Prop :=
  forall key worker, workers s !! key = Some worker ->
    (now < WorkerData.expires_at worker)%Z.

(** The exception of the call of [send_to_worker_zato]. *)
Definition zato_call : exn := TypeError "send_to_worker_zato".

(** A property [I] of brokers that the elementary mutations of the registry,
    of the queues and of the clock keep, with a property [ok] of the
    exceptions the methods raise: the call of [send_to_worker_zato] has to be
    [ok] only where a worker of the registry is an internal-delivery one. *)
Record closed (I : t -> Prop) (ok : exn -> Prop) : Prop := {
  closed_tick s : I s -> I (tick s);
  closed_services name service s : I s -> I (set_services (insert name service) s);
  closed_delete k s : I s -> I (set_workers (delete k) s);
  closed_register k w s :
    I s -> WorkerData.type w = worker_type.zmq -> I (set_workers (insert k w) s);
  closed_update k w w' s :
    I s -> workers s !! k = Some w -> WorkerData.type w' = WorkerData.type w ->
    I (set_workers (insert k w') s);
  closed_exn e : e <> zato_call -> e <> Impossible -> ok e;
  closed_zato s k w :
    I s -> workers s !! k = Some w -> WorkerData.type w = worker_type.zato ->
    ok zato_call;
}.

(** [m] keeps [I], and raises [ok] exceptions only. *)
Definition safe {A} (I : t -> Prop) (ok : exn -> Prop) (m : M A) : Prop :=
  hoare I m (fun _ => I) (fun e s => I s /\ ok e).

(** The message [dispatch_requests] sends for a request and the worker it
    took from the registry. *)
Definition request_to `{mdp : Mdp} (req : EventWorkerRequest.t) (worker : WorkerData.t) : frames :=
  EventWorkerRequest_serialize req (unwrap_id worker).

(** [worker] is the record of the identity [key], of the external class. *)
Definition registered_zmq (s : t) (key : bytes) (worker : WorkerData.t) : Prop :=
  workers s !! key = Some worker /\ WorkerData.type worker = worker_type.zmq.

(** The two queues of a service, empty for a service not known yet. *)
Definition pending_of (s : t) (service_name : bytes) : list EventWorkerRequest.t :=
  from_option Service.pending_requests [] (services s !! service_name).

Definition available_of (s : t) (service_name : bytes) : list bytes :=
  from_option Service.workers [] (services s !! service_name).

(** The identity [key] is in the available-worker queue of the service
    [service_name]. *)
Definition in_queue (s : t) (service_name key : bytes) : Prop :=
  exists service, services s !! service_name = Some service
                  /\ key ∈ Service.workers service.

(** Every queue of [m'] holds identities of the same queue of [m] only, and
    the two maps know the same services. *)
Definition queues_shrunk (m m' : gmap string Service.t) : Prop :=
  forall service_name,
    option_Forall2 (fun a b => Service.workers b ⊆ Service.workers a)
                   (m !! service_name) (m' !! service_name).

(** ** What the loops over the two dicts compute *)

(** One turn of a loop over the items of a dict that gives some of them a
    new value: [g] tells the new value of an item, [None] for an item the
    loop leaves alone. *)
Definition insert_some {V} (g : V -> option V) (m : gmap string V)
    (entry : string * V) : gmap string V :=
  match g entry.2 with
  | Some v => <[entry.1 := v]> m
  | None => m
  end.

(** [l] without the first occurrence of [x], and [l] itself when [x] is not
    in it. *)
Definition discard (x : bytes) (l : list bytes) : list bytes :=
  default l (list_remove x l).

(** The service with the first occurrence of [item] taken out of its queue
    of available workers. *)
Definition discard_worker (item : bytes) (service : Service.t) : Service.t :=
  Service.set_workers (discard item (Service.workers service)) service.

(** The record of a worker after the loop of [send_heartbeats] at the time
    [now]: stamped if a heartbeat was due, untouched otherwise. *)
Definition stamp (s : t) (now : Z) (worker : WorkerData.t) : option WorkerData.t :=
  if heartbeat_due s now worker
  then Some (WorkerData.set_last_hb_sent (Some now) worker) else None.

Definition stamped (s : t) (now : Z) (worker : WorkerData.t) : WorkerData.t :=
  default worker (stamp s now worker).

(** The messages for one worker of the registry. *)
Definition heartbeat_to `{mdp : Mdp} (entry : string * WorkerData.t) : frames :=
  EventBrokerHeartbeat_serialize (unwrap_id entry.2).

Definition disconnect_to `{mdp : Mdp} (entry : string * WorkerData.t) : frames :=
  EventBrokerDisconnect_serialize (unwrap_id entry.2).

(** The four commands of a worker, in the order of [handle_event_map]. *)
Definition commands `{mdp : Mdp} : list bytes :=
  [const.ready C; const.reply_from_worker C; const.heartbeat C; const.disconnect C].

(** The broker after the calls [calls], made one after the other, each on
    the broker the one before left behind. *)
Definition after_calls `{mdp : Mdp} (calls : list call) (s : t) : t :=
  foldl (fun s c => final (run c s)) s calls.

(** The record [on_event_ready] builds for a worker at the time [now]. *)
Definition ready_record `{mdp : Mdp} (worker_id service_name : bytes) (now : Z) : WorkerData.t :=
  WorkerData_init worker_type.zmq worker_id service_name now None (now + const.ttl C)%Z.

(** What [setdefault] gives for a service name: the service of the name, a
    new one with empty queues when the name is not known yet. *)
Definition service_of (s : t) (service_name : bytes) : Service.t :=
  default (Service.init service_name) (services s !! service_name).

(** The broker [on_event_ready] hands to [dispatch_requests]: the record is
    in the registry, its identity at the end of the queue of the service. *)
Definition registered `{mdp : Mdp} (worker_id service_name : bytes) (s : t) : t :=
  let wd := ready_record worker_id service_name (utc s (utc_reads s)) in
  let service := service_of s service_name in
  log (info_added_worker wd)
    (set_services
       (insert service_name
          (Service.set_workers (Service.workers service ++ [WorkerData.id wd]) service))
       (set_workers (insert (WorkerData.id wd) wd) (tick s))).

(** A record as the methods store it under the key [key]: it carries the
    key as its identity, the key is the wrapped identity of an
    external-transport worker, and the record expires [const.ttl] seconds
    after the last heartbeat received. *)
Definition record_ok `{mdp : Mdp} (key : bytes) (worker : WorkerData.t) : Prop :=
  WorkerData.id worker = key
  /\ WorkerData.type worker = worker_type.zmq
  /\ (exists raw_id, key = wrap_worker_id worker_type.zmq raw_id)
  /\ WorkerData.expires_at worker
     = (WorkerData.last_hb_received worker + const.ttl C)%Z.

Definition registry_ok `{mdp : Mdp} (s : t) : Prop :=
  forall key worker, workers s !! key = Some worker -> record_ok key worker.

(** A property [I] of brokers that the mutations the methods make keep,
    each taken with what the method knows when it makes it: a READY stores
    the record it built under the identity of the record, a HEARTBEAT and
    [_send_heartbeat] write to a record that is in the registry. *)
Record kept `{mdp : Mdp} (I : t -> Prop) : Prop := {
  kept_tick s : I s -> I (tick s);
  kept_services name service s : I s -> I (set_services (insert name service) s);
  kept_delete k s : I s -> I (set_workers (delete k) s);
  kept_ready worker_id service_name now s :
    I s ->
    I (set_workers
         (insert (WorkerData.id (ready_record worker_id service_name now))
                 (ready_record worker_id service_name now)) s);
  kept_refresh worker_id worker now s :
    I s -> workers s !! wrap_worker_id worker_type.zmq worker_id = Some worker ->
    I (set_workers
         (insert (wrap_worker_id worker_type.zmq worker_id)
            (WorkerData.set_expires_at (now + const.ttl C)%Z
               (WorkerData.set_last_hb_received now worker))) s);
  kept_stamp key worker now s :
    I s -> workers s !! key = Some worker ->
    I (set_workers (insert key (WorkerData.set_last_hb_sent (Some now) worker)) s);
  kept_send data s : I s -> I (send_multipart data s);
  kept_log r s : I s -> I (log r s);
}.

(** [m] keeps [I], whether it returns or raises. *)
Definition keeps {A} (I : t -> Prop) (m : M A) : Prop :=
  hoare I m (fun _ => I) (fun _ => I).

(** The services of [s0] are all known to [s]. *)
Definition services_known (s0 s : t) : Prop :=
  dom (services s0) ⊆ dom (services s).

(** The exception of [list.remove] for a value the list does not hold. *)
Definition not_in_list : exn := ValueError "list.remove(x): x not in list".

(** The list [expired] of [cleanup_workers]: the identities of the records
    that have expired at the time the sweep reads, in the order of the dict. *)
Definition expired_ids (s : t) : list bytes :=
  WorkerData.id
    <$> List.filter (is_expired (utc s (utc_reads s))) (map_to_list (workers s)).*2.

(** One turn of the second loop of [cleanup_workers] that does not raise:
    the record is deleted and every queue loses one occurrence of [item]. *)
Definition unregister (s : t) (item : bytes) : t :=
  set_services (fmap (discard_worker item)) (set_workers (delete item) s).

(** A service after a sweep that returned. *)
Definition swept (expired : list bytes) (service : Service.t) : Service.t :=
  foldl (fun service item => discard_worker item service) service expired.

(** No worker expires during the next [n] readings of the clock: the
    records of the registry outlive all of them, and a record made at one of
    them outlives the later ones. *)
Definition no_expiry_during `{mdp : Mdp} (n : nat) (s : t) : Prop :=
  (forall i, i < n -> none_expired (utc s (utc_reads s + i)) s)
  /\ (forall i j, i <= j -> j < n ->
        (utc s (utc_reads s + j) < utc s (utc_reads s + i) + const.ttl C)%Z).

(** ** A package and brokers for examples *)

Definition example_tag (ty : worker_type.t) : string :=
  match ty with
  | worker_type.zato => "zato"
  | worker_type.zmq => "zmq"
  end.

Fixpoint after_separator (s : string) : string :=
  match s with
  | EmptyString => EmptyString
  | String c rest => if Ascii.eqb c "."%char then rest else after_separator rest
  end.

(** One package the broker can run with: the tags of the Majordomo 0.1
    protocol, a time to live of six seconds, and identities wrapped as the
    class tag, a dot and the address. *)
Definition example_mdp : Mdp := {|
  C := const.mk 6 "MDPC01" "MDPW01"
         (String "001"%char EmptyString) (String "003"%char EmptyString)
         (String "004"%char EmptyString) (String "005"%char EmptyString);
  wrap_worker_id ty raw := example_tag ty +:+ "." +:+ raw;
  unwrap_id worker := after_separator (WorkerData.id worker);
|}.

(** A new broker with the default options of [__init__] and a clock that
    advances one second with every reading. *)
Definition example_broker : t :=
  init "tcp://*:47047" 100 false false 3 2 Z.of_nat.

(** A clock that stays at the seventh second from its fifth reading on. *)
Definition late_clock (k : nat) : Z :=
  if (k <? 4)%nat then Z.of_nat k else 7%Z.

Definition late_broker : t :=
  init "tcp://*:47047" 100 false false 3 2 late_clock.

Definition READY : bytes := String "001"%char EmptyString.
Definition UNKNOWN : bytes := String "009"%char EmptyString.

(** The messages of the examples, as [recv_multipart] returns them. *)
Definition client_request (client service_name body : bytes) : list bytes :=
  [client; ""; "MDPC01"; service_name; body].

Definition worker_ready (worker service_name : bytes) : list bytes :=
  [worker; ""; "MDPW01"; READY; service_name].

(** The broker after the messages [msgs], handled one after the other. *)
Definition after `{mdp : Mdp} (msgs : list (list bytes)) (s : t) : t :=
  final (for_each msgs handle s).

(** The brokers and messages of the examples below. *)
Definition R1 : EventWorkerRequest.t := EventWorkerRequest.mk "one" "c1".
Definition R2 : EventWorkerRequest.t := EventWorkerRequest.mk "two" "c2".

Definition W1 : WorkerData.t :=
  WorkerData.mk worker_type.zmq "zmq.w1" "echo" 0 None 6.
Definition W2 : WorkerData.t :=
  WorkerData.mk worker_type.zmq "zmq.w2" "echo" 0 None 6.

(** Two requests and two workers wait in the queues of the service echo. *)
Definition fifo_broker : t :=
  set_workers (fun _ => <["zmq.w1" := W1]> (<["zmq.w2" := W2]> ∅))
    (set_services
       (fun _ => <["echo" := Service.mk "echo" [R1; R2] ["zmq.w1"; "zmq.w2"]]> ∅)
       example_broker).

(** The worker w1 is ready for echo and no request came. *)
Definition one_worker_broker : t :=
  after (mdp := example_mdp) [worker_ready "w1" "echo"] example_broker.

(** A new broker whose options give a product of one second. *)
Definition short_broker : t :=
  init "tcp://*:47047" 100 false false 1 1 Z.of_nat.

Definition unknown_command_msg : list bytes := ["w1"; ""; "MDPW01"; UNKNOWN].

Definition unknown_originator_msg : list bytes := ["w1"; ""; "BOGUS"; READY; "echo"].

(** One worker is ready for echo and one for calc; the clock has reached the
    seventh second, one second after the first worker expired. *)
Definition expired_broker : t :=
  after (mdp := example_mdp)
    [worker_ready "w1" "echo"; worker_ready "w2" "calc"] late_broker.

(** The worker w1 told twice that it is ready: for two services, and twice
    for one service with a request handled after that. *)
Definition ready_for_two_services : t :=
  after (mdp := example_mdp)
    [worker_ready "w1" "echo"; worker_ready "w1" "calc"] example_broker.

Definition ready_twice_then_assigned : t :=
  after (mdp := example_mdp)
    [worker_ready "w1" "echo"; worker_ready "w1" "echo";
     client_request "c1" "echo" "hi"] example_broker.

(** Two workers are ready for echo; the clock has reached the seventh
    second, where the first has expired and the second has not. *)
Definition one_service_broker : t :=
  after (mdp := example_mdp)
    [worker_ready "w1" "echo"; worker_ready "w2" "echo"] late_broker.

(** One request waits for echo, and the identity at the head of the queue
    of echo is not in the registry. *)
Definition stale_broker : t :=
  set_services (fun _ => <["echo" := Service.mk "echo" [R1] ["zmq.w1"]]> ∅)
    example_broker.

(** The request hi of c1 waits for echo and no worker is ready. *)
Definition one_request_broker : t :=
  after (mdp := example_mdp) [client_request "c1" "echo" "hi"] example_broker.

(** The record of w2 after its READY at the second 2. *)
Definition W2_late : WorkerData.t :=
  WorkerData.mk worker_type.zmq "zmq.w2" "echo" 2 None 8.

(** A clock that jumps to the hundredth second at its third reading. *)
Definition jump_clock (k : nat) : Z :=
  if (k <? 2)%nat then Z.of_nat k else 100%Z.

Definition jump_broker : t :=
  init "tcp://*:47047" 100 false false 3 2 jump_clock.

(** The worker w2 is ready for echo, then the worker w1; no request came. *)
Definition two_workers_broker : t :=
  after (mdp := example_mdp)
    [worker_ready "w2" "echo"; worker_ready "w1" "echo"] example_broker.

(** The worker w1 said twice that it is ready for echo and was given the
    request one; then w2 became ready.  The queue of echo holds w1, which is
    no longer registered, before w2. *)
Definition stale_head_broker : t :=
  after (mdp := example_mdp)
    [worker_ready "w1" "echo"; worker_ready "w1" "echo";
     client_request "c1" "echo" "one"; worker_ready "w2" "echo"] example_broker.

(** The messages of a request that finds an older one waiting, and of a
    worker that is ready after both. *)
Definition old_then_hi_then_ready : list (list bytes) :=
  [client_request "c0" "echo" "old"; client_request "c1" "echo" "hi";
   worker_ready "w1" "echo"].

(** ** Properties *)

Section hoare_rules.

Context {A B : Type}.
Implicit Types (P : t -> Prop) (R : exn -> t -> Prop).

Lemma hoare_ret P (a : A) (Q : A -> t -> Prop) R :
  (forall s, P s -> Q a s) -> hoare P (ret a) Q R.
Proof. intros H s Hs. by apply H. Qed.

Lemma hoare_raise P (e : exn) (Q : A -> t -> Prop) R :
  (forall s, P s -> R e s) -> hoare P (raise e) Q R.
Proof. intros H s Hs. by apply H. Qed.

Lemma hoare_gets P (f : t -> A) (Q : A -> t -> Prop) R :
  (forall s, P s -> Q (f s) s) -> hoare P (gets f) Q R.
Proof. intros H s Hs. by apply H. Qed.

Lemma hoare_modify P (f : t -> t) (Q : unit -> t -> Prop) R :
  (forall s, P s -> Q tt (f s)) -> hoare P (modify f) Q R.
Proof. intros H s Hs. by apply H. Qed.

Lemma hoare_bind P (m : M A) (k : A -> M B) (Pm : A -> t -> Prop)
    (Q : B -> t -> Prop) R :
  hoare P m Pm R -> (forall a, hoare (Pm a) (k a) Q R) -> hoare P (bind m k) Q R.
Proof.
  intros Hm Hk s Hs. unfold bind. specialize (Hm s Hs).
  destruct (m s) as [a s'|e s']; [by apply Hk | done].
Qed.

End hoare_rules.

Lemma hoare_for_each {A} (I : t -> Prop) (R : exn -> t -> Prop)
    (l : list A) (body : A -> M unit) :
  (forall x, x ∈ l -> hoare I (body x) (fun _ => I) R) ->
  hoare I (for_each l body) (fun _ => I) R.
Proof.
  induction l as [|x l IH]; intros Hbody; simpl.
  - by apply hoare_ret.
  - apply hoare_bind with (Pm := fun _ => I); [apply Hbody; left|].
    intros _. apply IH. intros y Hy. apply Hbody. by right.
Qed.

(** *** Every method keeps a closed property *)

Section safety.

Context `{mdp : Mdp}.
Context (I : t -> Prop) (ok : exn -> Prop) (HI : closed I ok).
Context (Himpossible : ok Impossible).
Context (Hsend : forall data s, I s -> I (send_multipart data s)).
Context (Hlog : forall r s, I s -> I (log r s)).

Lemma safe_ret {A} (a : A) : safe I ok (ret a).
Proof. by apply hoare_ret. Qed.

Lemma safe_raise {A} (e : exn) :
  e <> zato_call -> e <> Impossible -> safe I ok (raise (A := A) e).
Proof.
  intros He He'. apply hoare_raise. intros s Hs. split; [done|].
  exact (closed_exn I ok HI e He He').
Qed.

Lemma safe_bind {A B} (m : M A) (k : A -> M B) :
  safe I ok m -> (forall a, safe I ok (k a)) -> safe I ok (bind m k).
Proof. intros Hm Hk. by apply hoare_bind with (Pm := fun _ => I). Qed.

Lemma safe_gets {A B} (f : t -> A) (k : A -> M B) :
  (forall a, safe I ok (k a)) -> safe I ok (bind (gets f) k).
Proof. intros Hk. apply safe_bind; [by apply hoare_gets | done]. Qed.

Lemma safe_modify (f : t -> t) : (forall s, I s -> I (f s)) -> safe I ok (modify f).
Proof. intros Hf. by apply hoare_modify. Qed.

Lemma safe_for_each {A} (l : list A) (body : A -> M unit) :
  (forall x, x ∈ l -> safe I ok (body x)) -> safe I ok (for_each l body).
Proof. apply hoare_for_each. Qed.

Lemma safe_utcnow {B} (k : Z -> M B) :
  (forall now, safe I ok (k now)) -> safe I ok (bind utcnow k).
Proof.
  intros Hk. apply safe_bind; [|done].
  intros s Hs. simpl. by eapply (closed_tick I ok HI).
Qed.

Lemma safe_remove_from_service item entry : safe I ok (remove_from_service item entry).
Proof.
  unfold remove_from_service. destruct (list_remove _ _).
  - apply safe_modify. intros s. by apply (closed_services I ok HI).
  - by apply safe_raise.
Qed.

Lemma safe_remove_expired item : safe I ok (remove_expired item).
Proof.
  unfold remove_expired. apply safe_gets. intros registry.
  destruct (registry !! item); [|by apply safe_raise].
  apply safe_bind; [apply safe_modify; intros s; by eapply (closed_delete I ok HI)|].
  intros _. apply safe_gets. intros all.
  apply safe_for_each. intros entry _. apply safe_remove_from_service.
Qed.

Lemma safe_cleanup_workers : safe I ok cleanup_workers.
Proof.
  unfold cleanup_workers. apply safe_utcnow. intros now.
  apply safe_gets. intros registry.
  apply safe_for_each. intros item _. apply safe_remove_expired.
Qed.

Lemma safe_dispatch_loop fuel service_name : safe I ok (dispatch_loop fuel service_name).
Proof.
  induction fuel as [|fuel IH]; intros s Hs; cbn [dispatch_loop].
  - destruct (services s !! service_name) as [service|]; [|done].
    by destruct (Service.pending_requests service), (Service.workers service).
  - destruct (services s !! service_name) as [service|]; [|done].
    destruct (Service.pending_requests service) as [|req pending]; [done|].
    destruct (Service.workers service) as [|worker_id available]; [done|].
    cbv zeta. set (s2 := set_services _ (set_services _ s)).
    assert (I s2) as Hs2 by (subst s2; do 2 apply (closed_services I ok HI); done).
    destruct (workers s2 !! worker_id) as [worker|] eqn:Hw;
      [|split; [done|by apply (closed_exn I ok HI (KeyError worker_id))]].
    assert (I (set_workers (delete worker_id) s2)) as Hs3
      by by apply (closed_delete I ok HI).
    unfold bind, send_to_worker.
    destruct (WorkerData.type worker) eqn:Hty; cbn.
    + split; [done|]. by apply (closed_zato I ok HI s2 worker_id worker).
    + apply IH. by apply Hsend.
Qed.

Lemma safe_dispatch_requests service_name : safe I ok (dispatch_requests service_name).
Proof.
  unfold dispatch_requests. apply safe_gets. intros all.
  destruct (all !! service_name); [|by apply safe_raise].
  apply safe_bind; [apply safe_cleanup_workers|]. intros _.
  apply safe_gets. intros all'. apply safe_dispatch_loop.
Qed.

(** The callers of [dispatch_requests] need no more of it than this. *)
Context (Hdispatch : forall service_name, safe I ok (dispatch_requests service_name)).

Lemma safe_setdefault_service {B} service_name (k : Service.t -> M B) :
  (forall service, safe I ok (k service)) ->
  safe I ok (bind (setdefault_service service_name) k).
Proof.
  intros Hk. apply safe_bind; [|done].
  unfold setdefault_service. apply safe_gets. intros all.
  destruct (all !! service_name); [apply safe_ret|].
  apply safe_bind; [|intros _; apply safe_ret].
  apply safe_modify. intros s. by apply (closed_services I ok HI).
Qed.

Lemma safe_handle_client sender_id service_name received_body :
  safe I ok (handle_client sender_id service_name received_body).
Proof.
  unfold handle_client. apply safe_setdefault_service. intros service.
  apply safe_bind; [|intros _; apply Hdispatch].
  apply safe_modify. intros s. by apply (closed_services I ok HI).
Qed.

Lemma safe_on_event_ready worker_id service_name :
  safe I ok (on_event_ready worker_id service_name).
Proof.
  unfold on_event_ready. destruct service_name as [|service_name _]; [by apply safe_raise|].
  apply safe_utcnow. intros now.
  apply safe_bind; [apply safe_modify; intros s Hs; by eapply (closed_register I ok HI)|].
  intros _. apply safe_setdefault_service. intros service.
  apply safe_bind; [apply safe_modify; intros s; by apply (closed_services I ok HI)|].
  intros _. apply safe_bind; [apply safe_modify; intros s; by apply Hlog|].
  intros _. apply Hdispatch.
Qed.

Lemma safe_on_event_reply worker_id data : safe I ok (on_event_reply worker_id data).
Proof.
  unfold on_event_reply.
  destruct data as [|recipient [|delimiter [|body [|]]]]; try by apply safe_raise.
  apply safe_modify. intros s. by apply Hsend.
Qed.

Lemma safe_on_event_heartbeat worker_id data :
  safe I ok (on_event_heartbeat worker_id data).
Proof.
  intros s Hs. unfold on_event_heartbeat, bind, gets. simpl.
  destruct (workers s !! _) as [worker|] eqn:Hw; simpl.
  - apply (closed_update I ok HI _ worker); [by apply (closed_tick I ok HI)|done..].
  - by apply Hlog.
Qed.

Lemma safe_discard_from_service item entry : safe I ok (discard_from_service item entry).
Proof.
  unfold discard_from_service. destruct (list_remove _ _); [|apply safe_ret].
  apply safe_modify. intros s. by apply (closed_services I ok HI).
Qed.

Lemma safe_on_event_disconnect worker_id data :
  safe I ok (on_event_disconnect worker_id data).
Proof.
  unfold on_event_disconnect.
  apply safe_bind; [apply safe_modify; intros s; by eapply (closed_delete I ok HI)|].
  intros _. apply safe_gets. intros all.
  apply safe_for_each. intros entry _. apply safe_discard_from_service.
Qed.

Lemma safe_handle_worker worker_id payload : safe I ok (handle_worker worker_id payload).
Proof.
  unfold handle_worker. destruct payload as [|event rest]; [by apply safe_raise|].
  destruct (handle_event_map !! event) as [[]|]; simpl.
  - apply safe_on_event_ready.
  - apply safe_on_event_reply.
  - apply safe_on_event_heartbeat.
  - apply safe_on_event_disconnect.
  - by apply safe_raise.
Qed.

Lemma safe_handle msg : safe I ok (handle msg).
Proof.
  unfold handle.
  destruct msg as [|sender_id [|delimiter [|originator payload]]]; try by apply safe_raise.
  destruct (decide _); [|apply safe_handle_worker].
  destruct payload as [|service_name [|received_body [|]]]; try by apply safe_raise.
  apply safe_handle_client.
Qed.

Lemma safe_send_to_worker_zmq data : safe I ok (send_to_worker_zmq data).
Proof. apply safe_modify. intros s. by apply Hsend. Qed.

(** The loop of [send_heartbeats] stamps records it read from the registry
    before the loop; each is still registered under its key when its turn
    comes. *)
Lemma safe_send_heartbeats_loop now (l : list (string * WorkerData.t)) :
  hoare
    (fun s => I s /\ forall entry, entry ∈ l ->
       exists w0, workers s !! entry.1 = Some w0
                  /\ WorkerData.type w0 = WorkerData.type entry.2)
    (for_each l (fun entry =>
       let* due := gets (fun s => heartbeat_due s now entry.2) in
       if due then _send_heartbeat entry.1 entry.2 now else ret tt))
    (fun _ => I) (fun e s => I s /\ ok e).
Proof.
  induction l as [|[key worker] l IH]; intros s [Hs Hl]; [done|].
  cbn [for_each]. unfold bind at 1. unfold bind at 1. unfold gets at 1.
  destruct (heartbeat_due s now (key, worker).2);
    [|apply IH; split; [done|]; intros entry Hentry; apply Hl; by right].
  destruct (Hl (key, worker)) as (w0 & Hw0 & Hty); [left|]. simpl in Hw0, Hty.
  apply IH. split.
  - apply (closed_update I ok HI _ w0); [by apply Hsend|done..].
  - intros [key' worker'] Hin. simpl.
    destruct (decide (key = key')) as [<-|Hne].
    + rewrite lookup_insert_eq. eexists; split; [done|]. simpl.
      destruct (Hl (key, worker')) as (w1 & Hw1 & Hty1); [by right|].
      simpl in Hw1, Hty1. congruence.
    + rewrite lookup_insert_ne by done. apply (Hl (key', worker')). by right.
Qed.

Lemma safe_send_heartbeats : safe I ok send_heartbeats.
Proof.
  unfold send_heartbeats. apply safe_utcnow. intros now.
  apply safe_bind; [apply safe_cleanup_workers|]. intros _ s Hs.
  unfold bind at 1. unfold gets at 1.
  apply safe_send_heartbeats_loop. split; [done|].
  intros [key worker] Hin%elem_of_map_to_list. by exists worker.
Qed.

Lemma safe_send_disconnect_to_all : safe I ok send_disconnect_to_all.
Proof.
  unfold send_disconnect_to_all.
  apply safe_bind; [apply safe_cleanup_workers|]. intros _.
  apply safe_gets. intros registry.
  apply safe_for_each. intros entry _. apply safe_send_to_worker_zmq.
Qed.

Lemma safe_debug r : safe I ok (debug r).
Proof.
  intros s Hs. unfold debug. destruct (has_debug s); [|done].
  by apply Hlog.
Qed.

Lemma safe_main_loop polls : safe I ok (main_loop polls).
Proof.
  induction polls as [|poll polls IH]; [apply safe_ret|].
  cbn [main_loop]. apply safe_gets. intros [|]; [|apply safe_ret].
  destruct poll as [|received]; [apply safe_send_disconnect_to_all|].
  apply safe_bind; [apply safe_send_heartbeats|]. intros _.
  apply safe_bind.
  { destruct received as [msg|]; [|apply safe_ret].
    apply safe_bind; [apply safe_debug|]. intros _. apply safe_handle. }
  intros _. apply safe_bind; [apply safe_debug|]. by intros _.
Qed.

Lemma safe_serve_forever polls : safe I ok (serve_forever polls).
Proof.
  unfold serve_forever. apply safe_gets. intros a.
  apply safe_bind; [|intros _; apply safe_main_loop].
  apply safe_modify. intros s. by apply Hlog.
Qed.

Lemma safe_run c : safe I ok (run c).
Proof.
  destruct c; simpl.
  - apply safe_cleanup_workers.
  - apply safe_send_disconnect_to_all.
  - apply safe_send_heartbeats.
  - apply safe_handle.
  - apply Hdispatch.
  - apply safe_handle_client.
  - apply safe_handle_worker.
  - apply safe_on_event_ready.
  - apply safe_on_event_reply.
  - apply safe_on_event_heartbeat.
  - apply safe_on_event_disconnect.
  - apply safe_serve_forever.
Qed.

End safety.

Lemma closed_all_zmq : closed all_zmq (fun e => e <> zato_call).
Proof.
  split; try done.
  - intros k s Hs key worker. simpl. intros [_ Hw]%lookup_delete_Some. by eapply Hs.
  - intros k w s Hs Hty key worker. simpl.
    intros [[<- <-]|[_ Hw]]%lookup_insert_Some; [done|by eapply Hs].
  - intros k w w' s Hs Hw Hty key worker. simpl.
    intros [[<- <-]|[_ Hw']]%lookup_insert_Some; [|by eapply Hs].
    rewrite Hty. by eapply Hs.
  - intros s k w Hs Hw Hty. specialize (Hs k w Hw). congruence.
Qed.

Lemma closed_same_options s0 : closed (same_options s0) (fun _ => True).
Proof. by split. Qed.

Lemma closed_socket (L : list frames) : closed (fun s => socket s = L) (fun _ => True).
Proof. by split. Qed.

Lemma closed_logger (L : list log_record) :
  closed (fun s => logger s = L) (fun _ => True).
Proof. by split. Qed.

Section frame.

Context `{mdp : Mdp}.

(** What is left of [safe] once the call is made. *)
Lemma safe_final {A} (I : t -> Prop) (ok : exn -> Prop) (m : M A) (s : t) :
  safe I ok m -> I s -> I (final (m s)).
Proof.
  intros Hsafe Hs. specialize (Hsafe s Hs). destruct (m s); simpl; [done|by destruct Hsafe].
Qed.

Lemma run_all_zmq c s :
  all_zmq s -> all_zmq (final (run c s)) /\ raised (run c s) <> Some zato_call.
Proof.
  intros Hs.
  pose proof (safe_run all_zmq _ closed_all_zmq (fun _ _ H => H) (fun _ _ H => H)
                (safe_dispatch_requests all_zmq _ closed_all_zmq ltac:(discriminate)
                   (fun _ _ H => H))
                c s Hs) as Hsafe.
  destruct (run c s); simpl; [done|]. destruct Hsafe as [? Hok]. split; [done|congruence].
Qed.

Lemma run_same_options c s : same_options s (final (run c s)).
Proof.
  apply (safe_final (same_options s) (fun _ => True)); [|done].
  apply (safe_run _ _ (closed_same_options s)); [by intros..|].
  intros service_name. apply (safe_dispatch_requests _ _ (closed_same_options s)); by intros.
Qed.

Lemma cleanup_workers_socket s : socket (final (cleanup_workers s)) = socket s.
Proof.
  apply (safe_final (fun s' => socket s' = socket s) (fun _ => True)); [|done].
  apply (safe_cleanup_workers _ _ (closed_socket _)).
Qed.

Lemma dispatch_requests_logger service_name s :
  logger (final (dispatch_requests service_name s)) = logger s.
Proof.
  apply (safe_final (fun s' => logger s' = logger s) (fun _ => True)); [|done].
  apply (safe_dispatch_requests _ _ (closed_logger _)); by intros.
Qed.

End frame.

(** *** The sweep and the dispatch loop on a registry without expired workers *)

Lemma filter_is_expired_nil now (l : list WorkerData.t) :
  Forall (fun worker => (now < WorkerData.expires_at worker)%Z) l ->
  List.filter (is_expired now) l = [].
Proof.
  induction 1 as [|worker l Hw _ IH]; [done|]. simpl.
  unfold is_expired at 1. rewrite bool_decide_eq_false_2 by lia. done.
Qed.

Lemma cleanup_workers_none_expired s :
  none_expired (utc s (utc_reads s)) s -> cleanup_workers s = Return tt (tick s).
Proof.
  intros Hs. unfold cleanup_workers, bind, utcnow, gets.
  rewrite filter_is_expired_nil; [done|].
  apply Forall_forall. intros worker [[key w] [-> Hin]]%list_elem_of_fmap.
  apply elem_of_map_to_list in Hin. by eapply Hs.
Qed.

Section dispatch.

Context `{mdp : Mdp}.

Lemma registered_zmq_delete s s' key (l : list string) (workers_data : list WorkerData.t) :
  workers s' = delete key (workers s) -> key ∉ l ->
  Forall2 (registered_zmq s) l workers_data ->
  Forall2 (registered_zmq s') l workers_data.
Proof.
  intros Hs' Hkey Hreg. induction Hreg as [|id worker l workers_data [Hw Hty] _ IH]; [done|].
  apply not_elem_of_cons in Hkey as [Hne Hkey].
  constructor; [|by apply IH].
  split; [|done]. by rewrite Hs', lookup_delete_ne.
Qed.

Lemma dispatch_loop_pairs service_name (pending : list EventWorkerRequest.t) :
  forall fuel s service (workers_data : list WorkerData.t),
    services s !! service_name = Some service ->
    Service.pending_requests service = pending ->
    length pending <= fuel ->
    NoDup (Service.workers service) ->
    Forall2 (registered_zmq s) (Service.workers service) workers_data ->
    let n := min (length pending) (length (Service.workers service)) in
    exists s',
      dispatch_loop fuel service_name s = Return tt s'
      /\ socket s' = socket s ++ zip_with request_to pending workers_data
      /\ services s' =
           <[service_name := Service.mk (Service.name service) (drop n pending)
                               (drop n (Service.workers service))]> (services s)
      /\ workers s' = foldr delete (workers s) (take n (Service.workers service))
      /\ logger s' = logger s /\ utc_reads s' = utc_reads s /\ same_options s s'.
Proof.
  induction pending as [|req pending IH];
    intros fuel s [name0 pending0 queue] workers_data Hsvc Hpending Hfuel Hnodup Hreg n;
    simpl in *; subst pending0.
  - exists s. subst n. simpl. rewrite !drop_0, insert_id, app_nil_r by done.
    repeat split. destruct fuel; cbn [dispatch_loop]; by rewrite Hsvc.
  - destruct queue as [|worker_id available].
    { exists s. subst n. simpl. rewrite insert_id by done.
      apply Forall2_nil_inv_l in Hreg as ->. rewrite app_nil_r.
      repeat split. destruct fuel; cbn [dispatch_loop]; by rewrite Hsvc. }
    apply Forall2_cons_inv_l in Hreg as (worker & rest & [Hworker Hty] & Hreg & ->).
    apply NoDup_cons in Hnodup as [Hfresh Hnodup].
    destruct fuel as [|fuel]; [lia|].
    cbn [dispatch_loop]. rewrite Hsvc. cbn [Service.pending_requests Service.workers].
    cbv zeta.
    set (s2 := set_services _ (set_services _ s)).
    assert (workers s2 !! worker_id = Some worker) as -> by done.
    unfold bind at 1, send_to_worker. rewrite Hty. cbn [worker_type.eqb].
    unfold send_to_worker_zmq, modify.
    set (s4 := send_multipart _ _).
    destruct (IH fuel s4 (Service.mk name0 pending available) rest)
      as (s' & Hrun & Hsock & Hservs & Hworkers & Hrest).
    + subst s4 s2. simpl. by rewrite lookup_insert_eq.
    + done.
    + lia.
    + done.
    + by apply (registered_zmq_delete s _ worker_id).
    + exists s'. subst n. simpl in Hservs, Hworkers, Hsock |- *.
      destruct Hrest as (Hlog & Hreads & Hopts).
      split; [done|]. split; [by rewrite Hsock, <- app_assoc|].
      split; [by rewrite Hservs, !insert_insert_eq|].
      split; [by rewrite Hworkers, delete_foldr_delete|].
      done.
Qed.

(** The loop never runs out of the fuel [dispatch_requests] gives it. *)
Lemma dispatch_loop_fuel service_name :
  forall fuel s service,
    services s !! service_name = Some service ->
    length (Service.pending_requests service) <= fuel ->
    raised (dispatch_loop fuel service_name s) <> Some Impossible.
Proof.
  induction fuel as [|fuel IH]; intros s [name0 pending queue] Hsvc Hfuel;
    simpl in Hfuel; cbn [dispatch_loop]; rewrite Hsvc; simpl.
  - destruct pending; [done|simpl in Hfuel; lia].
  - destruct pending as [|req pending]; [done|].
    destruct queue as [|worker_id available]; [done|].
    destruct (workers s !! worker_id) as [worker|]; [|done].
    unfold bind, send_to_worker. destruct (WorkerData.type worker); simpl; [done|].
    apply (IH _ (Service.mk name0 pending available)); [|simpl in *; lia].
    cbn [services send_multipart set_workers set_services]. apply lookup_insert_eq.
Qed.

Lemma closed_service_known (service_name : bytes) :
  closed (fun s => is_Some (services s !! service_name)) (fun e => e <> Impossible).
Proof.
  split; try done.
  intros name service s Hs. simpl. rewrite lookup_insert. by case_decide.
Qed.

(** [dispatch_requests] takes neither of the two branches that the model
    has and the code has not: the fuel of the loop is enough, and the sweep
    leaves the service in [self.services]. *)
Lemma dispatch_requests_total service_name s :
  raised (dispatch_requests service_name s) <> Some Impossible.
Proof.
  unfold dispatch_requests, bind, gets.
  destruct (services s !! service_name) as [service0|] eqn:Hsvc0; [|done].
  pose proof (safe_cleanup_workers _ _ (closed_service_known service_name) s
                (ex_intro _ service0 Hsvc0)) as Hsweep.
  destruct (cleanup_workers s) as [[] s1|e s1].
  - destruct Hsweep as [service Hsvc]. rewrite Hsvc.
    by apply (dispatch_loop_fuel _ _ _ service).
  - simpl. destruct Hsweep as [_ He]. congruence.
Qed.

Lemma closed_total : closed (fun _ => True) (fun e => e <> Impossible).
Proof. by split. Qed.

(** No call takes a branch that the model has and the code has not. *)
Lemma run_total c s : raised (run c s) <> Some Impossible.
Proof.
  assert (safe (fun _ => True) (fun e => e <> Impossible) (run c)) as Hsafe.
  { apply (safe_run _ _ closed_total); [done..|].
    intros service_name s0 _. pose proof (dispatch_requests_total service_name s0).
    destruct (dispatch_requests service_name s0); [done|]. split; [done|]. simpl in *.
    congruence. }
  specialize (Hsafe s I). destruct (run c s); simpl; [done|].
  destruct Hsafe as [_ He]. congruence.
Qed.

(** What [dispatch_requests] does once its sweep has returned, when the
    identities left in the queue are distinct workers of the registry. *)
Lemma dispatch_requests_after_sweep service_name s s1 service
    (workers_data : list WorkerData.t) :
  is_Some (services s !! service_name) ->
  cleanup_workers s = Return tt s1 ->
  services s1 !! service_name = Some service ->
  NoDup (Service.workers service) ->
  Forall2 (registered_zmq s1) (Service.workers service) workers_data ->
  let pending := Service.pending_requests service in
  let n := min (length pending) (length (Service.workers service)) in
  exists s',
    dispatch_requests service_name s = Return tt s'
    /\ socket s' = socket s1 ++ zip_with request_to pending workers_data
    /\ services s' =
         <[service_name := Service.mk (Service.name service) (drop n pending)
                             (drop n (Service.workers service))]> (services s1)
    /\ workers s' = foldr delete (workers s1) (take n (Service.workers service))
    /\ logger s' = logger s1 /\ utc_reads s' = utc_reads s1 /\ same_options s1 s'.
Proof.
  intros [service0 Hsvc0] Hsweep Hsvc Hnodup Hreg pending n.
  unfold dispatch_requests, bind, gets. rewrite Hsvc0, Hsweep, Hsvc.
  destruct (dispatch_loop_pairs service_name pending (length pending) s1
              service workers_data) as (s' & Hrun & Hrest); try done.
  by exists s'.
Qed.

(** The same when the sweep finds nothing to remove. *)
Lemma dispatch_requests_pairs service_name s service (workers_data : list WorkerData.t) :
  services s !! service_name = Some service ->
  none_expired (utc s (utc_reads s)) s ->
  NoDup (Service.workers service) ->
  Forall2 (registered_zmq s) (Service.workers service) workers_data ->
  let pending := Service.pending_requests service in
  let n := min (length pending) (length (Service.workers service)) in
  exists s',
    dispatch_requests service_name s = Return tt s'
    /\ socket s' = socket s ++ zip_with request_to pending workers_data
    /\ services s' =
         <[service_name := Service.mk (Service.name service) (drop n pending)
                             (drop n (Service.workers service))]> (services s)
    /\ workers s' = foldr delete (workers s) (take n (Service.workers service))
    /\ logger s' = logger s /\ utc_reads s' = S (utc_reads s) /\ same_options s s'.
Proof.
  intros Hsvc Hlive Hnodup Hreg pending n.
  by apply (dispatch_requests_after_sweep service_name s (tick s) service);
    [|apply cleanup_workers_none_expired|..].
Qed.

(** X21.  [dispatch_requests] pairs the pending requests of a service with
    its available workers in the order of the two queues, however long they
    are.  Once the sweep has returned, and provided the identities it left
    in the queue are distinct workers of the registry, the messages sent
    are, in this order, the first request to the first worker, the second to
    the second, and so on until one queue is empty; the paired requests and
    workers leave the front of their queues and the workers leave the
    registry. *)
Theorem dispatch_requests_is_fifo
    (s s1 : t) (service_name : bytes) (service : Service.t)
    (workers_data : list WorkerData.t) :
  is_Some (services s !! service_name) ->
  cleanup_workers s = Return tt s1 ->
  services s1 !! service_name = Some service ->
  NoDup (Service.workers service) ->
  Forall2 (registered_zmq s1) (Service.workers service) workers_data ->
  let pending := Service.pending_requests service in
  let available := Service.workers service in
  let n := min (length pending) (length available) in
  exists s',
    dispatch_requests service_name s = Return tt s'
    /\ socket s' = socket s ++ zip_with request_to pending workers_data
    /\ services s' !! service_name
       = Some (Service.mk (Service.name service) (drop n pending) (drop n available))
    /\ (forall key, key ∈ take n available -> workers s' !! key = None).
Proof.
  intros Hsvc0 Hsweep Hsvc Hnodup Hreg pending available n.
  destruct (dispatch_requests_after_sweep service_name s s1 service workers_data)
    as (s' & Hrun & Hsocket & Hservices & Hworkers & _); try done.
  exists s'. split; [done|]. split.
  { rewrite Hsocket. f_equal.
    pose proof (cleanup_workers_socket s) as Hsock. by rewrite Hsweep in Hsock. }
  split.
  - by rewrite Hservices, lookup_insert_eq.
  - intros key Hkey. rewrite Hworkers. by apply lookup_foldr_delete.
Qed.

End dispatch.

(** *** The claims about single events *)

Section events.

Context `{mdp : Mdp}.

Lemma handle_event_map_unknown (event : bytes) :
  event <> const.ready C -> event <> const.reply_from_worker C ->
  event <> const.heartbeat C -> event <> const.disconnect C ->
  handle_event_map !! event = None.
Proof.
  intros Hready Hreply Hheartbeat Hdisconnect. unfold handle_event_map.
  by rewrite !lookup_insert_ne, lookup_empty.
Qed.

Lemma handle_not_client sender_id delimiter originator payload s :
  originator <> const.client C ->
  handle (sender_id :: delimiter :: originator :: payload) s
  = handle_worker sender_id payload s.
Proof. intros Hne. unfold handle. by rewrite decide_False. Qed.

(** C5, as the code has it.  A worker message whose command is none of READY,
    REPLY, HEARTBEAT and DISCONNECT is not logged and dropped: the lookup in
    [handle_event_map] raises [KeyError] before any handler runs.  The broker
    is left as it was, down to the logger, and nothing catches the exception:
    it leaves [handle], and it ends the main loop of [serve_forever] with the
    polls that follow unread. *)
Theorem unknown_command_raises_KeyError
    (s s1 : t) (sender_id delimiter originator event : bytes)
    (rest : list bytes) (polls : list poll_result) :
  event <> const.ready C -> event <> const.reply_from_worker C ->
  event <> const.heartbeat C -> event <> const.disconnect C ->
  originator <> const.client C ->
  keep_running s = true ->
  send_heartbeats s = Return tt s1 ->
  let msg := sender_id :: delimiter :: originator :: event :: rest in
  handle_worker sender_id (event :: rest) s = Raise (KeyError event) s
  /\ handle msg s = Raise (KeyError event) s
  /\ main_loop (items (Some msg) :: polls) s
     = Raise (KeyError event)
         (if has_debug s then log (info_received (address s) msg) s1 else s1).
Proof.
  intros Hready Hreply Hheartbeat Hdisconnect Hclient Hrun Hbeats msg.
  assert (forall s, handle_worker sender_id (event :: rest) s = Raise (KeyError event) s)
    as Hworker.
  { intros s0. unfold handle_worker. by rewrite handle_event_map_unknown. }
  split; [done|]. split.
  { subst msg. by rewrite handle_not_client. }
  assert (has_debug s1 = has_debug s /\ address s1 = address s) as [Hdebug Haddress].
  { pose proof (run_same_options call_send_heartbeats s) as Hsame. simpl in Hsame.
    rewrite Hbeats in Hsame. by destruct Hsame as (? & _ & _ & _ & ? & _). }
  cbn [main_loop]. unfold bind at 1. unfold gets at 1. rewrite Hrun.
  unfold bind at 1. rewrite Hbeats. unfold bind at 1. unfold bind at 1.
  unfold debug at 1. rewrite Hdebug, Haddress. subst msg.
  by rewrite handle_not_client, Hworker.
Qed.

(** C6.  A heartbeat for an identity the registry does not hold returns
    without an exception and leaves the broker as it was, one warning in the
    logger apart; for a registered identity it sets [last_hb_received] to the
    time of the call and [expires_at] to that time plus [const.ttl], and
    touches nothing else. *)
Theorem heartbeat_of_unknown_and_known_worker (s : t) (worker_id : bytes) (data : list bytes) :
  let wrapped_id := wrap_worker_id worker_type.zmq worker_id in
  let now := utc s (utc_reads s) in
  (workers s !! wrapped_id = None ->
     on_event_heartbeat worker_id data s
     = Return tt (log (warn_no_worker_for_hb wrapped_id) s))
  /\ (forall worker, workers s !! wrapped_id = Some worker ->
       on_event_heartbeat worker_id data s
       = Return tt
           (set_workers
              (insert wrapped_id
                 (WorkerData.mk (WorkerData.type worker) (WorkerData.id worker)
                    (WorkerData.service_name worker) now
                    (WorkerData.last_hb_sent worker) (now + const.ttl C)%Z))
              (tick s))).
Proof.
  intros wrapped_id now. split.
  - intros Hw. unfold on_event_heartbeat, bind, gets. fold wrapped_id. by rewrite Hw.
  - intros worker Hw. unfold on_event_heartbeat, bind, gets. fold wrapped_id.
    by rewrite Hw.
Qed.

(** C10.  A REPLY of three frames is forwarded to the client address it
    names and changes nothing but the socket: the registry and the services
    are as before, the clock is not read and nothing is logged.  The sender is
    not looked up, so this holds whether or not it is registered. *)
Theorem reply_is_forwarded_without_registry_access
    (s : t) (worker_id recipient delimiter body : bytes) :
  exists s',
    on_event_reply worker_id [recipient; delimiter; body] s = Return tt s'
    /\ socket s' = socket s ++ [EventClientReply_serialize
                                  (EventClientReply.mk body recipient "dummy-for-now")]
    /\ workers s' = workers s /\ services s' = services s
    /\ logger s' = logger s /\ utc_reads s' = utc_reads s /\ same_options s s'.
Proof. eexists. split; [reflexivity|]. by repeat split. Qed.

(** C7, as the code has it.  [handle] compares the originator with the client
    tag only: a message of three frames or more with any other originator,
    the worker tag or not, goes to [handle_worker] like a worker message, so
    it is never given to [handle_client] and it may change the broker.
    Whatever the message, [keep_running] is left as it was. *)
Theorem unknown_originator_is_handled_as_worker
    (s : t) (sender_id delimiter originator : bytes) (payload : list bytes) :
  originator <> const.client C ->
  handle (sender_id :: delimiter :: originator :: payload) s
  = handle_worker sender_id payload s
  /\ keep_running (final (handle (sender_id :: delimiter :: originator :: payload) s))
     = keep_running s.
Proof.
  intros Hne. split; [by apply handle_not_client|].
  pose proof (run_same_options
                (call_handle (sender_id :: delimiter :: originator :: payload)) s)
    as Hsame.
  by destruct Hsame as (_ & _ & Hk & _).
Qed.

(** C9.  In every broker that a sequence of calls can lead to, whether they
    returned or raised, each worker of the registry has the class [zmq]:
    [on_event_ready] alone adds records and gives them that class.  So
    [dispatch_requests] selects [send_to_worker_zmq] for each of them, and no
    call made on such a broker reaches the call of [send_to_worker_zato]. *)
Theorem registry_holds_zmq_workers_only (s : t) :
  reachable s ->
  all_zmq s
  /\ (forall key worker, workers s !! key = Some worker ->
       send_to_worker worker = send_to_worker_zmq)
  /\ (forall c, raised (run c s) <> Some zato_call).
Proof.
  intros Hreach.
  assert (all_zmq s) as Hzmq.
  { induction Hreach as [|s c _ IH]; [done|]. by apply run_all_zmq. }
  split; [done|]. split.
  - intros key worker Hw. unfold send_to_worker. by rewrite (Hzmq key worker Hw).
  - intros c. by apply run_all_zmq.
Qed.

End events.

(** *** The sweep *)

Lemma list_remove_Some (x : bytes) (l k : list bytes) :
  list_remove x l = Some k -> x ∈ l /\ k ⊆ l.
Proof.
  revert k. induction l as [|y l IH]; intros k; simpl; [done|].
  destruct (decide (x = y)) as [->|Hne].
  - intros [= ->]. split; [left|]. intros z Hz. by right.
  - destruct (list_remove x l) as [k'|]; [|done].
    intros [= <-]. destruct (IH k' eq_refl) as [Hin Hsub]. split; [by right|].
    intros z [->|Hz]%elem_of_cons; [left|right; by apply Hsub].
Qed.

Lemma queues_shrunk_refl m : queues_shrunk m m.
Proof. intros name. destruct (m !! name); by constructor. Qed.

Lemma for_each_remove_from_service item (m0 : gmap string Service.t)
    (l : list (string * Service.t)) :
  forall s s',
    (forall entry, entry ∈ l -> m0 !! entry.1 = Some entry.2) ->
    queues_shrunk m0 (services s) ->
    for_each l (remove_from_service item) s = Return tt s' ->
    (forall entry, entry ∈ l -> item ∈ Service.workers entry.2)
    /\ queues_shrunk m0 (services s').
Proof.
  induction l as [|[name service] l IH]; intros s s' Hl Hshrunk; simpl.
  - intros [= <-]. split; [|done]. by intros entry ?%elem_of_nil.
  - unfold bind at 1, remove_from_service at 1. simpl.
    destruct (list_remove item (Service.workers service)) as [k|] eqn:Hremove; [|done].
    apply list_remove_Some in Hremove as [Hin Hsub].
    unfold modify. intros Hrun. apply IH in Hrun as [Hall Hshrunk'].
    + split; [|done]. intros entry [->|Hentry]%elem_of_cons; [done|by apply Hall].
    + intros entry Hentry. apply Hl. by right.
    + intros name'. simpl. destruct (decide (name = name')) as [<-|Hne].
      * pose proof (Hl (name, service) ltac:(left)) as Hm0. simpl in Hm0.
        rewrite lookup_insert_eq, Hm0. by constructor.
      * rewrite lookup_insert_ne by done. apply Hshrunk.
Qed.

Lemma remove_expired_returns item s s' :
  remove_expired item s = Return tt s' ->
  (forall name service, services s !! name = Some service ->
     item ∈ Service.workers service)
  /\ queues_shrunk (services s) (services s').
Proof.
  unfold remove_expired, bind, gets, modify.
  destruct (workers s !! item); [|done]. simpl. intros Hrun.
  apply (for_each_remove_from_service item (services s)) in Hrun as [Hall Hshrunk].
  - split; [|done]. intros name service Hsvc.
    apply (Hall (name, service)). by apply elem_of_map_to_list.
  - by intros [name service] ?%elem_of_map_to_list.
  - apply queues_shrunk_refl.
Qed.

Lemma for_each_remove_expired_returns (expired : list bytes) :
  forall s s',
    for_each expired remove_expired s = Return tt s' ->
    forall item name service,
      item ∈ expired -> services s !! name = Some service ->
      item ∈ Service.workers service.
Proof.
  induction expired as [|item0 expired IH]; intros s s' Hrun item name service Hitem Hsvc.
  - by apply elem_of_nil in Hitem.
  - simpl in Hrun. unfold bind at 1 in Hrun.
    destruct (remove_expired item0 s) as [[] s1|] eqn:Hfirst; [|done].
    apply remove_expired_returns in Hfirst as [Hall Hshrunk].
    apply elem_of_cons in Hitem as [->|Hitem]; [by eapply Hall|].
    specialize (Hshrunk name). rewrite Hsvc in Hshrunk.
    inversion Hshrunk as [a service1 Hsub Ha Hsvc1|]; subst.
    apply Hsub. by eapply (IH s1 s').
Qed.

Lemma for_each_remove_from_service_workers item (l : list (string * Service.t)) :
  forall s s',
    for_each l (remove_from_service item) s = Return tt s' -> workers s' = workers s.
Proof.
  induction l as [|entry l IH]; intros s s'; simpl; [by intros [= <-]|].
  unfold bind at 1, remove_from_service at 1.
  destruct (list_remove item _); [|done]. unfold modify. by intros ->%IH.
Qed.

Lemma for_each_remove_expired_workers (expired : list bytes) :
  forall s s',
    for_each expired remove_expired s = Return tt s' ->
    workers s' = foldr delete (workers s) expired.
Proof.
  induction expired as [|item expired IH]; intros s s'; simpl; [by intros [= <-]|].
  unfold bind at 1, remove_expired at 1. unfold bind at 1, gets at 1.
  destruct (workers s !! item); [|done].
  unfold bind at 1, modify at 1. unfold bind at 1, gets at 1.
  destruct (for_each (map_to_list _) _ _) as [[] s1|] eqn:Hinner; [|done].
  apply for_each_remove_from_service_workers in Hinner.
  intros ->%IH. rewrite Hinner. simpl. by rewrite delete_foldr_delete.
Qed.

(** The part of the sweep that holds: when [cleanup_workers] returns, every
    worker that had expired and is registered under its own identity is gone
    from the registry. *)
Lemma sweep_that_returns_unregisters_the_expired s s' worker :
  cleanup_workers s = Return tt s' ->
  workers s !! WorkerData.id worker = Some worker ->
  (WorkerData.expires_at worker <= utc s (utc_reads s))%Z ->
  workers s' !! WorkerData.id worker = None.
Proof.
  unfold cleanup_workers, bind, utcnow, gets. intros Hrun Hworker Hexpired.
  apply for_each_remove_expired_workers in Hrun. rewrite Hrun.
  apply lookup_foldr_delete, list_elem_of_fmap. exists worker. split; [done|].
  apply list_elem_of_In, filter_In. split.
  - apply list_elem_of_In, list_elem_of_fmap. exists (WorkerData.id worker, worker).
    split; [done|]. by apply elem_of_map_to_list.
  - unfold is_expired. by apply bool_decide_eq_true_2.
Qed.

Section sweep.

Context `{mdp : Mdp}.

(** C2, where the code departs from it.  The sweep calls [list.remove] on the
    queue of every service without asking whether the identity is there: as
    soon as one worker of the registry has expired and the available-worker
    queue of one service does not hold its identity, [cleanup_workers] raises
    instead of returning. *)
Theorem sweep_raises_unless_every_queue_holds_the_expired
    (s : t) (key service_name : bytes) (worker : WorkerData.t) (service : Service.t) :
  workers s !! key = Some worker ->
  (WorkerData.expires_at worker <= utc s (utc_reads s))%Z ->
  services s !! service_name = Some service ->
  WorkerData.id worker ∉ Service.workers service ->
  exists e s', cleanup_workers s = Raise e s'.
Proof.
  intros Hworker Hexpired Hsvc Hmissing.
  destruct (cleanup_workers s) as [[] s'|e s'] eqn:Hrun; [|by eauto].
  exfalso. apply Hmissing.
  unfold cleanup_workers, bind, utcnow, gets in Hrun.
  eapply (for_each_remove_expired_returns _ _ _ Hrun); [|done].
  apply list_elem_of_fmap. exists worker. split; [done|].
  apply list_elem_of_In, filter_In. split.
  - apply list_elem_of_In, list_elem_of_fmap. exists (key, worker).
    split; [done|]. by apply elem_of_map_to_list.
  - unfold is_expired. by apply bool_decide_eq_true_2.
Qed.

End sweep.

(** *** Requests and workers enter the queues at the end *)

Section registration.

Context `{mdp : Mdp}.

(** [handle_client] up to its call of [dispatch_requests]: the request goes
    to the end of the pending queue, so the queue is in the order of receipt. *)
Lemma handle_client_enqueues (s : t) (sender_id service_name received_body : bytes) :
  exists sa,
    handle_client sender_id service_name received_body s
    = dispatch_requests service_name sa
    /\ pending_of sa service_name
       = pending_of s service_name ++ [EventWorkerRequest.mk received_body sender_id]
    /\ available_of sa service_name = available_of s service_name
    /\ workers sa = workers s /\ socket sa = socket s.
Proof.
  unfold handle_client, setdefault_service, bind, gets, modify, ret.
  unfold pending_of, available_of.
  destruct (services s !! service_name); eexists; (split; [reflexivity|]); simpl;
    by rewrite lookup_insert_eq.
Qed.

(** [on_event_ready] up to its call of [dispatch_requests]: the record is
    stored under the wrapped identity, and the identity goes to the end of
    the queue of the service, so the queue is in the order of registration. *)
Lemma on_event_ready_registers (s : t) (worker_id service_name : bytes) (rest : list bytes) :
  let now := utc s (utc_reads s) in
  let wd := WorkerData_init worker_type.zmq worker_id service_name
                            now None (now + const.ttl C)%Z in
  exists sb,
    on_event_ready worker_id (service_name :: rest) s
    = dispatch_requests service_name (log (info_added_worker wd) sb)
    /\ logger sb = logger s
    /\ workers sb = <[WorkerData.id wd := wd]> (workers s)
    /\ available_of sb service_name = available_of s service_name ++ [WorkerData.id wd]
    /\ pending_of sb service_name = pending_of s service_name.
Proof.
  intros now wd.
  unfold on_event_ready, setdefault_service, bind, gets, modify, ret, utcnow.
  fold now wd. change (services (set_workers _ (tick s))) with (services s).
  unfold pending_of, available_of.
  destruct (services s !! service_name); eexists; (split; [reflexivity|]); simpl;
    by rewrite lookup_insert_eq.
Qed.

(** C4, where the code departs from it.  Whatever the options [heartbeat]
    and [heartbeat_mult] of the broker are, the record a READY creates and
    the record a HEARTBEAT refreshes expire at the time of the call plus
    [const.ttl]: the two options have no part in it, so the time to live
    is their product only for the brokers where that product happens to be
    [const.ttl]. *)
Theorem expires_at_is_set_from_const_ttl
    (s : t) (worker_id service_name : bytes) (rest data : list bytes) :
  let now := utc s (utc_reads s) in
  let wrapped_id := wrap_worker_id worker_type.zmq worker_id in
  (exists wd,
     logger (final (on_event_ready worker_id (service_name :: rest) s))
     = logger s ++ [info_added_worker wd]
     /\ WorkerData.id wd = wrapped_id
     /\ WorkerData.expires_at wd = (now + const.ttl C)%Z
     /\ ((heartbeat s * heartbeat_mult s)%Z <> const.ttl C ->
         WorkerData.expires_at wd <> (now + heartbeat s * heartbeat_mult s)%Z))
  /\ workers (final (on_event_heartbeat worker_id data s)) !! wrapped_id
     = (fun worker =>
          WorkerData.set_expires_at (now + const.ttl C)%Z
            (WorkerData.set_last_hb_received now worker))
       <$> workers s !! wrapped_id.
Proof.
  intros now wrapped_id. split.
  - destruct (on_event_ready_registers s worker_id service_name rest)
      as (sb & -> & Hlog & _).
    fold now.
    set (wd := WorkerData_init worker_type.zmq worker_id service_name
                               now None (now + const.ttl C)%Z).
    exists wd.
    split; [|split; [reflexivity|split; [reflexivity|simpl; lia]]].
    by rewrite dispatch_requests_logger, <- Hlog.
  - unfold on_event_heartbeat, bind, gets, modify, utcnow. fold wrapped_id.
    destruct (workers s !! wrapped_id) as [worker|] eqn:Hw; simpl.
    + by rewrite lookup_insert_eq.
    + done.
Qed.

Lemma reachable_after (msgs : list (list bytes)) :
  forall s, reachable s -> reachable (after msgs s).
Proof.
  unfold after. induction msgs as [|msg msgs IH]; intros s Hs; [done|].
  simpl. unfold bind at 1.
  pose proof (reachable_call s (call_handle msg) Hs) as Hstep. simpl in Hstep.
  destruct (handle msg s); simpl in *; [by apply IH|done].
Qed.

End registration.

(** *** Examples *)

(** Two requests and two workers: R1 goes to w1, then R2 to w2. *)
Lemma dispatch_requests_is_fifo_witness :
  exists s',
    dispatch_requests (mdp := example_mdp) "echo" fifo_broker = Return tt s'
    /\ socket s' = [EventWorkerRequest_serialize R1 "w1";
                    EventWorkerRequest_serialize R2 "w2"]
    /\ services s' !! "echo" = Some (Service.mk "echo" [] [])
    /\ (forall key, key ∈ ["zmq.w1"; "zmq.w2"] -> workers s' !! key = None).
Proof.
  apply (dispatch_requests_is_fifo (mdp := example_mdp) fifo_broker (tick fifo_broker)
           "echo" (Service.mk "echo" [R1; R2] ["zmq.w1"; "zmq.w2"]) [W1; W2]).
  - by eexists.
  - reflexivity.
  - reflexivity.
  - simpl. apply NoDup_cons. split; [|apply NoDup_singleton].
    intros Hin%list_elem_of_singleton. discriminate.
  - repeat constructor.
Defined.

(** The command 9 on a new broker. *)
Lemma unknown_command_raises_KeyError_witness :
  handle_worker (mdp := example_mdp) "w1" [UNKNOWN] example_broker
  = Raise (KeyError UNKNOWN) example_broker
  /\ handle (mdp := example_mdp) unknown_command_msg example_broker
     = Raise (KeyError UNKNOWN) example_broker
  /\ main_loop (mdp := example_mdp)
       [items (Some unknown_command_msg); items (Some (worker_ready "w1" "echo"))]
       example_broker
     = Raise (KeyError UNKNOWN) (tick (tick example_broker)).
Proof.
  apply (unknown_command_raises_KeyError (mdp := example_mdp)
           example_broker (tick (tick example_broker)) "w1" "" "MDPW01" UNKNOWN []
           [items (Some (worker_ready "w1" "echo"))]);
    first [discriminate | reflexivity].
Defined.

(** C5 fails on the code: the unknown command is not dropped.  [handle]
    raises, [serve_forever] ends with the same exception, the READY polled
    next is never handled and no record reaches the logger but the one of the
    start. *)
Lemma unknown_command_ends_the_loop :
  raised (handle (mdp := example_mdp) unknown_command_msg example_broker)
  = Some (KeyError UNKNOWN)
  /\ raised (serve_forever (mdp := example_mdp)
               [items (Some unknown_command_msg);
                items (Some (worker_ready "w1" "echo"))] example_broker)
     = Some (KeyError UNKNOWN)
  /\ logger (final (serve_forever (mdp := example_mdp)
               [items (Some unknown_command_msg);
                items (Some (worker_ready "w1" "echo"))] example_broker))
     = [info_starting "tcp://*:47047"]
  /\ services (final (serve_forever (mdp := example_mdp)
               [items (Some unknown_command_msg);
                items (Some (worker_ready "w1" "echo"))] example_broker)) = ∅.
Proof. repeat split. Qed.

(** A READY under the originator BOGUS. *)
Lemma unknown_originator_is_handled_as_worker_witness :
  handle (mdp := example_mdp) unknown_originator_msg example_broker
  = handle_worker (mdp := example_mdp) "w1" [READY; "echo"] example_broker
  /\ keep_running
       (final (handle (mdp := example_mdp) unknown_originator_msg example_broker))
     = keep_running example_broker.
Proof.
  apply (unknown_originator_is_handled_as_worker (mdp := example_mdp)
           example_broker "w1" "" "BOGUS" [READY; "echo"]).
  discriminate.
Defined.

(** C7 fails on the code: a message whose originator is neither the client
    tag nor the worker tag is not refused.  It reaches the handler of READY,
    which registers the sender and creates the service. *)
Lemma unknown_originator_registers_a_worker :
  "BOGUS" <> const.client (C (Mdp := example_mdp))
  /\ "BOGUS" <> const.worker (C (Mdp := example_mdp))
  /\ raised (handle (mdp := example_mdp) unknown_originator_msg example_broker) = None
  /\ workers example_broker !! "zmq.w1" = None
  /\ workers (final (handle (mdp := example_mdp) unknown_originator_msg example_broker))
       !! "zmq.w1"
     = Some (WorkerData.mk worker_type.zmq "zmq.w1" "echo" 0 None 6)
  /\ services (final (handle (mdp := example_mdp) unknown_originator_msg example_broker))
       !! "echo"
     = Some (Service.mk "echo" [] ["zmq.w1"]).
Proof. repeat split; discriminate. Qed.

(** The broker after the READY of w1. *)
Lemma registry_holds_zmq_workers_only_witness :
  all_zmq (after (mdp := example_mdp) [worker_ready "w1" "echo"] example_broker)
  /\ (forall key worker,
        workers (after (mdp := example_mdp) [worker_ready "w1" "echo"] example_broker)
          !! key = Some worker ->
        send_to_worker worker = send_to_worker_zmq)
  /\ (forall c,
        raised (run (mdp := example_mdp) c
                  (after (mdp := example_mdp) [worker_ready "w1" "echo"] example_broker))
        <> Some zato_call).
Proof.
  apply (registry_holds_zmq_workers_only (mdp := example_mdp)).
  apply reachable_after. constructor.
Defined.

(** The worker w1 has expired and the queue of calc never held it. *)
Lemma sweep_raises_unless_every_queue_holds_the_expired_witness :
  exists e s', cleanup_workers expired_broker = Raise e s'.
Proof.
  apply (sweep_raises_unless_every_queue_holds_the_expired expired_broker
           "zmq.w1" "calc"
           (WorkerData.mk worker_type.zmq "zmq.w1" "echo" 0 None 6)
           (Service.mk "calc" [] ["zmq.w2"])).
  - reflexivity.
  - vm_compute. discriminate.
  - reflexivity.
  - simpl. intros Hin%list_elem_of_singleton. discriminate.
Defined.

(** The sweep of C2 on the example: the worker w1 expired one second ago,
    the service calc never had it in its queue, and [list.remove] raises. *)
Lemma sweep_of_two_services_raises_ValueError :
  utc expired_broker (utc_reads expired_broker) = 7%Z
  /\ WorkerData.expires_at <$> workers expired_broker !! "zmq.w1" = Some 6%Z
  /\ Service.workers <$> services expired_broker !! "echo" = Some ["zmq.w1"]
  /\ Service.workers <$> services expired_broker !! "calc" = Some ["zmq.w2"]
  /\ raised (cleanup_workers expired_broker)
     = Some (ValueError "list.remove(x): x not in list")
  /\ raised (send_heartbeats (mdp := example_mdp) expired_broker)
     = Some (ValueError "list.remove(x): x not in list").
Proof. repeat split. Qed.

(** A heartbeat of w9, which never registered, and one of w1, which did. *)
Lemma heartbeat_of_unknown_and_known_worker_witness :
  on_event_heartbeat (mdp := example_mdp) "w9" [] example_broker
  = Return tt (log (warn_no_worker_for_hb "zmq.w9") example_broker)
  /\ on_event_heartbeat (mdp := example_mdp) "w1" [] one_worker_broker
     = Return tt
         (set_workers
            (insert "zmq.w1" (WorkerData.mk worker_type.zmq "zmq.w1" "echo" 2 None 8))
            (tick one_worker_broker)).
Proof.
  split.
  - apply (proj1 (heartbeat_of_unknown_and_known_worker (mdp := example_mdp)
                    example_broker "w9" [])).
    reflexivity.
  - apply (proj2 (heartbeat_of_unknown_and_known_worker (mdp := example_mdp)
                    one_worker_broker "w1" [])
             (WorkerData.mk worker_type.zmq "zmq.w1" "echo" 0 None 6)).
    reflexivity.
Defined.

(** The time to live of C4 on the example: the options of the broker give
    one second, the package six, and the record of a READY at the second 0
    expires at the sixth second. *)
Lemma ready_on_short_broker_expires_after_const_ttl :
  (heartbeat short_broker * heartbeat_mult short_broker)%Z = 1%Z
  /\ logger (final (on_event_ready (mdp := example_mdp) "w1" ["echo"] short_broker))
     = [info_added_worker (WorkerData.mk worker_type.zmq "zmq.w1" "echo" 0 None 6)]
  /\ WorkerData.expires_at
       <$> workers (final (on_event_ready (mdp := example_mdp) "w1" ["echo"] short_broker))
           !! "zmq.w1"
     = Some 6%Z.
Proof. repeat split. Qed.

(** C3, where the code departs from it.  [on_event_ready] appends the
    identity to the queue of the service without looking for it in any queue.
    A worker that is ready for two services is in both queues; a worker that
    said twice that it is ready for one service is in its queue twice, and
    after [dispatch_requests] has given it a request and taken it out of the
    registry, it is still in the queue.  The next request finds the identity
    there and not in the registry, and [dispatch_requests] raises. *)
Theorem repeated_ready_leaves_stale_identities :
  reachable (mdp := example_mdp) ready_for_two_services
  /\ in_queue ready_for_two_services "echo" "zmq.w1"
  /\ in_queue ready_for_two_services "calc" "zmq.w1"
  /\ reachable (mdp := example_mdp) ready_twice_then_assigned
  /\ socket ready_twice_then_assigned
     = [EventWorkerRequest_serialize (EventWorkerRequest.mk "hi" "c1") "w1"]
  /\ workers ready_twice_then_assigned !! "zmq.w1" = None
  /\ in_queue ready_twice_then_assigned "echo" "zmq.w1"
  /\ raised (handle (mdp := example_mdp) (client_request "c2" "echo" "ho")
               ready_twice_then_assigned)
     = Some (KeyError "zmq.w1").
Proof.
  split; [apply reachable_after; constructor|].
  split; [eexists; split; [reflexivity|left]|].
  split; [eexists; split; [reflexivity|left]|].
  split; [apply reachable_after; constructor|].
  split; [reflexivity|]. split; [reflexivity|].
  split; [eexists; split; [reflexivity|left]|].
  reflexivity.
Qed.

(** ** More of the broker *)

(** *** Loops over a dict that replace some of its values *)

Lemma foldl_insert_some_lookup {V} (g : V -> option V) (l : list (string * V)) :
  NoDup l.*1 ->
  forall (m : gmap string V) (k : string),
    foldl (insert_some g) m l !! k
    = match (list_to_map l : gmap string V) !! k with
      | Some v => match g v with Some v' => Some v' | None => m !! k end
      | None => m !! k
      end.
Proof.
  induction l as [|[k0 v0] l IH]; intros Hnodup m k; [done|].
  rewrite fmap_cons in Hnodup. apply NoDup_cons in Hnodup as [Hfresh Hnodup].
  cbn [foldl]. rewrite IH by done. rewrite list_to_map_cons.
  unfold insert_some. cbn [fst snd].
  destruct (decide (k0 = k)) as [->|Hne].
  - rewrite lookup_insert_eq, (not_elem_of_list_to_map_1 _ _ Hfresh).
    destruct (g v0); [apply lookup_insert_eq|done].
  - rewrite (lookup_insert_ne _ k0 k) by done.
    destruct (g v0); [|done]. by rewrite lookup_insert_ne.
Qed.

Lemma foldl_insert_some_map_to_list {V} (g : V -> option V) (m : gmap string V) :
  foldl (insert_some g) m (map_to_list m) = (fun v => default v (g v)) <$> m.
Proof.
  apply map_eq. intros k.
  rewrite foldl_insert_some_lookup by apply NoDup_fst_map_to_list.
  rewrite list_to_map_to_list, lookup_fmap.
  destruct (m !! k) as [v|] eqn:Hk; simpl; [|done]. by destruct (g v).
Qed.

Lemma set_services_id (s : t) : set_services (fun m => m) s = s.
Proof. by destruct s. Qed.

Lemma set_workers_id (s : t) : set_workers (fun m => m) s = s.
Proof. by destruct s. Qed.

Lemma set_services_set_workers_same (s : t) f g :
  f (services s) = services s -> g (workers s) = workers s ->
  set_services f (set_workers g s) = s.
Proof.
  destruct s; unfold set_services, set_workers; cbn [services workers].
  intros Hf Hg. by rewrite Hf, Hg.
Qed.

(** *** DISCONNECT *)

Section disconnect.

Context `{mdp : Mdp}.

Lemma for_each_discard_from_service item (l : list (string * Service.t)) :
  forall s,
    for_each l (discard_from_service item) s
    = Return tt
        (set_services
           (fun m => foldl (insert_some (fun service =>
                       (fun k => Service.set_workers k service)
                       <$> list_remove item (Service.workers service))) m l) s).
Proof.
  induction l as [|[name service] l IH]; intros s; simpl.
  - by rewrite set_services_id.
  - unfold bind at 1, discard_from_service at 1, insert_some at 2. simpl.
    destruct (list_remove item (Service.workers service)); simpl.
    + unfold modify. by rewrite IH.
    + by rewrite IH.
Qed.

Lemma discard_worker_default item service :
  default service ((fun k => Service.set_workers k service)
                   <$> list_remove item (Service.workers service))
  = discard_worker item service.
Proof.
  unfold discard_worker, discard.
  destruct (list_remove item (Service.workers service)); [done|]. by destruct service.
Qed.

(** [on_event_disconnect] in one step. *)
Lemma on_event_disconnect_eq (s : t) (worker_id : bytes) (data : list bytes) :
  let wrapped_id := wrap_worker_id worker_type.zmq worker_id in
  on_event_disconnect worker_id data s
  = Return tt (set_services (fmap (discard_worker wrapped_id))
                 (set_workers (delete wrapped_id) s)).
Proof.
  intros wrapped_id. unfold on_event_disconnect, bind, modify, gets. fold wrapped_id.
  rewrite for_each_discard_from_service. f_equal.
  change (services (set_workers (delete wrapped_id) s)) with (services s).
  unfold set_services. f_equal. cbn [services set_workers].
  rewrite foldl_insert_some_map_to_list. apply map_fmap_ext.
  intros name service _. apply discard_worker_default.
Qed.

(** X1.  [on_event_disconnect] always returns.  It takes the wrapped
    identity out of the registry and the first occurrence of it out of the
    queue of every service, and does nothing else: no other record and no
    pending request changes, nothing is sent or logged, the clock is not
    read. *)
Theorem disconnect_unregisters_and_discards (s : t) (worker_id : bytes) (data : list bytes) :
  let wrapped_id := wrap_worker_id worker_type.zmq worker_id in
  exists s',
    on_event_disconnect worker_id data s = Return tt s'
    /\ workers s' = delete wrapped_id (workers s)
    /\ services s' = discard_worker wrapped_id <$> services s
    /\ (forall service_name, pending_of s' service_name = pending_of s service_name)
    /\ socket s' = socket s /\ logger s' = logger s
    /\ utc_reads s' = utc_reads s /\ same_options s s'.
Proof.
  intros wrapped_id. eexists. split; [apply on_event_disconnect_eq|].
  repeat split. intros name. unfold pending_of. simpl. rewrite lookup_fmap.
  by destruct (services s !! name).
Qed.

Lemma list_remove_Some_inv (x : bytes) (l : list bytes) :
  x ∈ l -> exists k, list_remove x l = Some k.
Proof.
  induction l as [|y l IH]; [by intros ?%elem_of_nil|]. simpl.
  destruct (decide (x = y)) as [->|Hne]; [by eexists|].
  intros [->|Hx]%elem_of_cons; [done|]. destruct (IH Hx) as [k ->]. by eexists.
Qed.

Lemma list_remove_None (x : bytes) (l : list bytes) : x ∉ l -> list_remove x l = None.
Proof.
  induction l as [|y l IH]; [done|]. intros [Hne Hl]%not_elem_of_cons. simpl.
  rewrite decide_False by done. by rewrite IH.
Qed.

Lemma list_remove_NoDup (x : bytes) (l k : list bytes) :
  NoDup l -> list_remove x l = Some k -> x ∉ k.
Proof.
  revert k. induction l as [|y l IH]; intros k Hnodup; simpl; [done|].
  apply NoDup_cons in Hnodup as [Hy Hnodup].
  destruct (decide (x = y)) as [->|Hne]; [by intros [= <-]|].
  destruct (list_remove x l) as [k'|]; [|done]. intros [= <-].
  apply not_elem_of_cons. split; [done|]. by apply IH.
Qed.

Lemma discard_not_in (x : bytes) (l : list bytes) : x ∉ l -> discard x l = l.
Proof. intros Hx. unfold discard. by rewrite list_remove_None. Qed.

Lemma discard_NoDup (x : bytes) (l : list bytes) : NoDup l -> x ∉ discard x l.
Proof.
  intros Hnodup. unfold discard. destruct (list_remove x l) as [k|] eqn:Hk; simpl.
  - by eapply list_remove_NoDup.
  - intros Hx. apply list_remove_Some_inv in Hx as [k Hk']. congruence.
Qed.

Lemma fmap_discard_worker_unknown (item : bytes) (m : gmap string Service.t) :
  (forall name service, m !! name = Some service -> item ∉ Service.workers service) ->
  discard_worker item <$> m = m.
Proof.
  intros Hm. rewrite <- (map_fmap_id m) at 2. apply map_fmap_ext.
  intros name [name0 pending queue] Hsvc. unfold discard_worker. simpl.
  rewrite discard_not_in; [done|]. apply (Hm _ _ Hsvc).
Qed.

(** X2.  A DISCONNECT from a worker that is neither in the registry nor in
    any queue leaves the broker exactly as it was: [pop] with a default and
    the guarded [remove] make the unknown identity harmless. *)
Theorem disconnect_of_unknown_worker_changes_nothing
    (s : t) (worker_id : bytes) (data : list bytes) :
  workers s !! wrap_worker_id worker_type.zmq worker_id = None ->
  (forall service_name,
     ~ in_queue s service_name (wrap_worker_id worker_type.zmq worker_id)) ->
  on_event_disconnect worker_id data s = Return tt s.
Proof.
  intros Hworker Hqueues. rewrite on_event_disconnect_eq. f_equal.
  apply set_services_set_workers_same; [|by apply delete_id].
  apply fmap_discard_worker_unknown. intros name service Hsvc Hin.
  apply (Hqueues name). by eexists.
Qed.

(** X3.  After a DISCONNECT the identity is in no queue and not in the
    registry, provided no queue held it more than once: the loop removes one
    occurrence per service. *)
Theorem disconnect_leaves_no_reference
    (s : t) (worker_id : bytes) (data : list bytes) :
  (forall service_name service,
     services s !! service_name = Some service -> NoDup (Service.workers service)) ->
  exists s',
    on_event_disconnect worker_id data s = Return tt s'
    /\ workers s' !! wrap_worker_id worker_type.zmq worker_id = None
    /\ (forall service_name,
          ~ in_queue s' service_name (wrap_worker_id worker_type.zmq worker_id)).
Proof.
  intros Hnodup. eexists. split; [apply on_event_disconnect_eq|].
  cbv zeta. split; [apply lookup_delete_eq|].
  intros name (service' & Hsvc' & Hin). simpl in Hsvc'.
  rewrite lookup_fmap in Hsvc'.
  destruct (services s !! name) as [service|] eqn:Hsvc; [|done].
  simpl in Hsvc'. injection Hsvc' as <-. simpl in Hin.
  by apply (discard_NoDup _ _ (Hnodup name service Hsvc)) in Hin.
Qed.

End disconnect.

(** *** Heartbeats and the disconnect of all workers *)

Lemma same_options_refl s : same_options s s.
Proof. by repeat split. Qed.

Lemma same_options_trans s0 s1 s2 :
  same_options s0 s1 -> same_options s1 s2 -> same_options s0 s2.
Proof.
  intros (? & ? & ? & ? & ? & ? & ? & ?) (? & ? & ? & ? & ? & ? & ? & ?).
  repeat split; congruence.
Qed.

Lemma heartbeat_due_same s s' now worker :
  heartbeat s' = heartbeat s -> heartbeat_due s' now worker = heartbeat_due s now worker.
Proof. intros H. unfold heartbeat_due. by rewrite H. Qed.

Section heartbeats.

Context `{mdp : Mdp}.

Lemma cleanup_workers_frame s s1 :
  cleanup_workers s = Return tt s1 ->
  socket s1 = socket s /\ logger s1 = logger s /\ same_options s s1.
Proof.
  intros Hsweep.
  pose proof (cleanup_workers_socket s) as Hsocket.
  pose proof (safe_final _ _ _ s (safe_cleanup_workers _ _ (closed_logger (logger s)))
                eq_refl) as Hlogger.
  pose proof (safe_final _ _ _ s (safe_cleanup_workers _ _ (closed_same_options s))
                (same_options_refl s)) as Hoptions.
  by rewrite Hsweep in Hsocket, Hlogger, Hoptions.
Qed.

Lemma for_each_send (f : string * WorkerData.t -> frames) (l : list (string * WorkerData.t)) :
  forall s,
    exists s',
      for_each l (fun entry => send_to_worker_zmq (f entry)) s = Return tt s'
      /\ socket s' = socket s ++ (f <$> l)
      /\ workers s' = workers s /\ services s' = services s
      /\ logger s' = logger s /\ utc_reads s' = utc_reads s /\ same_options s s'.
Proof.
  induction l as [|entry l IH]; intros s.
  - exists s. simpl. rewrite app_nil_r. repeat split.
  - destruct (IH (send_multipart (f entry) s)) as (s' & Hrun & Hsocket & Hrest).
    exists s'. split; [done|]. split; [|done].
    rewrite Hsocket. simpl. by rewrite <- app_assoc.
Qed.

(** X4.  A [KeyboardInterrupt] at the poll ends the main loop with
    [send_disconnect_to_all]: when its sweep returns, the messages sent are
    one disconnect for every worker the sweep left in the registry and
    nothing else; the order in which they go out is that of the visit of
    the dict, which the statement leaves open.  The polls that follow are
    not read.  The workers stay registered and queued, and [keep_running]
    stays true. *)
Theorem interrupt_sends_a_disconnect_to_every_worker
    (s s1 : t) (polls : list poll_result) :
  keep_running s = true ->
  cleanup_workers s = Return tt s1 ->
  exists s' sent,
    main_loop (KeyboardInterrupt :: polls) s = Return tt s'
    /\ send_disconnect_to_all s = Return tt s'
    /\ socket s' = socket s ++ sent
    /\ sent ≡ₚ disconnect_to <$> map_to_list (workers s1)
    /\ workers s' = workers s1 /\ services s' = services s1
    /\ keep_running s' = true.
Proof.
  intros Hrunning Hsweep.
  destruct (for_each_send disconnect_to (map_to_list (workers s1)) s1)
    as (s' & Hrun & Hsocket & Hworkers & Hservices & _ & _ & Hoptions).
  destruct (cleanup_workers_frame _ _ Hsweep) as (Hsocket1 & _ & Hoptions1).
  assert (send_disconnect_to_all s = Return tt s') as Hall.
  { unfold send_disconnect_to_all, bind, gets. by rewrite Hsweep. }
  exists s', (disconnect_to <$> map_to_list (workers s1)). split.
  { cbn [main_loop]. unfold bind, gets. by rewrite Hrunning. }
  split; [done|]. split; [by rewrite Hsocket, Hsocket1|].
  split; [done|]. split; [done|]. split; [done|].
  destruct (same_options_trans _ _ _ Hoptions1 Hoptions) as (_ & _ & Hk & _).
  by rewrite Hk.
Qed.

Lemma send_heartbeats_loop (s0 : t) (now : Z) (l : list (string * WorkerData.t)) :
  forall s,
    heartbeat s = heartbeat s0 ->
    exists s',
      for_each l (fun entry =>
        let* due := gets (fun s => heartbeat_due s now entry.2) in
        if due then _send_heartbeat entry.1 entry.2 now else ret tt) s
      = Return tt s'
      /\ workers s' = foldl (insert_some (stamp s0 now)) (workers s) l
      /\ socket s' = socket s
                     ++ (heartbeat_to
                           <$> List.filter (fun entry => heartbeat_due s0 now entry.2) l)
      /\ services s' = services s /\ logger s' = logger s
      /\ utc_reads s' = utc_reads s /\ same_options s s'.
Proof.
  induction l as [|[key worker] l IH]; intros s Hbeat.
  - exists s. simpl. rewrite app_nil_r. repeat split.
  - cbn [for_each foldl List.filter]. unfold bind at 1. unfold bind at 1, gets at 1.
    unfold insert_some at 2, stamp at 2. cbn [fst snd].
    rewrite (heartbeat_due_same s0 s now worker Hbeat).
    destruct (heartbeat_due s0 now worker).
    + unfold _send_heartbeat, bind, send_to_worker_zmq, modify.
      set (s1 := set_workers _ (send_multipart _ s)).
      destruct (IH s1 Hbeat) as (s' & Hrun & Hworkers & Hsocket & Hservices & Hrest).
      exists s'. split; [done|]. split; [done|]. split; [|done].
      rewrite Hsocket. simpl. by rewrite <- app_assoc.
    + destruct (IH s Hbeat) as (s' & Hrun & Hrest). by exists s'.
Qed.

(** [send_heartbeats] once its sweep has returned. *)
Lemma send_heartbeats_after_sweep (s s1 : t) :
  cleanup_workers (tick s) = Return tt s1 ->
  let now := utc s (utc_reads s) in
  exists s',
    send_heartbeats s = Return tt s'
    /\ workers s' = stamped s now <$> workers s1
    /\ socket s' = socket s
                   ++ (heartbeat_to
                         <$> List.filter (fun entry => heartbeat_due s now entry.2)
                               (map_to_list (workers s1)))
    /\ services s' = services s1 /\ logger s' = logger s
    /\ utc_reads s' = utc_reads s1 /\ same_options s s'.
Proof.
  intros Hsweep now.
  destruct (cleanup_workers_frame _ _ Hsweep) as (Hsocket1 & Hlogger1 & Hoptions1).
  assert (heartbeat s1 = heartbeat s) as Hbeat by by destruct Hoptions1 as (_&_&_&_&_&?&_).
  destruct (send_heartbeats_loop s now (map_to_list (workers s1)) s1 Hbeat)
    as (s' & Hrun & Hworkers & Hsocket & Hservices & Hlogger & Hreads & Hoptions).
  exists s'. split.
  { unfold send_heartbeats, bind, utcnow, gets. rewrite Hsweep. exact Hrun. }
  split; [by rewrite Hworkers, foldl_insert_some_map_to_list|].
  split; [by rewrite Hsocket, Hsocket1|]. split; [done|].
  split; [by rewrite Hlogger, Hlogger1|]. split; [done|].
  by apply (same_options_trans _ s1).
Qed.

(** X5.  When [send_heartbeats] returns, it has read the clock, its sweep
    has returned, and it has visited every worker the sweep left: a worker
    that never got a heartbeat, or got the last one at least [heartbeat]
    seconds before the reading, was sent one and stamped with the reading;
    the others were left alone.  The messages sent are one heartbeat for
    each of those workers and nothing else, in the order of the visit of the
    dict, which the statement leaves open.  Nothing else of a record
    changes, no worker is added or removed by the loop, and the services and
    the logger are as the sweep left them. *)
Theorem send_heartbeats_stamps_the_due_workers (s s' : t) :
  send_heartbeats s = Return tt s' ->
  let now := utc s (utc_reads s) in
  exists s1 sent,
    cleanup_workers (tick s) = Return tt s1
    /\ workers s' = stamped s now <$> workers s1
    /\ socket s' = socket s ++ sent
    /\ sent ≡ₚ heartbeat_to
                 <$> List.filter (fun entry => heartbeat_due s now entry.2)
                       (map_to_list (workers s1))
    /\ services s' = services s1 /\ logger s' = logger s.
Proof.
  intros Hrun now.
  destruct (cleanup_workers (tick s)) as [[] s1|e s1] eqn:Hsweep.
  2: { unfold send_heartbeats, bind, utcnow in Hrun. by rewrite Hsweep in Hrun. }
  destruct (send_heartbeats_after_sweep s s1 Hsweep)
    as (s2 & Hrun2 & Hworkers & Hsocket & Hservices & Hlogger & _).
  rewrite Hrun in Hrun2. injection Hrun2 as <-.
  exists s1. eexists. split; [done|]. split; [done|]. split; [exact Hsocket|].
  by split.
Qed.

(** X6.  When [send_heartbeats] returns, every worker of the registry
    carries the time of a heartbeat sent to it, and, for a positive interval
    [heartbeat], none of them is due for another one at the time the call
    read: a second round at that time would send nothing. *)
Theorem no_worker_is_due_after_send_heartbeats (s s' : t) :
  send_heartbeats s = Return tt s' ->
  let now := utc s (utc_reads s) in
  forall key worker,
    workers s' !! key = Some worker ->
    is_Some (WorkerData.last_hb_sent worker)
    /\ ((0 < heartbeat s)%Z -> heartbeat_due s' now worker = false).
Proof.
  intros Hrun now key worker Hworker.
  destruct (cleanup_workers (tick s)) as [[] s1|e s1] eqn:Hsweep.
  2: { unfold send_heartbeats, bind, utcnow in Hrun. by rewrite Hsweep in Hrun. }
  destruct (send_heartbeats_after_sweep s s1 Hsweep)
    as (s2 & Hrun2 & Hworkers & _ & _ & _ & _ & Hoptions).
  rewrite Hrun in Hrun2. injection Hrun2 as <-.
  rewrite Hworkers, lookup_fmap in Hworker.
  destruct (workers s1 !! key) as [w|]; [|done]. simpl in Hworker.
  injection Hworker as <-.
  assert (heartbeat s' = heartbeat s) as Hbeat by by destruct Hoptions as (_&_&_&_&_&?&_).
  rewrite (heartbeat_due_same s s' now _ Hbeat).
  unfold stamped, stamp, heartbeat_due. fold now.
  destruct (WorkerData.last_hb_sent w) as [sent|] eqn:Hsent; simpl.
  - destruct (bool_decide (sent + heartbeat s ≤ now)%Z) eqn:Hdue; simpl.
    + split; [by eexists|]. intros Hpos. apply bool_decide_eq_false_2. lia.
    + rewrite Hsent. split; [by eexists|]. by rewrite Hdue.
  - split; [by eexists|]. intros Hpos. apply bool_decide_eq_false_2. lia.
Qed.

End heartbeats.

(** *** Messages: routing and malformed frames *)

Section messages.

Context `{mdp : Mdp}.

Lemma handle_event_map_lookup :
  NoDup commands ->
  handle_event_map !! const.ready C = Some h_on_event_ready
  /\ handle_event_map !! const.reply_from_worker C = Some h_on_event_reply
  /\ handle_event_map !! const.heartbeat C = Some h_on_event_heartbeat
  /\ handle_event_map !! const.disconnect C = Some h_on_event_disconnect.
Proof.
  unfold commands, handle_event_map. intros Hnodup.
  apply NoDup_cons in Hnodup as [H1 Hnodup].
  apply NoDup_cons in Hnodup as [H2 Hnodup].
  apply NoDup_cons in Hnodup as [H3 _].
  apply not_elem_of_cons in H1 as [H12 H1].
  apply not_elem_of_cons in H1 as [H13 H1].
  apply not_elem_of_cons in H1 as [H14 _].
  apply not_elem_of_cons in H2 as [H23 H2].
  apply not_elem_of_cons in H2 as [H24 _].
  apply not_elem_of_cons in H3 as [H34 _].
  repeat split.
  - do 3 (rewrite lookup_insert_ne by done). apply lookup_insert_eq.
  - do 2 (rewrite lookup_insert_ne by done). apply lookup_insert_eq.
  - rewrite lookup_insert_ne by done. apply lookup_insert_eq.
  - apply lookup_insert_eq.
Qed.

(** X7.  With four distinct command frames, [handle_worker] gives each
    command to its own handler with the frames that follow it: READY to
    [on_event_ready], REPLY to [on_event_reply], HEARTBEAT to
    [on_event_heartbeat] and DISCONNECT to [on_event_disconnect]. *)
Theorem handle_worker_calls_the_handler_of_the_command
    (s : t) (worker_id : bytes) (rest : list bytes) :
  NoDup commands ->
  handle_worker worker_id (const.ready C :: rest) s = on_event_ready worker_id rest s
  /\ handle_worker worker_id (const.reply_from_worker C :: rest) s
     = on_event_reply worker_id rest s
  /\ handle_worker worker_id (const.heartbeat C :: rest) s
     = on_event_heartbeat worker_id rest s
  /\ handle_worker worker_id (const.disconnect C :: rest) s
     = on_event_disconnect worker_id rest s.
Proof.
  intros (Hready & Hreply & Hheartbeat & Hdisconnect)%handle_event_map_lookup.
  unfold handle_worker. by rewrite Hready, Hreply, Hheartbeat, Hdisconnect.
Qed.

(** X8.  A malformed message raises before the broker is touched: the
    clock is not read and no record, queue, message or log entry changes.
    Fewer than three frames, or a worker message without a command, or a
    READY without a service name, raise [IndexError]; a client message
    whose payload is not exactly a service name and a body raises
    [TypeError]; a REPLY whose data are not exactly three frames raises
    [ValueError]. *)
Theorem malformed_message_raises_and_changes_nothing (s : t) :
  NoDup commands ->
  (forall msg, length msg < 3 -> handle msg s = Raise IndexError s)
  /\ (forall sender_id delimiter payload,
        length payload <> 2 ->
        handle (sender_id :: delimiter :: const.client C :: payload) s
        = Raise (TypeError "handle_client") s)
  /\ (forall sender_id delimiter originator,
        originator <> const.client C ->
        handle [sender_id; delimiter; originator] s = Raise IndexError s
        /\ handle [sender_id; delimiter; originator; const.ready C] s
           = Raise IndexError s)
  /\ (forall sender_id delimiter originator data,
        originator <> const.client C -> length data <> 3 ->
        handle (sender_id :: delimiter :: originator
                  :: const.reply_from_worker C :: data) s
        = Raise (ValueError "unpack") s).
Proof.
  intros (Hready & Hreply & _)%handle_event_map_lookup. repeat split.
  - intros [|a [|b [|c msg]]] Hlen; simpl in Hlen; [done..|lia].
  - intros sender_id delimiter payload Hlen. unfold handle.
    rewrite decide_True by done.
    destruct payload as [|a [|b [|c payload]]]; simpl in Hlen; done.
  - unfold handle. by rewrite decide_False.
  - unfold handle, handle_worker. by rewrite decide_False, Hready.
  - intros sender_id delimiter originator data Hne Hlen.
    unfold handle, handle_worker. rewrite decide_False, Hreply by done. simpl.
    destruct data as [|a [|b [|c [|d data]]]]; simpl in Hlen; done.
Qed.

(** X9.  No call changes an option of the broker, whatever it is given and
    however it ends: after any sequence of calls the address, the poll
    interval, the two heartbeat options, the two logging switches and
    [keep_running] are what [__init__] set.  In particular nothing ever
    clears [keep_running]. *)
Theorem options_are_never_changed (s : t) (calls : list call) :
  same_options s (after_calls calls s).
Proof.
  unfold after_calls. revert s. induction calls as [|c calls IH]; intros s.
  - by repeat split.
  - simpl. destruct (IH (final (run c s))) as (? & ? & ? & ? & ? & ? & ? & ?).
    destruct (run_same_options c s) as (? & ? & ? & ? & ? & ? & ? & ?).
    repeat split; congruence.
Qed.

End messages.

(** *** Dispatch: nothing to pair, a stale identity, one request *)

Section pairing.

Context `{mdp : Mdp}.

Lemma dispatch_loop_idle fuel service_name s service :
  services s !! service_name = Some service ->
  Service.pending_requests service = [] \/ Service.workers service = [] ->
  dispatch_loop fuel service_name s = Return tt s.
Proof.
  intros Hsvc Hempty. destruct fuel; cbn [dispatch_loop]; rewrite Hsvc.
  - destruct Hempty as [-> | ->]; [done|].
    by destruct (Service.pending_requests service).
  - destruct Hempty as [-> | ->]; [done|].
    by destruct (Service.pending_requests service).
Qed.

Lemma dispatch_requests_idle service_name s s1 service :
  is_Some (services s !! service_name) ->
  cleanup_workers s = Return tt s1 ->
  services s1 !! service_name = Some service ->
  Service.pending_requests service = [] \/ Service.workers service = [] ->
  dispatch_requests service_name s = Return tt s1.
Proof.
  intros [service0 Hsvc0] Hsweep Hsvc Hempty.
  unfold dispatch_requests, bind, gets. rewrite Hsvc0, Hsweep, Hsvc.
  by apply (dispatch_loop_idle _ _ _ service).
Qed.

(** X10.  When, after its sweep, the service has no pending request or no
    available worker, [dispatch_requests] does nothing more: it returns the
    broker the sweep left, and the other queue waits untouched. *)
Theorem dispatch_with_an_empty_queue_only_sweeps
    (s s1 : t) (service_name : bytes) (service : Service.t) :
  is_Some (services s !! service_name) ->
  cleanup_workers s = Return tt s1 ->
  services s1 !! service_name = Some service ->
  Service.pending_requests service = [] \/ Service.workers service = [] ->
  dispatch_requests service_name s = Return tt s1.
Proof. apply dispatch_requests_idle. Qed.

(** X11.  When the identity at the head of the queue is not in the
    registry, [dispatch_requests] raises [KeyError], and the request at the
    head of the pending queue is lost: it was popped before the registry was
    asked, it is not sent and it is not put back. *)
Theorem dispatch_loses_the_request_of_a_stale_identity
    (s s1 : t) (service_name worker_id : bytes) (service : Service.t)
    (req : EventWorkerRequest.t) (pending : list EventWorkerRequest.t)
    (available : list bytes) :
  is_Some (services s !! service_name) ->
  cleanup_workers s = Return tt s1 ->
  services s1 !! service_name = Some service ->
  Service.pending_requests service = req :: pending ->
  Service.workers service = worker_id :: available ->
  workers s1 !! worker_id = None ->
  exists s',
    dispatch_requests service_name s = Raise (KeyError worker_id) s'
    /\ services s' !! service_name
       = Some (Service.mk (Service.name service) pending available)
    /\ socket s' = socket s /\ workers s' = workers s1.
Proof.
  intros [service0 Hsvc0] Hsweep Hsvc Hpending Hqueue Hstale.
  destruct (cleanup_workers_frame _ _ Hsweep) as (Hsocket & _).
  eexists. split.
  { unfold dispatch_requests, bind, gets. rewrite Hsvc0, Hsweep, Hsvc, Hpending.
    cbn [length dispatch_loop]. rewrite Hsvc, Hpending, Hqueue. cbv zeta.
    change (workers (set_services _ (set_services _ s1))) with (workers s1).
    rewrite Hstale. reflexivity. }
  split; [|done]. simpl. rewrite lookup_insert_eq. by destruct service.
Qed.

Lemma dispatch_loop_step fuel service_name s service req pending worker_id available worker :
  services s !! service_name = Some service ->
  Service.pending_requests service = req :: pending ->
  Service.workers service = worker_id :: available ->
  workers s !! worker_id = Some worker ->
  WorkerData.type worker = worker_type.zmq ->
  dispatch_loop (S fuel) service_name s
  = dispatch_loop fuel service_name
      (send_multipart (request_to req worker)
         (set_workers (delete worker_id)
            (set_services
               (insert service_name (Service.mk (Service.name service) pending available))
               s))).
Proof.
  intros Hsvc Hpending Hqueue Hworker Hty.
  cbn [dispatch_loop]. rewrite Hsvc, Hpending, Hqueue. cbv zeta.
  change (workers (set_services _ (set_services _ s))) with (workers s).
  rewrite Hworker. unfold bind, send_to_worker. rewrite Hty. cbn [worker_type.eqb].
  unfold send_to_worker_zmq, modify, request_to. f_equal.
  destruct s; unfold send_multipart, set_workers, set_services;
    cbn [address poll_interval keep_running log_details has_debug services workers
         heartbeat heartbeat_mult socket logger utc utc_reads].
  rewrite insert_insert_eq. by destruct service.
Qed.

(** X12.  A client request for a service with an empty pending queue and a
    registered worker at the head of its queue is sent to that worker at
    once: the worker leaves the queue and the registry, the workers behind
    it stay available, and the pending queue is empty again.  The sweep is
    assumed to find no expired worker. *)
Theorem request_goes_to_the_first_available_worker
    (s : t) (sender_id service_name received_body worker_id : bytes)
    (service : Service.t) (available : list bytes) (worker : WorkerData.t) :
  services s !! service_name = Some service ->
  Service.pending_requests service = [] ->
  Service.workers service = worker_id :: available ->
  workers s !! worker_id = Some worker ->
  WorkerData.type worker = worker_type.zmq ->
  none_expired (utc s (utc_reads s)) s ->
  exists s',
    handle_client sender_id service_name received_body s = Return tt s'
    /\ socket s'
       = socket s ++ [request_to (EventWorkerRequest.mk received_body sender_id) worker]
    /\ services s' !! service_name = Some (Service.mk (Service.name service) [] available)
    /\ workers s' = delete worker_id (workers s).
Proof.
  intros Hsvc Hpending Hqueue Hworker Hty Hlive.
  eexists. split.
  { unfold handle_client, setdefault_service, bind, gets, modify, ret.
    rewrite Hsvc, Hpending. cbn [app].
    unfold dispatch_requests, bind, gets. cbn [services set_services].
    rewrite lookup_insert_eq.
    rewrite cleanup_workers_none_expired by done.
    cbn [services set_services tick]. rewrite lookup_insert_eq.
    cbn [Service.pending_requests Service.set_pending_requests length].
    erewrite dispatch_loop_step; [|by apply lookup_insert_eq|done|by rewrite <- Hqueue|done..].
    eapply dispatch_loop_idle; [apply lookup_insert_eq|by left]. }
  simpl. by rewrite lookup_insert_eq.
Qed.

End pairing.

Lemma list_remove_app_new (x : bytes) (l : list bytes) :
  x ∉ l -> default (l ++ [x]) (list_remove x (l ++ [x])) = l.
Proof.
  induction l as [|y l IH]; simpl.
  - intros _. by rewrite decide_True.
  - intros [Hne Hl]%not_elem_of_cons. rewrite decide_False by done.
    specialize (IH Hl). destruct (list_remove x (l ++ [x])) as [k|] eqn:Hk; simpl in *.
    + by rewrite IH.
    + exfalso. pose proof (list_remove_Some_inv x (l ++ [x])) as [k Hk'];
        [apply elem_of_app; right; left|congruence].
Qed.

(** *** READY, and what follows it *)

Section ready.

Context `{mdp : Mdp}.

Lemma on_event_ready_eq (s : t) (worker_id service_name : bytes) (rest : list bytes) :
  on_event_ready worker_id (service_name :: rest) s
  = dispatch_requests service_name (registered worker_id service_name s).
Proof.
  unfold on_event_ready, setdefault_service, bind, gets, modify, ret, utcnow.
  unfold registered, ready_record, service_of.
  change (services (set_workers _ (tick s))) with (services s).
  destruct (services s !! service_name) as [service|]; [done|].
  f_equal. destruct s; unfold log, set_services, set_workers, tick;
    cbn [address poll_interval keep_running log_details has_debug services workers
         heartbeat heartbeat_mult socket logger utc utc_reads default].
  by rewrite insert_insert_eq.
Qed.

Lemma registered_none_expired (s : t) (worker_id service_name : bytes) :
  let now := utc s (utc_reads s) in
  let now' := utc s (S (utc_reads s)) in
  none_expired now' s ->
  (now' < now + const.ttl C)%Z ->
  cleanup_workers (registered worker_id service_name s)
  = Return tt (tick (registered worker_id service_name s)).
Proof.
  intros now now' Hlive Hfresh. apply cleanup_workers_none_expired.
  intros key worker. unfold registered. cbn [workers utc utc_reads log set_services
    set_workers tick].
  intros [[_ <-]|[_ Hworker]]%lookup_insert_Some; [done|]. by eapply Hlive.
Qed.

Lemma registered_service (s : t) (worker_id service_name : bytes) :
  services (registered worker_id service_name s) !! service_name
  = Some (Service.mk (Service.name (service_of s service_name))
            (pending_of s service_name)
            (available_of s service_name
               ++ [wrap_worker_id worker_type.zmq worker_id])).
Proof.
  unfold registered. cbn [services log set_services set_workers tick].
  rewrite lookup_insert_eq. unfold service_of, pending_of, available_of.
  by destruct (services s !! service_name) as [[]|].
Qed.

Lemma on_event_ready_idle (s : t) (worker_id service_name : bytes) (rest : list bytes) :
  let now := utc s (utc_reads s) in
  let now' := utc s (S (utc_reads s)) in
  pending_of s service_name = [] ->
  none_expired now' s ->
  (now' < now + const.ttl C)%Z ->
  on_event_ready worker_id (service_name :: rest) s
  = Return tt (tick (registered worker_id service_name s)).
Proof.
  intros now now' Hpending Hlive Hfresh. rewrite on_event_ready_eq.
  eapply dispatch_requests_idle.
  - rewrite registered_service. by eexists.
  - by apply registered_none_expired.
  - apply registered_service.
  - left. simpl. exact Hpending.
Qed.

(** X13.  A READY for a service with no pending request sends nothing: the
    record of the worker is stored under its wrapped identity, the identity
    goes to the end of the queue of the service, which is created if the
    name was not known, and one line is logged.  The clock is read twice, by
    the handler and by the sweep, which is assumed to find no expired worker. *)
Theorem ready_with_no_pending_request_waits
    (s : t) (worker_id service_name : bytes) (rest : list bytes) :
  let now := utc s (utc_reads s) in
  let now' := utc s (S (utc_reads s)) in
  let wd := ready_record worker_id service_name now in
  pending_of s service_name = [] ->
  none_expired now' s ->
  (now' < now + const.ttl C)%Z ->
  exists s',
    on_event_ready worker_id (service_name :: rest) s = Return tt s'
    /\ socket s' = socket s
    /\ workers s' = <[wrap_worker_id worker_type.zmq worker_id := wd]> (workers s)
    /\ services s'
       = <[service_name :=
             Service.mk (Service.name (service_of s service_name)) []
               (available_of s service_name
                  ++ [wrap_worker_id worker_type.zmq worker_id])]> (services s)
    /\ logger s' = logger s ++ [info_added_worker wd]
    /\ utc_reads s' = S (S (utc_reads s)).
Proof.
  intros now now' wd Hpending Hlive Hfresh.
  eexists. split; [by apply on_event_ready_idle|].
  repeat split. cbn [services registered tick log set_services set_workers].
  f_equal. unfold service_of, available_of, pending_of in *.
  destruct (services s !! service_name) as [[]|]; simpl in *; by subst.
Qed.

(** X14.  A worker that is given a request is no longer known to the
    broker.  A READY for a service with a pending request and no available
    worker sends the first pending request to the new worker at once and
    takes its record out of the registry again; a HEARTBEAT of that worker,
    handled next, finds no record: it logs the warning and changes nothing
    else. *)
Theorem heartbeat_of_a_busy_worker_is_not_recognised
    (s : t) (worker_id service_name : bytes) (rest data : list bytes)
    (req : EventWorkerRequest.t) (pending : list EventWorkerRequest.t) :
  let now := utc s (utc_reads s) in
  let now' := utc s (S (utc_reads s)) in
  let wd := ready_record worker_id service_name now in
  let wrapped_id := wrap_worker_id worker_type.zmq worker_id in
  pending_of s service_name = req :: pending ->
  available_of s service_name = [] ->
  none_expired now' s ->
  (now' < now + const.ttl C)%Z ->
  exists s1,
    on_event_ready worker_id (service_name :: rest) s = Return tt s1
    /\ socket s1 = socket s ++ [request_to req wd]
    /\ pending_of s1 service_name = pending
    /\ available_of s1 service_name = []
    /\ workers s1 = delete wrapped_id (workers s)
    /\ on_event_heartbeat worker_id data s1
       = Return tt (log (warn_no_worker_for_hb wrapped_id) s1).
Proof.
  intros now now' wd wrapped_id Hpending Havailable Hlive Hfresh.
  pose proof (registered_service s worker_id service_name) as Hsvc.
  rewrite Hpending, Havailable in Hsvc. cbn [app] in Hsvc.
  eexists. split.
  { rewrite on_event_ready_eq. unfold dispatch_requests, bind, gets.
    rewrite Hsvc, registered_none_expired by done.
    change (services (tick ?x)) with (services x). rewrite Hsvc.
    cbn [Service.pending_requests length].
    erewrite dispatch_loop_step with (worker := wd);
      [|exact Hsvc|reflexivity|reflexivity| |reflexivity].
    - eapply dispatch_loop_idle; [apply lookup_insert_eq|by right].
    - cbn [workers registered tick log set_services set_workers].
      apply lookup_insert_eq. }
  assert (forall m : gmap string WorkerData.t,
            delete wrapped_id (<[wrapped_id := wd]> m) = delete wrapped_id m) as Hdel.
  { intros m. apply delete_insert_eq. }
  cbn [socket services workers registered tick log set_services set_workers
       send_multipart].
  unfold pending_of, available_of. cbn [services set_services set_workers send_multipart].
  rewrite lookup_insert_eq. repeat split.
  - apply Hdel.
  - unfold on_event_heartbeat, bind, gets. fold wrapped_id.
    cbn [workers set_workers send_multipart set_services].
    fold wd. change (WorkerData.id wd) with wrapped_id.
    by rewrite lookup_delete_eq.
Qed.

(** X15.  For a service with no pending request, a READY followed by the
    DISCONNECT of the same worker restores the registry and the queues.
    When the worker was neither registered nor in any queue, and no worker,
    the new one included, has expired when the READY sweeps, both calls
    return, nothing is sent, and the broker after them has the registry it
    had before, and the services it had before, with the service of the
    READY added if its name was not known: [setdefault] created it and
    nothing takes a service away. *)
Theorem disconnect_undoes_ready
    (s : t) (worker_id service_name : bytes) (rest data : list bytes) :
  let now := utc s (utc_reads s) in
  let now' := utc s (S (utc_reads s)) in
  let wrapped_id := wrap_worker_id worker_type.zmq worker_id in
  pending_of s service_name = [] ->
  none_expired now' s ->
  (now' < now + const.ttl C)%Z ->
  workers s !! wrapped_id = None ->
  (forall name service, services s !! name = Some service ->
     wrapped_id ∉ Service.workers service) ->
  exists s1 s2,
    on_event_ready worker_id (service_name :: rest) s = Return tt s1
    /\ on_event_disconnect worker_id data s1 = Return tt s2
    /\ workers s2 = workers s
    /\ services s2 = <[service_name := service_of s service_name]> (services s)
    /\ socket s2 = socket s.
Proof.
  intros now now' wrapped_id Hpending Hlive Hfresh Hnew Hqueues.
  eexists. eexists. split; [by apply on_event_ready_idle|].
  split; [apply on_event_disconnect_eq|]. fold wrapped_id.
  cbn [socket services workers registered tick log set_services set_workers].
  change (WorkerData.id (ready_record worker_id service_name (utc s (utc_reads s))))
    with wrapped_id.
  repeat split.
  - rewrite delete_insert_eq. by apply delete_id.
  - rewrite fmap_insert, fmap_discard_worker_unknown by done. f_equal.
    unfold discard_worker, service_of.
    destruct (services s !! service_name) as [[name0 pending0 queue0]|] eqn:Hsvc;
      cbn [default Service.workers Service.set_workers Service.init].
    + f_equal. unfold discard. rewrite list_remove_app_new; [done|].
      apply (Hqueues _ _ Hsvc).
    + unfold discard. cbn [app list_remove]. by rewrite decide_True.
Qed.

End ready.

(** *** What holds of every broker that can exist *)

Section kept_methods.

Context `{mdp : Mdp}.
Context (I : t -> Prop) (HI : kept I).

Lemma keeps_ret {A} (a : A) : keeps I (ret a).
Proof. by apply hoare_ret. Qed.

Lemma keeps_raise {A} (e : exn) : keeps I (raise (A := A) e).
Proof. by apply hoare_raise. Qed.

Lemma keeps_bind {A B} (m : M A) (k : A -> M B) :
  keeps I m -> (forall a, keeps I (k a)) -> keeps I (bind m k).
Proof. intros Hm Hk. by apply hoare_bind with (Pm := fun _ => I). Qed.

Lemma keeps_gets {A B} (f : t -> A) (k : A -> M B) :
  (forall a, keeps I (k a)) -> keeps I (bind (gets f) k).
Proof. intros Hk. apply keeps_bind; [by apply hoare_gets | done]. Qed.

Lemma keeps_modify (f : t -> t) : (forall s, I s -> I (f s)) -> keeps I (modify f).
Proof. intros Hf. by apply hoare_modify. Qed.

Lemma keeps_for_each {A} (l : list A) (body : A -> M unit) :
  (forall x, x ∈ l -> keeps I (body x)) -> keeps I (for_each l body).
Proof. apply hoare_for_each. Qed.

Lemma keeps_utcnow {B} (k : Z -> M B) :
  (forall now, keeps I (k now)) -> keeps I (bind utcnow k).
Proof.
  intros Hk. apply keeps_bind; [|done].
  intros s Hs. simpl. by apply (kept_tick I HI).
Qed.

Lemma keeps_remove_from_service item entry : keeps I (remove_from_service item entry).
Proof.
  unfold remove_from_service. destruct (list_remove _ _).
  - apply keeps_modify. intros s. by apply (kept_services I HI).
  - apply keeps_raise.
Qed.

Lemma keeps_remove_expired item : keeps I (remove_expired item).
Proof.
  unfold remove_expired. apply keeps_gets. intros registry.
  destruct (registry !! item); [|apply keeps_raise].
  apply keeps_bind; [apply keeps_modify; intros s; by apply (kept_delete I HI)|].
  intros _. apply keeps_gets. intros all.
  apply keeps_for_each. intros entry _. apply keeps_remove_from_service.
Qed.

Lemma keeps_cleanup_workers : keeps I cleanup_workers.
Proof.
  unfold cleanup_workers. apply keeps_utcnow. intros now.
  apply keeps_gets. intros registry.
  apply keeps_for_each. intros item _. apply keeps_remove_expired.
Qed.

Lemma keeps_dispatch_loop fuel service_name : keeps I (dispatch_loop fuel service_name).
Proof.
  induction fuel as [|fuel IH]; intros s Hs; cbn [dispatch_loop].
  - destruct (services s !! service_name) as [service|]; [|done].
    by destruct (Service.pending_requests service), (Service.workers service).
  - destruct (services s !! service_name) as [service|]; [|done].
    destruct (Service.pending_requests service) as [|req pending]; [done|].
    destruct (Service.workers service) as [|worker_id available]; [done|].
    cbv zeta. set (s2 := set_services _ (set_services _ s)).
    assert (I s2) as Hs2 by (subst s2; do 2 apply (kept_services I HI); done).
    destruct (workers s2 !! worker_id) as [worker|] eqn:Hw; [|done].
    assert (I (set_workers (delete worker_id) s2)) as Hs3
      by by apply (kept_delete I HI).
    unfold bind, send_to_worker.
    destruct (WorkerData.type worker) eqn:Hty; cbn; [done|].
    apply IH. by apply (kept_send I HI).
Qed.

Lemma keeps_dispatch_requests service_name : keeps I (dispatch_requests service_name).
Proof.
  unfold dispatch_requests. apply keeps_gets. intros all.
  destruct (all !! service_name); [|apply keeps_raise].
  apply keeps_bind; [apply keeps_cleanup_workers|]. intros _.
  apply keeps_gets. intros all'. apply keeps_dispatch_loop.
Qed.

Lemma keeps_setdefault_service {B} service_name (k : Service.t -> M B) :
  (forall service, keeps I (k service)) ->
  keeps I (bind (setdefault_service service_name) k).
Proof.
  intros Hk. apply keeps_bind; [|done].
  unfold setdefault_service. apply keeps_gets. intros all.
  destruct (all !! service_name); [apply keeps_ret|].
  apply keeps_bind; [|intros _; apply keeps_ret].
  apply keeps_modify. intros s. by apply (kept_services I HI).
Qed.

Lemma keeps_handle_client sender_id service_name received_body :
  keeps I (handle_client sender_id service_name received_body).
Proof.
  unfold handle_client. apply keeps_setdefault_service. intros service.
  apply keeps_bind; [|intros _; apply keeps_dispatch_requests].
  apply keeps_modify. intros s. by apply (kept_services I HI).
Qed.

Lemma keeps_on_event_ready worker_id service_name :
  keeps I (on_event_ready worker_id service_name).
Proof.
  unfold on_event_ready. destruct service_name as [|service_name _]; [apply keeps_raise|].
  apply keeps_utcnow. intros now.
  apply keeps_bind;
    [apply keeps_modify; intros s Hs;
     by apply (kept_ready I HI worker_id service_name now)|].
  intros _. apply keeps_setdefault_service. intros service.
  apply keeps_bind; [apply keeps_modify; intros s; by apply (kept_services I HI)|].
  intros _. apply keeps_bind; [apply keeps_modify; intros s; by apply (kept_log I HI)|].
  intros _. apply keeps_dispatch_requests.
Qed.

Lemma keeps_on_event_reply worker_id data : keeps I (on_event_reply worker_id data).
Proof.
  unfold on_event_reply.
  destruct data as [|recipient [|delimiter [|body [|]]]]; try apply keeps_raise.
  apply keeps_modify. intros s. by apply (kept_send I HI).
Qed.

Lemma keeps_on_event_heartbeat worker_id data :
  keeps I (on_event_heartbeat worker_id data).
Proof.
  intros s Hs. unfold on_event_heartbeat, bind, gets. simpl.
  destruct (workers s !! _) as [worker|] eqn:Hw; simpl.
  - apply (kept_refresh I HI); [by apply (kept_tick I HI)|done].
  - by apply (kept_log I HI).
Qed.

Lemma keeps_discard_from_service item entry : keeps I (discard_from_service item entry).
Proof.
  unfold discard_from_service. destruct (list_remove _ _); [|apply keeps_ret].
  apply keeps_modify. intros s. by apply (kept_services I HI).
Qed.

Lemma keeps_on_event_disconnect worker_id data :
  keeps I (on_event_disconnect worker_id data).
Proof.
  unfold on_event_disconnect.
  apply keeps_bind; [apply keeps_modify; intros s; by apply (kept_delete I HI)|].
  intros _. apply keeps_gets. intros all.
  apply keeps_for_each. intros entry _. apply keeps_discard_from_service.
Qed.

Lemma keeps_handle_worker worker_id payload : keeps I (handle_worker worker_id payload).
Proof.
  unfold handle_worker. destruct payload as [|event rest]; [apply keeps_raise|].
  destruct (handle_event_map !! event) as [[]|]; simpl.
  - apply keeps_on_event_ready.
  - apply keeps_on_event_reply.
  - apply keeps_on_event_heartbeat.
  - apply keeps_on_event_disconnect.
  - apply keeps_raise.
Qed.

Lemma keeps_handle msg : keeps I (handle msg).
Proof.
  unfold handle.
  destruct msg as [|sender_id [|delimiter [|originator payload]]]; try apply keeps_raise.
  destruct (decide _); [|apply keeps_handle_worker].
  destruct payload as [|service_name [|received_body [|]]]; try apply keeps_raise.
  apply keeps_handle_client.
Qed.

(** The loop of [send_heartbeats] visits the items of the registry it read
    before the loop, each key once: the record of an item is still the one
    of the registry when its turn comes. *)
Lemma keeps_send_heartbeats_loop now (l : list (string * WorkerData.t)) :
  NoDup l.*1 ->
  hoare
    (fun s => I s /\ forall entry, entry ∈ l -> workers s !! entry.1 = Some entry.2)
    (for_each l (fun entry =>
       let* due := gets (fun s => heartbeat_due s now entry.2) in
       if due then _send_heartbeat entry.1 entry.2 now else ret tt))
    (fun _ => I) (fun _ => I).
Proof.
  induction l as [|[key worker] l IH]; intros Hnodup s [Hs Hl]; [done|].
  rewrite fmap_cons in Hnodup. apply NoDup_cons in Hnodup as [Hkey Hnodup].
  cbn [for_each]. unfold bind at 1. unfold bind at 1. unfold gets at 1.
  destruct (heartbeat_due s now (key, worker).2);
    [|apply (IH Hnodup); split; [done|]; intros entry Hentry; apply Hl; by right].
  apply (IH Hnodup). split.
  - apply (kept_stamp I HI); [by apply (kept_send I HI)|].
    apply (Hl (key, worker)). left.
  - intros [key' worker'] Hin. simpl.
    rewrite lookup_insert_ne.
    + apply (Hl (key', worker')). by right.
    + intros <-. apply Hkey. apply list_elem_of_fmap. by exists (key, worker').
Qed.

Lemma keeps_send_heartbeats : keeps I send_heartbeats.
Proof.
  unfold send_heartbeats. apply keeps_utcnow. intros now.
  apply keeps_bind; [apply keeps_cleanup_workers|]. intros _ s Hs.
  unfold bind at 1. unfold gets at 1.
  apply keeps_send_heartbeats_loop; [apply NoDup_fst_map_to_list|].
  split; [done|]. by intros [key worker] Hin%elem_of_map_to_list.
Qed.

Lemma keeps_send_disconnect_to_all : keeps I send_disconnect_to_all.
Proof.
  unfold send_disconnect_to_all.
  apply keeps_bind; [apply keeps_cleanup_workers|]. intros _.
  apply keeps_gets. intros registry.
  apply keeps_for_each. intros entry _.
  apply keeps_modify. intros s. by apply (kept_send I HI).
Qed.

Lemma keeps_debug r : keeps I (debug r).
Proof.
  intros s Hs. unfold debug. destruct (has_debug s); [|done].
  by apply (kept_log I HI).
Qed.

Lemma keeps_main_loop polls : keeps I (main_loop polls).
Proof.
  induction polls as [|poll polls IH]; [apply keeps_ret|].
  cbn [main_loop]. apply keeps_gets. intros [|]; [|apply keeps_ret].
  destruct poll as [|received]; [apply keeps_send_disconnect_to_all|].
  apply keeps_bind; [apply keeps_send_heartbeats|]. intros _.
  apply keeps_bind.
  { destruct received as [msg|]; [|apply keeps_ret].
    apply keeps_bind; [apply keeps_debug|]. intros _. apply keeps_handle. }
  intros _. apply keeps_bind; [apply keeps_debug|]. by intros _.
Qed.

Lemma keeps_serve_forever polls : keeps I (serve_forever polls).
Proof.
  unfold serve_forever. apply keeps_gets. intros a.
  apply keeps_bind; [|intros _; apply keeps_main_loop].
  apply keeps_modify. intros s. by apply (kept_log I HI).
Qed.

Lemma keeps_run c : keeps I (run c).
Proof.
  destruct c; simpl.
  - apply keeps_cleanup_workers.
  - apply keeps_send_disconnect_to_all.
  - apply keeps_send_heartbeats.
  - apply keeps_handle.
  - apply keeps_dispatch_requests.
  - apply keeps_handle_client.
  - apply keeps_handle_worker.
  - apply keeps_on_event_ready.
  - apply keeps_on_event_reply.
  - apply keeps_on_event_heartbeat.
  - apply keeps_on_event_disconnect.
  - apply keeps_serve_forever.
Qed.

Lemma keeps_final (c : call) (s : t) : I s -> I (final (run c s)).
Proof. intros Hs. pose proof (keeps_run c s Hs) as Hrun. by destruct (run c s). Qed.

End kept_methods.

Section registry.

Context `{mdp : Mdp}.

Lemma kept_registry_ok : kept registry_ok.
Proof.
  split; try done.
  - intros k s Hs key worker. simpl. intros [_ Hw]%lookup_delete_Some. by eapply Hs.
  - intros worker_id service_name now s Hs key worker. simpl.
    intros [[<- <-]|[_ Hw]]%lookup_insert_Some; [|by eapply Hs].
    repeat split. by exists worker_id.
  - intros worker_id worker now s Hs Hworker key worker'. simpl.
    intros [[<- <-]|[_ Hw]]%lookup_insert_Some; [|by eapply Hs].
    destruct (Hs _ _ Hworker) as (Hid & Hty & _ & _).
    repeat split; [done..|]. by exists worker_id.
  - intros k worker now s Hs Hworker key worker'. simpl.
    intros [[<- <-]|[_ Hw]]%lookup_insert_Some; [|by eapply Hs].
    exact (Hs _ _ Hworker).
Qed.

Lemma reachable_kept (I : t -> Prop) :
  kept I ->
  (forall address poll_interval log_details has_debug heartbeat heartbeat_mult utc,
     I (init address poll_interval log_details has_debug heartbeat heartbeat_mult utc)) ->
  forall s, reachable s -> I s.
Proof.
  intros HI Hinit s. induction 1 as [|s c _ IH]; [apply Hinit|].
  by apply keeps_final.
Qed.

Lemma reachable_registry_ok (s : t) : reachable s -> registry_ok s.
Proof.
  apply reachable_kept; [apply kept_registry_ok|].
  intros address poll_interval log_details has_debug heartbeat heartbeat_mult utc
         key worker.
  unfold init. simpl. by rewrite lookup_empty.
Qed.

(** X17.  In every broker that can exist, whatever calls were made on it
    and however they ended, each record of the registry is stored under its
    own identity, which is the wrapped identity of an external-transport
    worker, and expires [const.ttl] seconds after the last heartbeat the
    broker received from the worker. *)
Theorem every_record_is_stored_under_its_identity
    (s : t) (key : bytes) (worker : WorkerData.t) :
  reachable s ->
  workers s !! key = Some worker ->
  WorkerData.id worker = key
  /\ WorkerData.type worker = worker_type.zmq
  /\ (exists raw_id, key = wrap_worker_id worker_type.zmq raw_id)
  /\ WorkerData.expires_at worker
     = (WorkerData.last_hb_received worker + const.ttl C)%Z.
Proof. intros Hs Hworker. exact (reachable_registry_ok s Hs key worker Hworker). Qed.

End registry.

(** The sweep on a registry whose records carry their keys. *)

Lemma for_each_remove_from_service_raises item (l : list (string * Service.t)) :
  forall s e s',
    for_each l (remove_from_service item) s = Raise e s' ->
    e = not_in_list /\ workers s' = workers s.
Proof.
  induction l as [|entry l IH]; intros s e s'; simpl; [done|].
  unfold bind at 1, remove_from_service at 1.
  destruct (list_remove item _); [|by intros [= <- <-]].
  unfold modify. intros Hrun. by apply IH in Hrun.
Qed.

Lemma for_each_remove_expired_raises (expired : list bytes) :
  forall s e s',
    NoDup expired ->
    (forall item, item ∈ expired -> is_Some (workers s !! item)) ->
    for_each expired remove_expired s = Raise e s' ->
    e = not_in_list.
Proof.
  induction expired as [|item expired IH]; intros s e s' Hnodup Hall; simpl; [done|].
  apply NoDup_cons in Hnodup as [Hitem Hnodup].
  unfold bind at 1, remove_expired at 1. unfold bind at 1, gets at 1.
  destruct (Hall item) as [worker Hworker]; [left|]. rewrite Hworker.
  unfold bind at 1, modify at 1. unfold bind at 1, gets at 1.
  destruct (for_each (map_to_list _) _ _) as [[] s1|e1 s1] eqn:Hinner.
  - apply for_each_remove_from_service_workers in Hinner.
    apply IH; [done|]. intros item' Hitem'. rewrite Hinner. simpl.
    rewrite lookup_delete_ne by (by intros ->). apply Hall. by right.
  - apply for_each_remove_from_service_raises in Hinner as [-> _]. by intros [= <- _].
Qed.

Lemma expired_keys now (l : list (string * WorkerData.t)) :
  NoDup l.*1 ->
  (forall entry, entry ∈ l -> WorkerData.id entry.2 = entry.1) ->
  NoDup (WorkerData.id <$> List.filter (is_expired now) l.*2)
  /\ (forall item, item ∈ WorkerData.id <$> List.filter (is_expired now) l.*2 ->
        item ∈ l.*1).
Proof.
  induction l as [|[key worker] l IH]; intros Hnodup Hid.
  - split; [constructor|]. by intros item ?%elem_of_nil.
  - rewrite fmap_cons in Hnodup. apply NoDup_cons in Hnodup as [Hkey Hnodup].
    destruct (IH Hnodup) as [IH1 IH2]; [intros entry Hentry; apply Hid; by right|].
    pose proof (Hid (key, worker) ltac:(left)) as Hworker. simpl in Hworker.
    rewrite !fmap_cons. cbn [snd fst List.filter].
    destruct (is_expired now worker).
    + rewrite fmap_cons, Hworker. split.
      * apply NoDup_cons. split; [|done]. intros Hin. by apply Hkey, IH2.
      * intros item [->|Hitem]%elem_of_cons; [left|right; by apply IH2].
    + split; [done|]. intros item Hitem. right. by apply IH2.
Qed.

Lemma cleanup_workers_raises `{mdp : Mdp} (s : t) (e : exn) (s' : t) :
  registry_ok s -> cleanup_workers s = Raise e s' -> e = not_in_list.
Proof.
  intros Hs. unfold cleanup_workers, bind, utcnow, gets.
  destruct (expired_keys (utc s (utc_reads s)) (map_to_list (workers (tick s))))
    as [Hnodup Hkeys].
  { apply NoDup_fst_map_to_list. }
  { intros [key worker] Hentry%elem_of_map_to_list. by destruct (Hs _ _ Hentry). }
  apply for_each_remove_expired_raises; [done|].
  intros item [[key worker] [-> Hentry]]%Hkeys%list_elem_of_fmap.
  apply elem_of_map_to_list in Hentry. by eexists.
Qed.

Section reachable_brokers.

Context `{mdp : Mdp}.

(** X18.  In a broker that can exist the sweep deletes registered keys
    only: [cleanup_workers] never raises [KeyError] at
    [del self.workers[item]].  The one exception it can raise is the
    [ValueError] of [list.remove], for an expired worker that the queue of
    some service does not hold. *)
Theorem sweep_raises_nothing_but_ValueError (s : t) :
  reachable s ->
  raised (cleanup_workers s) = None \/ raised (cleanup_workers s) = Some not_in_list.
Proof.
  intros Hs%reachable_registry_ok.
  destruct (cleanup_workers s) as [[] s'|e s'] eqn:Hrun; [by left|].
  right. simpl. f_equal. by eapply cleanup_workers_raises.
Qed.

Lemma closed_services_known (s0 : t) : closed (services_known s0) (fun _ => True).
Proof.
  split; try done.
  intros name service s Hs. unfold services_known in *. simpl.
  rewrite dom_insert. set_solver.
Qed.

(** X16.  No call forgets a service.  The services the broker knows
    after any sequence of calls, returned or raised, include those it knew
    before: a service stays in [self.services] when its last worker
    disconnects or expires and when its last request is sent. *)
Theorem no_service_is_ever_forgotten (s : t) (calls : list call) :
  dom (services s) ⊆ dom (services (after_calls calls s)).
Proof.
  change (services_known s (after_calls calls s)).
  assert (forall s1, services_known s s1 -> services_known s (after_calls calls s1))
    as Hall; [|apply Hall; by unfold services_known].
  unfold after_calls. induction calls as [|c calls IH]; intros s1 Hs1; [done|].
  simpl. apply IH.
  apply (safe_final (services_known s) (fun _ => True)); [|done].
  apply (safe_run _ _ (closed_services_known s)); [by intros..|].
  intros service_name.
  apply (safe_dispatch_requests _ _ (closed_services_known s)); by intros.
Qed.

End reachable_brokers.

(** *** The sweep that returns *)

Lemma for_each_remove_from_service_present item (l : list (string * Service.t)) :
  (forall entry, entry ∈ l -> item ∈ Service.workers entry.2) ->
  forall s,
    for_each l (remove_from_service item) s = for_each l (discard_from_service item) s.
Proof.
  induction l as [|entry l IH]; intros Hl s; [done|].
  cbn [for_each]. unfold bind.
  unfold remove_from_service at 1, discard_from_service at 1.
  destruct (list_remove_Some_inv item (Service.workers entry.2)) as [k ->];
    [apply Hl; left|].
  unfold modify. apply IH. intros e He. apply Hl. by right.
Qed.

Lemma list_remove_elem_of_ne (x y : bytes) (l k : list bytes) :
  list_remove x l = Some k -> y <> x -> y ∈ l -> y ∈ k.
Proof.
  revert k. induction l as [|z l IH]; intros k; simpl; [done|].
  destruct (decide (x = z)) as [->|Hne].
  - intros [= ->] Hy [->|Hin]%elem_of_cons; done.
  - destruct (list_remove x l) as [k'|]; [|done]. intros [= <-] Hy.
    intros [->|Hin]%elem_of_cons; [left|right; by apply IH].
Qed.

Lemma elem_of_discard_ne (x y : bytes) (l : list bytes) :
  y <> x -> y ∈ l -> y ∈ discard x l.
Proof.
  intros Hne Hin. unfold discard.
  destruct (list_remove x l) as [k|] eqn:Hk; simpl; [|done].
  by eapply list_remove_elem_of_ne.
Qed.

Lemma remove_expired_eq item s :
  is_Some (workers s !! item) ->
  (forall name service, services s !! name = Some service ->
     item ∈ Service.workers service) ->
  remove_expired item s = Return tt (unregister s item).
Proof.
  intros [worker Hworker] Hall. unfold remove_expired, bind, gets, modify.
  rewrite Hworker. rewrite for_each_remove_from_service_present.
  2: { intros [name service] Hentry%elem_of_map_to_list. by eapply Hall. }
  rewrite for_each_discard_from_service. f_equal. unfold unregister.
  change (services (set_workers (delete item) s)) with (services s).
  unfold set_services. f_equal. cbn [services set_workers].
  rewrite foldl_insert_some_map_to_list. apply map_fmap_ext.
  intros name service _. apply discard_worker_default.
Qed.

Lemma for_each_remove_expired_eq (expired : list bytes) :
  forall s,
    NoDup expired ->
    (forall item, item ∈ expired -> is_Some (workers s !! item)) ->
    (forall item name service,
       item ∈ expired -> services s !! name = Some service ->
       item ∈ Service.workers service) ->
    for_each expired remove_expired s = Return tt (foldl unregister s expired).
Proof.
  induction expired as [|item expired IH]; intros s Hnodup Hreg Hall; [done|].
  apply NoDup_cons in Hnodup as [Hitem Hnodup].
  cbn [for_each foldl]. unfold bind.
  rewrite remove_expired_eq; [|apply Hreg; left|intros name service; apply Hall; left].
  apply IH; [done| |].
  - intros item' Hitem'. unfold unregister. cbn [workers set_services set_workers].
    rewrite lookup_delete_ne by (by intros ->). apply Hreg. by right.
  - intros item' name service' Hitem'. unfold unregister.
    cbn [services set_services set_workers]. rewrite lookup_fmap.
    destruct (services s !! name) as [service|] eqn:Hsvc; [|done].
    intros [= <-]. unfold discard_worker. cbn [Service.workers Service.set_workers].
    apply elem_of_discard_ne; [by intros ->|]. eapply Hall; [by right|done].
Qed.

Lemma foldl_unregister (expired : list bytes) :
  forall s,
    workers (foldl unregister s expired) = foldr delete (workers s) expired
    /\ (forall name,
          services (foldl unregister s expired) !! name
          = swept expired <$> services s !! name)
    /\ socket (foldl unregister s expired) = socket s
    /\ logger (foldl unregister s expired) = logger s
    /\ utc_reads (foldl unregister s expired) = utc_reads s.
Proof.
  induction expired as [|item expired IH]; intros s.
  - repeat split. intros name. unfold swept. simpl. by destruct (services s !! name).
  - cbn [foldl]. destruct (IH (unregister s item)) as (Hw & Hs & Hrest).
    split; [|split; [|done]].
    + rewrite Hw. unfold unregister. cbn [workers set_services set_workers foldr].
      by rewrite delete_foldr_delete.
    + intros name. rewrite Hs. unfold unregister. cbn [services set_services set_workers].
      rewrite lookup_fmap. by destruct (services s !! name).
Qed.

Lemma expired_ids_spec (s : t) (key : bytes) :
  (forall k worker, workers s !! k = Some worker -> WorkerData.id worker = k) ->
  key ∈ expired_ids s
  <-> exists worker, workers s !! key = Some worker
                     /\ is_expired (utc s (utc_reads s)) worker = true.
Proof.
  intros Hid. unfold expired_ids. split.
  - intros [worker [-> Hin]]%list_elem_of_fmap.
    apply list_elem_of_In, filter_In in Hin as [Hin Hexp].
    apply list_elem_of_In, list_elem_of_fmap in Hin as [[k w] [-> Hin]].
    apply elem_of_map_to_list in Hin. simpl in *.
    exists w. split; [|done]. by rewrite (Hid _ _ Hin).
  - intros (worker & Hworker & Hexp). apply list_elem_of_fmap.
    exists worker. split; [by rewrite (Hid _ _ Hworker)|].
    apply list_elem_of_In, filter_In. split; [|done].
    apply list_elem_of_In, list_elem_of_fmap. exists (key, worker).
    split; [done|]. by apply elem_of_map_to_list.
Qed.

Lemma is_expired_true now worker :
  is_expired now worker = true <-> (WorkerData.expires_at worker <= now)%Z.
Proof. unfold is_expired. by rewrite bool_decide_eq_true. Qed.

Section returning_sweep.

Context `{mdp : Mdp}.

Lemma registry_ok_id (s : t) :
  registry_ok s ->
  forall k worker, workers s !! k = Some worker -> WorkerData.id worker = k.
Proof. intros Hs k worker Hworker. by destruct (Hs _ _ Hworker). Qed.

Lemma cleanup_workers_eq (s : t) :
  registry_ok s ->
  (forall key worker name service,
     workers s !! key = Some worker ->
     (WorkerData.expires_at worker <= utc s (utc_reads s))%Z ->
     services s !! name = Some service ->
     key ∈ Service.workers service) ->
  cleanup_workers s = Return tt (foldl unregister (tick s) (expired_ids s)).
Proof.
  intros Hs Hall. unfold cleanup_workers, bind, utcnow, gets.
  change (WorkerData.id <$> List.filter _ _) with (expired_ids s).
  destruct (expired_keys (utc s (utc_reads s)) (map_to_list (workers s)))
    as [Hnodup Hkeys].
  { apply NoDup_fst_map_to_list. }
  { intros [key worker] Hentry%elem_of_map_to_list. by destruct (Hs _ _ Hentry). }
  apply for_each_remove_expired_eq; [done| |].
  - intros item [[key worker] [-> Hentry]]%Hkeys%list_elem_of_fmap.
    apply elem_of_map_to_list in Hentry. by eexists.
  - intros item name service Hitem Hsvc.
    apply (expired_ids_spec s item (registry_ok_id s Hs)) in Hitem
      as (worker & Hworker & Hexp%is_expired_true).
    by eapply Hall.
Qed.

(** X19.  On a registry whose records carry their keys, as every broker
    that can exist has it, [cleanup_workers] returns exactly when the queue
    of every service holds every worker that has expired: one service that
    an expired worker is not queued for is enough to make the sweep raise,
    and nothing else does. *)
Theorem sweep_returns_iff_every_queue_holds_the_expired (s : t) :
  registry_ok s ->
  (exists s', cleanup_workers s = Return tt s')
  <-> (forall key worker name service,
         workers s !! key = Some worker ->
         (WorkerData.expires_at worker <= utc s (utc_reads s))%Z ->
         services s !! name = Some service ->
         key ∈ Service.workers service).
Proof.
  intros Hs. split.
  - intros [s' Hrun] key worker name service Hworker Hexp Hsvc.
    unfold cleanup_workers, bind, utcnow, gets in Hrun.
    eapply (for_each_remove_expired_returns _ _ _ Hrun); [|done].
    apply (expired_ids_spec s key (registry_ok_id s Hs)).
    exists worker. split; [done|]. by apply is_expired_true.
  - intros Hall. eexists. by apply cleanup_workers_eq.
Qed.

(** X20.  A sweep that returns takes away the expired workers and nothing
    else: the records that have not expired are in the registry as they
    were, the expired ones are gone, every queue of available workers has
    lost one occurrence of each expired identity, and the pending requests,
    the socket and the logger are untouched. *)
Theorem sweep_that_returns_removes_the_expired_only (s s' : t) :
  registry_ok s ->
  cleanup_workers s = Return tt s' ->
  (forall key,
     workers s' !! key
     = worker ← workers s !! key;
       if is_expired (utc s (utc_reads s)) worker then None else Some worker)
  /\ (forall name, services s' !! name = swept (expired_ids s) <$> services s !! name)
  /\ (forall name, pending_of s' name = pending_of s name)
  /\ socket s' = socket s /\ logger s' = logger s.
Proof.
  intros Hs Hrun.
  assert (s' = foldl unregister (tick s) (expired_ids s)) as ->.
  { rewrite cleanup_workers_eq in Hrun; [by injection Hrun|done|].
    intros key worker name service Hworker Hexp Hsvc.
    unfold cleanup_workers, bind, utcnow, gets in Hrun.
    eapply (for_each_remove_expired_returns _ _ _ Hrun); [|done].
    apply (expired_ids_spec s key (registry_ok_id s Hs)).
    exists worker. split; [done|]. by apply is_expired_true. }
  destruct (foldl_unregister (expired_ids s) (tick s))
    as (Hworkers & Hservices & Hsocket & Hlogger & _).
  split; [|split; [done|split; [|done]]].
  - intros key. rewrite Hworkers. cbn [workers tick].
    destruct (workers s !! key) as [worker|] eqn:Hworker; simpl.
    + destruct (is_expired _ worker) eqn:Hexp.
      * apply lookup_foldr_delete.
        apply (expired_ids_spec s key (registry_ok_id s Hs)). by exists worker.
      * rewrite lookup_foldr_delete_not_elem_of; [done|].
        intros (w & Hw & Hexp')%(expired_ids_spec s key (registry_ok_id s Hs)).
        congruence.
    + destruct (decide (key ∈ expired_ids s)).
      * by apply lookup_foldr_delete.
      * by rewrite lookup_foldr_delete_not_elem_of.
  - intros name. unfold pending_of. rewrite Hservices. cbn [services tick].
    destruct (services s !! name) as [service|]; [|done]. simpl.
    unfold swept. generalize (expired_ids s). intros l. revert service.
    induction l as [|item l IH]; intros service; [done|].
    cbn [foldl]. by rewrite IH.
Qed.

End returning_sweep.

(** *** Requests and workers from receipt to dispatch *)

Section exchange.

Context `{mdp : Mdp}.

Lemma none_expired_delete now k s s' :
  workers s' = delete k (workers s) -> none_expired now s -> none_expired now s'.
Proof.
  intros Hw Hs key worker. rewrite Hw. intros [_ Hworker]%lookup_delete_Some.
  by eapply Hs.
Qed.

Lemma none_expired_insert now k w s s' :
  workers s' = <[k := w]> (workers s) ->
  (now < WorkerData.expires_at w)%Z -> none_expired now s -> none_expired now s'.
Proof.
  intros Hw Hfresh Hs key worker. rewrite Hw.
  intros [[_ <-]|[_ Hworker]]%lookup_insert_Some; [done|by eapply Hs].
Qed.

Lemma none_expired_same now s s' :
  workers s' = workers s -> none_expired now s -> none_expired now s'.
Proof. intros Hw Hs key worker. rewrite Hw. apply Hs. Qed.

(** A request for a service without an available worker waits at the end
    of the pending queue. *)
Lemma handle_client_waits (s : t) (sender_id service_name received_body : bytes) :
  available_of s service_name = [] ->
  none_expired (utc s (utc_reads s)) s ->
  exists s',
    handle_client sender_id service_name received_body s = Return tt s'
    /\ socket s' = socket s
    /\ pending_of s' service_name
       = pending_of s service_name ++ [EventWorkerRequest.mk received_body sender_id]
    /\ available_of s' service_name = []
    /\ workers s' = workers s
    /\ utc s' = utc s /\ utc_reads s' = S (utc_reads s).
Proof.
  intros Havailable Hlive.
  unfold handle_client, setdefault_service, bind, gets, modify, ret.
  unfold pending_of, available_of in *.
  destruct (services s !! service_name) as [service|] eqn:Hsvc; simpl in Havailable.
  - eexists. split.
    { eapply dispatch_requests_idle.
      - cbn [services set_services]. rewrite lookup_insert_eq. by eexists.
      - by apply cleanup_workers_none_expired.
      - cbn [services set_services tick]. apply lookup_insert_eq.
      - by right. }
    cbn [socket services workers utc utc_reads set_services tick].
    rewrite lookup_insert_eq. by repeat split.
  - eexists. split.
    { eapply dispatch_requests_idle.
      - cbn [services set_services]. rewrite lookup_insert_eq. by eexists.
      - by apply cleanup_workers_none_expired.
      - cbn [services set_services tick]. apply lookup_insert_eq.
      - by right. }
    cbn [socket services workers utc utc_reads set_services tick].
    rewrite lookup_insert_eq. by repeat split.
Qed.

(** A request for a service with an empty pending queue goes to the worker
    at the head of the queue. *)
Lemma handle_client_sends (s : t) (sender_id service_name received_body key : bytes)
    (available : list bytes) (worker : WorkerData.t) :
  pending_of s service_name = [] ->
  available_of s service_name = key :: available ->
  workers s !! key = Some worker ->
  WorkerData.type worker = worker_type.zmq ->
  none_expired (utc s (utc_reads s)) s ->
  exists s',
    handle_client sender_id service_name received_body s = Return tt s'
    /\ socket s'
       = socket s ++ [request_to (EventWorkerRequest.mk received_body sender_id) worker]
    /\ pending_of s' service_name = []
    /\ available_of s' service_name = available
    /\ workers s' = delete key (workers s)
    /\ utc s' = utc s /\ utc_reads s' = S (utc_reads s).
Proof.
  intros Hpending Havailable Hworker Hty Hlive.
  unfold pending_of, available_of in *.
  destruct (services s !! service_name) as [service|] eqn:Hsvc; [|done].
  simpl in Hpending, Havailable.
  eexists. split.
  { unfold handle_client, setdefault_service, bind, gets, modify, ret.
    rewrite Hsvc, Hpending. cbn [app].
    unfold dispatch_requests, bind, gets. cbn [services set_services].
    rewrite lookup_insert_eq.
    rewrite cleanup_workers_none_expired by done.
    cbn [services set_services tick]. rewrite lookup_insert_eq.
    cbn [Service.pending_requests Service.set_pending_requests length].
    erewrite dispatch_loop_step;
      [|by apply lookup_insert_eq|done|by rewrite <- Havailable|done..].
    eapply dispatch_loop_idle; [apply lookup_insert_eq|by left]. }
  cbn [socket services workers utc utc_reads set_services set_workers tick send_multipart].
  rewrite lookup_insert_eq. by repeat split.
Qed.

(** A READY for a service with no pending request waits at the end of the
    queue of available workers. *)
Lemma on_event_ready_waits (s : t) (worker_id service_name : bytes) (rest : list bytes) :
  let now := utc s (utc_reads s) in
  let now' := utc s (S (utc_reads s)) in
  pending_of s service_name = [] ->
  none_expired now' s ->
  (now' < now + const.ttl C)%Z ->
  exists s',
    on_event_ready worker_id (service_name :: rest) s = Return tt s'
    /\ socket s' = socket s
    /\ pending_of s' service_name = []
    /\ available_of s' service_name
       = available_of s service_name ++ [wrap_worker_id worker_type.zmq worker_id]
    /\ workers s'
       = <[wrap_worker_id worker_type.zmq worker_id :=
             ready_record worker_id service_name now]> (workers s)
    /\ utc s' = utc s /\ utc_reads s' = S (S (utc_reads s)).
Proof.
  intros now now' Hpending Hlive Hfresh.
  eexists. split; [by apply on_event_ready_idle|].
  unfold pending_of, available_of.
  change (services (tick ?x)) with (services x).
  rewrite registered_service. simpl. by repeat split.
Qed.

(** A READY for a service with a pending request and no available worker
    takes the first pending request. *)
Lemma on_event_ready_sends (s : t) (worker_id service_name : bytes) (rest : list bytes)
    (req : EventWorkerRequest.t) (pending : list EventWorkerRequest.t) :
  let now := utc s (utc_reads s) in
  let now' := utc s (S (utc_reads s)) in
  pending_of s service_name = req :: pending ->
  available_of s service_name = [] ->
  none_expired now' s ->
  (now' < now + const.ttl C)%Z ->
  exists s',
    on_event_ready worker_id (service_name :: rest) s = Return tt s'
    /\ socket s'
       = socket s ++ [request_to req (ready_record worker_id service_name now)]
    /\ pending_of s' service_name = pending
    /\ available_of s' service_name = []
    /\ workers s' = delete (wrap_worker_id worker_type.zmq worker_id) (workers s)
    /\ utc s' = utc s /\ utc_reads s' = S (S (utc_reads s)).
Proof.
  intros now now' Hpending Havailable Hlive Hfresh.
  set (wd := ready_record worker_id service_name now).
  pose proof (registered_service s worker_id service_name) as Hsvc.
  rewrite Hpending, Havailable in Hsvc. cbn [app] in Hsvc.
  eexists. split.
  { rewrite on_event_ready_eq. unfold dispatch_requests, bind, gets.
    rewrite Hsvc, registered_none_expired by done.
    change (services (tick ?x)) with (services x). rewrite Hsvc.
    cbn [Service.pending_requests length].
    erewrite dispatch_loop_step with (worker := wd);
      [|exact Hsvc|reflexivity|reflexivity| |reflexivity].
    - eapply dispatch_loop_idle; [apply lookup_insert_eq|by right].
    - cbn [workers registered tick log set_services set_workers].
      apply lookup_insert_eq. }
  cbn [socket services workers utc utc_reads registered tick log set_services
       set_workers send_multipart].
  unfold pending_of, available_of. cbn [services set_services set_workers send_multipart].
  rewrite lookup_insert_eq. repeat split.
  change (WorkerData.id (ready_record worker_id service_name (utc s (utc_reads s))))
    with (wrap_worker_id worker_type.zmq worker_id).
  apply delete_insert_eq.
Qed.

(** C8, as amended.  Starting from a broker with no worker available for
    a service, a client request for that service is appended to the pending
    queue and nothing is sent; the READY of a worker for that service,
    handled next, sends the oldest pending request to that worker at once.
    When no older request was pending that is the queued request itself, and
    the pending queue is left empty.  No worker, the new one included, has
    expired when the two calls sweep. *)
Theorem queued_request_goes_to_the_next_ready_worker
    (s : t) (sender_id service_name received_body worker_id : bytes)
    (rest : list bytes) :
  let r := utc_reads s in
  let req := EventWorkerRequest.mk received_body sender_id in
  let now := utc s (S r) in
  let wd := ready_record worker_id service_name now in
  available_of s service_name = [] ->
  none_expired (utc s r) s ->
  none_expired (utc s (S (S r))) s ->
  (utc s (S (S r)) < now + const.ttl C)%Z ->
  exists s1 s2 oldest waiting,
    handle_client sender_id service_name received_body s = Return tt s1
    /\ socket s1 = socket s /\ workers s1 = workers s
    /\ pending_of s1 service_name = pending_of s service_name ++ [req]
    /\ available_of s1 service_name = []
    /\ pending_of s service_name ++ [req] = oldest :: waiting
    /\ on_event_ready worker_id (service_name :: rest) s1 = Return tt s2
    /\ socket s2 = socket s ++ [request_to oldest wd]
    /\ pending_of s2 service_name = waiting
    /\ available_of s2 service_name = []
    /\ (pending_of s service_name = [] -> oldest = req /\ waiting = []).
Proof.
  intros r req now wd Havailable Hlive Hlive2 Hfresh. subst r now wd.
  destruct (handle_client_waits s sender_id service_name received_body Havailable Hlive)
    as (s1 & Hrun1 & Hsock1 & Hpend1 & Havail1 & Hw1 & Hutc1 & Hreads1).
  assert (exists oldest waiting, pending_of s service_name ++ [req] = oldest :: waiting)
    as (oldest & waiting & Hqueue).
  { destruct (pending_of s service_name) as [|x l]; simpl; by eauto. }
  subst req. rewrite Hqueue in Hpend1.
  destruct (on_event_ready_sends s1 worker_id service_name rest oldest waiting
              Hpend1 Havail1)
    as (s2 & Hrun2 & Hsock2 & Hpend2 & Havail2 & Hw2 & Hutc2 & Hreads2).
  { rewrite Hutc1, Hreads1. by apply (none_expired_same _ s). }
  { by rewrite Hutc1, Hreads1. }
  exists s1, s2, oldest, waiting.
  split; [done|]. split; [done|]. split; [done|]. split; [by rewrite Hqueue|].
  split; [done|]. split; [done|]. split; [done|].
  split; [by rewrite Hsock2, Hsock1, Hutc1, Hreads1|].
  split; [done|]. split; [done|].
  intros Hempty. rewrite Hempty in Hqueue. by injection Hqueue as <- <-.
Qed.

(** X22.  The two queues of a service are first in, first out, from the
    receipt of a message to the dispatch.  For a service whose
    queues are empty, and as long as no worker expires: two requests R1 then
    R2 wait in this order, and two workers that become ready after them take
    R1, then R2; two different workers that become ready first wait in their
    order of registration, and R1 goes to the first, R2 to the second.  In
    both cases nothing else is sent and the queues are empty again. *)
Theorem requests_and_workers_are_paired_in_order
    (s : t) (service_name client1 body1 client2 body2 worker1 worker2 : bytes) :
  let r := utc_reads s in
  let R1 := EventWorkerRequest.mk body1 client1 in
  let R2 := EventWorkerRequest.mk body2 client2 in
  let key1 := wrap_worker_id worker_type.zmq worker1 in
  let key2 := wrap_worker_id worker_type.zmq worker2 in
  pending_of s service_name = [] ->
  available_of s service_name = [] ->
  no_expiry_during 6 s ->
  (exists s2 s4,
     (handle_client client1 service_name body1 ;;
      handle_client client2 service_name body2) s = Return tt s2
     /\ socket s2 = socket s
     /\ pending_of s2 service_name = [R1; R2]
     /\ (on_event_ready worker1 [service_name] ;;
         on_event_ready worker2 [service_name]) s2 = Return tt s4
     /\ socket s4
        = socket s
          ++ [request_to R1 (ready_record worker1 service_name (utc s (r + 2)));
              request_to R2 (ready_record worker2 service_name (utc s (r + 4)))]
     /\ pending_of s4 service_name = [] /\ available_of s4 service_name = [])
  /\ (key1 <> key2 ->
      exists s2 s4,
        (on_event_ready worker1 [service_name] ;;
         on_event_ready worker2 [service_name]) s = Return tt s2
        /\ socket s2 = socket s
        /\ available_of s2 service_name = [key1; key2]
        /\ (handle_client client1 service_name body1 ;;
            handle_client client2 service_name body2) s2 = Return tt s4
        /\ socket s4
           = socket s
             ++ [request_to R1 (ready_record worker1 service_name (utc s r));
                 request_to R2 (ready_record worker2 service_name (utc s (r + 2)))]
        /\ pending_of s4 service_name = [] /\ available_of s4 service_name = []).
Proof.
  intros r R1 R2 key1 key2 Hpending Havailable [Hold Hnew]. subst r.
  assert (forall i, i < 6 -> none_expired (utc s (utc_reads s + i)) s) as Hold' by exact Hold.
  assert (forall i j, i <= j -> j < 6 ->
            (utc s (utc_reads s + j) < utc s (utc_reads s + i) + const.ttl C)%Z) as Hnew' by exact Hnew.
  clear Hold Hnew.
  assert (utc_reads s + 0 = utc_reads s) as Hr0 by lia.
  split.
  - (* the requests first *)
    destruct (handle_client_waits s client1 service_name body1 Havailable)
      as (s1 & Hrun1 & Hsock1 & Hpend1 & Havail1 & Hw1 & Hutc1 & Hreads1).
    { rewrite <- Hr0. apply Hold'. lia. }
    destruct (handle_client_waits s1 client2 service_name body2 Havail1)
      as (s2 & Hrun2 & Hsock2 & Hpend2 & Havail2 & Hw2 & Hutc2 & Hreads2).
    { rewrite Hutc1, Hreads1. apply (none_expired_same _ s); [done|].
      replace (S (utc_reads s)) with (utc_reads s + 1) by lia. apply Hold'. lia. }
    rewrite Hpend1, Hpending in Hpend2. cbn [app] in Hpend2.
    destruct (on_event_ready_sends s2 worker1 service_name [] R1 [R2] Hpend2 Havail2)
      as (s3 & Hrun3 & Hsock3 & Hpend3 & Havail3 & Hw3 & Hutc3 & Hreads3).
    { rewrite Hutc2, Hutc1, Hreads2, Hreads1.
      apply (none_expired_same _ s); [by rewrite Hw2|].
      replace (S (S (S (utc_reads s)))) with (utc_reads s + 3) by lia.
      apply Hold'. lia. }
    { rewrite Hutc2, Hutc1, Hreads2, Hreads1.
      replace (S (S (S (utc_reads s)))) with (utc_reads s + 3) by lia.
      replace (S (S (utc_reads s))) with (utc_reads s + 2) by lia.
      apply Hnew'; lia. }
    destruct (on_event_ready_sends s3 worker2 service_name [] R2 [] Hpend3 Havail3)
      as (s4 & Hrun4 & Hsock4 & Hpend4 & Havail4 & Hw4 & Hutc4 & Hreads4).
    { rewrite Hutc3, Hutc2, Hutc1, Hreads3, Hreads2, Hreads1.
      apply (none_expired_delete _ key1 s2); [done|].
      apply (none_expired_same _ s); [by rewrite Hw2|].
      replace (S (S (S (S (S (utc_reads s)))))) with (utc_reads s + 5) by lia.
      apply Hold'. lia. }
    { rewrite Hutc3, Hutc2, Hutc1, Hreads3, Hreads2, Hreads1.
      replace (S (S (S (S (S (utc_reads s)))))) with (utc_reads s + 5) by lia.
      replace (S (S (S (S (utc_reads s))))) with (utc_reads s + 4) by lia.
      apply Hnew'; lia. }
    exists s2, s4. split; [unfold bind; by rewrite Hrun1|].
    split; [by rewrite Hsock2|]. split; [done|].
    split; [unfold bind; by rewrite Hrun3|].
    split; [|done].
    rewrite Hsock4, Hsock3, Hsock2, Hsock1, <- app_assoc.
    rewrite Hutc3, !Hutc2, !Hutc1, Hreads3, !Hreads2, !Hreads1.
    replace (S (S (S (S (utc_reads s))))) with (utc_reads s + 4) by lia.
    replace (S (S (utc_reads s))) with (utc_reads s + 2) by lia.
    reflexivity.
  - (* the workers first *)
    intros Hkeys.
    destruct (on_event_ready_waits s worker1 service_name [] Hpending)
      as (s1 & Hrun1 & Hsock1 & Hpend1 & Havail1 & Hw1 & Hutc1 & Hreads1).
    { replace (S (utc_reads s)) with (utc_reads s + 1) by lia. apply Hold'. lia. }
    { replace (S (utc_reads s)) with (utc_reads s + 1) by lia.
      rewrite <- Hr0 at 2. apply Hnew'; lia. }
    destruct (on_event_ready_waits s1 worker2 service_name [] Hpend1)
      as (s2 & Hrun2 & Hsock2 & Hpend2 & Havail2 & Hw2 & Hutc2 & Hreads2).
    { rewrite Hutc1, Hreads1.
      replace (S (S (S (utc_reads s)))) with (utc_reads s + 3) by lia.
      eapply none_expired_insert; [exact Hw1| |apply Hold'; lia].
      simpl. rewrite <- Hr0 at 2. apply Hnew'; lia. }
    { rewrite Hutc1, Hreads1.
      replace (S (S (S (utc_reads s)))) with (utc_reads s + 3) by lia.
      replace (S (S (utc_reads s))) with (utc_reads s + 2) by lia.
      apply Hnew'; lia. }
    rewrite Havail1, Havailable in Havail2. cbn [app] in Havail2.
    fold key1 in Havail2, Hw1. fold key2 in Havail2, Hw2.
    rewrite Hutc1, Hreads1 in Hw2.
    replace (S (S (utc_reads s))) with (utc_reads s + 2) in Hw2 by lia.
    set (W1 := ready_record worker1 service_name (utc s (utc_reads s))) in *.
    set (W2 := ready_record worker2 service_name (utc s (utc_reads s + 2))) in *.
    assert (none_expired (utc s (utc_reads s + 4)) s2 /\ none_expired (utc s (utc_reads s + 5)) s2)
      as [Hlive4 Hlive5].
    { split.
      - eapply none_expired_insert; [exact Hw2| |].
        + simpl. apply Hnew'; lia.
        + eapply none_expired_insert; [exact Hw1| |apply Hold'; lia].
          simpl. rewrite <- Hr0 at 2. apply Hnew'; lia.
      - eapply none_expired_insert; [exact Hw2| |].
        + simpl. apply Hnew'; lia.
        + eapply none_expired_insert; [exact Hw1| |apply Hold'; lia].
          simpl. rewrite <- Hr0 at 2. apply Hnew'; lia. }
    assert (utc s2 = utc s /\ utc_reads s2 = utc_reads s + 4) as [Hutc2' Hreads2'].
    { split; [by rewrite Hutc2|]. rewrite Hreads2, Hreads1. lia. }
    destruct (handle_client_sends s2 client1 service_name body1 key1 [key2] W1
                Hpend2 Havail2)
      as (s3 & Hrun3 & Hsock3 & Hpend3 & Havail3 & Hw3 & Hutc3 & Hreads3).
    { rewrite Hw2, lookup_insert_ne by done. rewrite Hw1. apply lookup_insert_eq. }
    { reflexivity. }
    { by rewrite Hutc2', Hreads2'. }
    destruct (handle_client_sends s3 client2 service_name body2 key2 [] W2
                Hpend3 Havail3)
      as (s4 & Hrun4 & Hsock4 & Hpend4 & Havail4 & Hw4 & Hutc4 & Hreads4).
    { rewrite Hw3, lookup_delete_ne by done. rewrite Hw2. apply lookup_insert_eq. }
    { reflexivity. }
    { rewrite Hutc3, Hutc2', Hreads3, Hreads2'.
      replace (S (utc_reads s + 4)) with (utc_reads s + 5) by lia.
      by apply (none_expired_delete _ key1 s2). }
    exists s2, s4. split; [unfold bind; by rewrite Hrun1|].
    split; [by rewrite Hsock2|]. split; [done|].
    split; [unfold bind; by rewrite Hrun3|].
    split; [|done].
    rewrite Hsock4, Hsock3, Hsock2, Hsock1, <- app_assoc. reflexivity.
Qed.

(** A request for a service whose queue starts with an identity that is
    not registered: both heads are popped, and the request is gone. *)
Lemma handle_client_stale (s : t) (sender_id service_name received_body stale : bytes)
    (available : list bytes) :
  pending_of s service_name = [] ->
  available_of s service_name = stale :: available ->
  workers s !! stale = None ->
  none_expired (utc s (utc_reads s)) s ->
  exists s',
    handle_client sender_id service_name received_body s = Raise (KeyError stale) s'
    /\ socket s' = socket s
    /\ pending_of s' service_name = []
    /\ available_of s' service_name = available
    /\ workers s' = workers s
    /\ utc s' = utc s /\ utc_reads s' = S (utc_reads s).
Proof.
  intros Hpending Havailable Hstale Hlive.
  unfold pending_of, available_of in *.
  destruct (services s !! service_name) as [service|] eqn:Hsvc; [|done].
  simpl in Hpending, Havailable.
  eexists. split.
  { unfold handle_client, setdefault_service, bind, gets, modify, ret.
    rewrite Hsvc, Hpending. cbn [app].
    unfold dispatch_requests, bind, gets. cbn [services set_services].
    rewrite lookup_insert_eq.
    rewrite cleanup_workers_none_expired by done.
    cbn [services set_services tick]. rewrite lookup_insert_eq.
    cbn [Service.pending_requests Service.set_pending_requests length dispatch_loop
         services set_services tick].
    rewrite lookup_insert_eq.
    cbn [Service.pending_requests Service.workers Service.set_pending_requests].
    rewrite Havailable. cbv zeta.
    cbn [workers set_services set_workers tick]. rewrite Hstale. reflexivity. }
  cbn [socket services workers utc utc_reads set_services set_workers tick].
  rewrite lookup_insert_eq. by repeat split.
Qed.

(** C1, where the code departs from it.  [dispatch_requests] takes the
    head of both queues before it asks the registry for the worker, and the
    queue of available workers can hold an identity that is no longer
    registered.  With such an identity before a registered worker, a
    request R2 is not given to that worker: the call raises [KeyError], R2
    has left the pending queue and is never sent; the request R3 that comes
    next is given to the worker that was waiting when R2 came.  So requests
    are not delivered in receipt order to the workers in registration
    order. *)
Theorem stale_identity_breaks_fifo
    (s : t) (service_name client2 body2 client3 body3 stale key : bytes)
    (available : list bytes) (worker : WorkerData.t) :
  let r := utc_reads s in
  pending_of s service_name = [] ->
  available_of s service_name = stale :: key :: available ->
  workers s !! stale = None ->
  workers s !! key = Some worker ->
  WorkerData.type worker = worker_type.zmq ->
  none_expired (utc s r) s ->
  none_expired (utc s (S r)) s ->
  exists s1 s2,
    handle_client client2 service_name body2 s = Raise (KeyError stale) s1
    /\ socket s1 = socket s
    /\ pending_of s1 service_name = []
    /\ available_of s1 service_name = key :: available
    /\ handle_client client3 service_name body3 s1 = Return tt s2
    /\ socket s2
       = socket s ++ [request_to (EventWorkerRequest.mk body3 client3) worker]
    /\ pending_of s2 service_name = []
    /\ available_of s2 service_name = available.
Proof.
  intros r Hpending Havailable Hstale Hworker Hty Hlive Hlive'. subst r.
  destruct (handle_client_stale s client2 service_name body2 stale (key :: available)
              Hpending Havailable Hstale Hlive)
    as (s1 & Hrun1 & Hsock1 & Hpend1 & Havail1 & Hw1 & Hutc1 & Hreads1).
  destruct (handle_client_sends s1 client3 service_name body3 key available worker
              Hpend1 Havail1)
    as (s2 & Hrun2 & Hsock2 & Hpend2 & Havail2 & _).
  { by rewrite Hw1. }
  { done. }
  { rewrite Hutc1, Hreads1. by apply (none_expired_same _ s). }
  exists s1, s2. repeat split; try done. by rewrite Hsock2, Hsock1.
Qed.

End exchange.

(** *** More examples *)

Lemma one_worker_broker_workers : workers one_worker_broker = {["zmq.w1" := W1]}.
Proof. reflexivity. Qed.

Lemma one_worker_broker_services :
  services one_worker_broker = {["echo" := Service.mk "echo" [] ["zmq.w1"]]}.
Proof. reflexivity. Qed.

Lemma example_commands_NoDup : NoDup (commands (mdp := example_mdp)).
Proof.
  unfold commands. simpl.
  repeat (apply NoDup_cons; split;
          [rewrite ?elem_of_cons, elem_of_nil; intros H;
           repeat (destruct H as [H|H]; [discriminate|]); done|]).
  apply NoDup_nil_2.
Qed.

Lemma one_worker_broker_live now :
  (now < 6)%Z -> none_expired now one_worker_broker.
Proof.
  intros Hnow key worker. rewrite one_worker_broker_workers.
  intros [<- <-]%lookup_singleton_Some. exact Hnow.
Qed.

Lemma example_broker_live now : none_expired now example_broker.
Proof. intros key worker H. unfold example_broker, init in H. simpl in H.
  by rewrite lookup_empty in H. Qed.

(** The DISCONNECT of w9, which never registered, on the broker that knows w1. *)
Lemma disconnect_of_unknown_worker_changes_nothing_witness :
  on_event_disconnect (mdp := example_mdp) "w9" [] one_worker_broker
  = Return tt one_worker_broker.
Proof.
  apply (disconnect_of_unknown_worker_changes_nothing (mdp := example_mdp)
           one_worker_broker "w9" []).
  - reflexivity.
  - intros service_name (service & Hsvc & Hin).
    rewrite one_worker_broker_services in Hsvc.
    apply lookup_singleton_Some in Hsvc as [_ <-]. simpl in Hin.
    apply list_elem_of_singleton in Hin. discriminate.
Defined.

(** The DISCONNECT of w1 on the broker that knows w1. *)
Lemma disconnect_leaves_no_reference_witness :
  exists s',
    on_event_disconnect (mdp := example_mdp) "w1" [] one_worker_broker = Return tt s'
    /\ workers s' !! "zmq.w1" = None
    /\ (forall service_name, ~ in_queue s' service_name "zmq.w1").
Proof.
  apply (disconnect_leaves_no_reference (mdp := example_mdp) one_worker_broker "w1" []).
  intros service_name service Hsvc.
  rewrite one_worker_broker_services in Hsvc.
  apply lookup_singleton_Some in Hsvc as [_ <-]. simpl. apply NoDup_singleton.
Defined.

Lemma two_workers_broker_running : keep_running two_workers_broker = true.
Proof. reflexivity. Qed.

Lemma two_workers_broker_sweep :
  cleanup_workers two_workers_broker = Return tt (tick two_workers_broker).
Proof. reflexivity. Qed.

(** An interrupt at the first poll of the broker that knows w2 and w1. *)
Lemma interrupt_sends_a_disconnect_to_every_worker_witness :
  exists s' sent,
    main_loop (mdp := example_mdp) [KeyboardInterrupt; items None] two_workers_broker
    = Return tt s'
    /\ send_disconnect_to_all (mdp := example_mdp) two_workers_broker = Return tt s'
    /\ socket s' = socket two_workers_broker ++ sent
    /\ sent ≡ₚ [EventBrokerDisconnect_serialize "w2"; EventBrokerDisconnect_serialize "w1"]
    /\ workers s' = workers two_workers_broker
    /\ services s' = services two_workers_broker
    /\ keep_running s' = true.
Proof.
  pose proof (interrupt_sends_a_disconnect_to_every_worker (mdp := example_mdp)
                two_workers_broker (tick two_workers_broker) [items None]
                two_workers_broker_running two_workers_broker_sweep) as H.
  destruct H
    as (s' & sent & Hloop & Hall & Hsocket & Hsent & Hworkers & Hservices & Hrunning).
  exists s', sent.
  split; [exact Hloop|]. split; [exact Hall|]. split; [exact Hsocket|].
  split; [|split; [exact Hworkers|split; [exact Hservices|exact Hrunning]]].
  vm_compute in Hsent. etrans; [exact Hsent|]. apply perm_swap.
Defined.

(** A round of heartbeats on the same broker. *)
Lemma send_heartbeats_stamps_the_due_workers_witness :
  exists s1 sent,
    cleanup_workers (tick two_workers_broker) = Return tt s1
    /\ workers (final (send_heartbeats (mdp := example_mdp) two_workers_broker))
       = stamped two_workers_broker 4 <$> workers s1
    /\ socket (final (send_heartbeats (mdp := example_mdp) two_workers_broker))
       = socket two_workers_broker ++ sent
    /\ sent ≡ₚ heartbeat_to (mdp := example_mdp)
                 <$> List.filter
                       (fun entry => heartbeat_due two_workers_broker 4 entry.2)
                       (map_to_list (workers s1))
    /\ services (final (send_heartbeats (mdp := example_mdp) two_workers_broker))
       = services s1
    /\ logger (final (send_heartbeats (mdp := example_mdp) two_workers_broker))
       = logger two_workers_broker.
Proof.
  apply (send_heartbeats_stamps_the_due_workers (mdp := example_mdp)
           two_workers_broker
           (final (send_heartbeats (mdp := example_mdp) two_workers_broker))).
  reflexivity.
Defined.

(** That round, computed: both workers were due, and each is sent one
    heartbeat and stamped with the fourth second. *)
Lemma heartbeats_of_two_workers :
  raised (send_heartbeats (mdp := example_mdp) two_workers_broker) = None
  /\ socket (final (send_heartbeats (mdp := example_mdp) two_workers_broker))
     ≡ₚ [EventBrokerHeartbeat_serialize "w2"; EventBrokerHeartbeat_serialize "w1"]
  /\ WorkerData.last_hb_sent
       <$> workers (final (send_heartbeats (mdp := example_mdp) two_workers_broker))
     = {["zmq.w1" := Some 4%Z; "zmq.w2" := Some 4%Z]}.
Proof.
  split; [reflexivity|]. split; [apply perm_swap|reflexivity].
Qed.

(** The record of w1 after that round. *)
Lemma no_worker_is_due_after_send_heartbeats_witness :
  is_Some (WorkerData.last_hb_sent (WorkerData.set_last_hb_sent (Some 2%Z) W1))
  /\ ((0 < heartbeat one_worker_broker)%Z ->
      heartbeat_due (final (send_heartbeats (mdp := example_mdp) one_worker_broker)) 2
        (WorkerData.set_last_hb_sent (Some 2%Z) W1) = false).
Proof.
  apply (no_worker_is_due_after_send_heartbeats (mdp := example_mdp)
           one_worker_broker
           (final (send_heartbeats (mdp := example_mdp) one_worker_broker))
           eq_refl "zmq.w1" (WorkerData.set_last_hb_sent (Some 2%Z) W1)).
  reflexivity.
Defined.

(** The four commands of the Majordomo 0.1 protocol. *)
Lemma handle_worker_calls_the_handler_of_the_command_witness :
  handle_worker (mdp := example_mdp) "w1"
    (const.ready (C (Mdp := example_mdp)) :: ["c1"; ""; "hi"]) one_worker_broker
  = on_event_ready (mdp := example_mdp) "w1" ["c1"; ""; "hi"] one_worker_broker
  /\ handle_worker (mdp := example_mdp) "w1"
       (const.reply_from_worker (C (Mdp := example_mdp)) :: ["c1"; ""; "hi"])
       one_worker_broker
     = on_event_reply "w1" ["c1"; ""; "hi"] one_worker_broker
  /\ handle_worker (mdp := example_mdp) "w1"
       (const.heartbeat (C (Mdp := example_mdp)) :: ["c1"; ""; "hi"]) one_worker_broker
     = on_event_heartbeat (mdp := example_mdp) "w1" ["c1"; ""; "hi"] one_worker_broker
  /\ handle_worker (mdp := example_mdp) "w1"
       (const.disconnect (C (Mdp := example_mdp)) :: ["c1"; ""; "hi"]) one_worker_broker
     = on_event_disconnect (mdp := example_mdp) "w1" ["c1"; ""; "hi"] one_worker_broker.
Proof.
  apply (handle_worker_calls_the_handler_of_the_command (mdp := example_mdp)
           one_worker_broker "w1" ["c1"; ""; "hi"]).
  apply example_commands_NoDup.
Defined.

(** Malformed messages on the broker that knows w1. *)
Lemma malformed_message_raises_and_changes_nothing_witness :
  (forall msg, length msg < 3 ->
     handle (mdp := example_mdp) msg one_worker_broker = Raise IndexError one_worker_broker)
  /\ (forall sender_id delimiter payload,
        length payload <> 2 ->
        handle (mdp := example_mdp)
          (sender_id :: delimiter :: const.client (C (Mdp := example_mdp)) :: payload)
          one_worker_broker
        = Raise (TypeError "handle_client") one_worker_broker)
  /\ (forall sender_id delimiter originator,
        originator <> const.client (C (Mdp := example_mdp)) ->
        handle (mdp := example_mdp) [sender_id; delimiter; originator] one_worker_broker
        = Raise IndexError one_worker_broker
        /\ handle (mdp := example_mdp)
             [sender_id; delimiter; originator; const.ready (C (Mdp := example_mdp))]
             one_worker_broker
           = Raise IndexError one_worker_broker)
  /\ (forall sender_id delimiter originator data,
        originator <> const.client (C (Mdp := example_mdp)) -> length data <> 3 ->
        handle (mdp := example_mdp)
          (sender_id :: delimiter :: originator
             :: const.reply_from_worker (C (Mdp := example_mdp)) :: data)
          one_worker_broker
        = Raise (ValueError "unpack") one_worker_broker).
Proof.
  apply (malformed_message_raises_and_changes_nothing (mdp := example_mdp)
           one_worker_broker).
  apply example_commands_NoDup.
Defined.

(** A dispatch for echo on the broker where w1 waits and no request came. *)
Lemma dispatch_with_an_empty_queue_only_sweeps_witness :
  dispatch_requests (mdp := example_mdp) "echo" one_worker_broker
  = Return tt (tick one_worker_broker).
Proof.
  apply (dispatch_with_an_empty_queue_only_sweeps (mdp := example_mdp)
           one_worker_broker (tick one_worker_broker) "echo"
           (Service.mk "echo" [] ["zmq.w1"])).
  - by eexists.
  - reflexivity.
  - reflexivity.
  - by left.
Defined.

(** A dispatch for echo where the head of the queue is not registered. *)
Lemma dispatch_loses_the_request_of_a_stale_identity_witness :
  exists s',
    dispatch_requests (mdp := example_mdp) "echo" stale_broker
    = Raise (KeyError "zmq.w1") s'
    /\ services s' !! "echo" = Some (Service.mk "echo" [] [])
    /\ socket s' = socket stale_broker
    /\ workers s' = workers (tick stale_broker).
Proof.
  apply (dispatch_loses_the_request_of_a_stale_identity (mdp := example_mdp)
           stale_broker (tick stale_broker) "echo" "zmq.w1"
           (Service.mk "echo" [R1] ["zmq.w1"]) R1 [] []).
  - by eexists.
  - reflexivity.
  - reflexivity.
  - reflexivity.
  - reflexivity.
  - reflexivity.
Defined.

(** The request hi of c1 on the broker where w1 waits for echo. *)
Lemma request_goes_to_the_first_available_worker_witness :
  exists s',
    handle_client (mdp := example_mdp) "c1" "echo" "hi" one_worker_broker = Return tt s'
    /\ socket s'
       = socket one_worker_broker
         ++ [request_to (mdp := example_mdp) (EventWorkerRequest.mk "hi" "c1") W1]
    /\ services s' !! "echo" = Some (Service.mk "echo" [] [])
    /\ workers s' = delete "zmq.w1" (workers one_worker_broker).
Proof.
  apply (request_goes_to_the_first_available_worker (mdp := example_mdp)
           one_worker_broker "c1" "echo" "hi" "zmq.w1"
           (Service.mk "echo" [] ["zmq.w1"]) [] W1).
  - reflexivity.
  - reflexivity.
  - reflexivity.
  - reflexivity.
  - reflexivity.
  - apply one_worker_broker_live. vm_compute. reflexivity.
Defined.

(** The READY of w1 for echo on a new broker. *)
Lemma ready_with_no_pending_request_waits_witness :
  exists s',
    on_event_ready (mdp := example_mdp) "w1" ["echo"] example_broker = Return tt s'
    /\ socket s' = socket example_broker
    /\ workers s' = <["zmq.w1" := W1]> (workers example_broker)
    /\ services s'
       = <["echo" := Service.mk "echo" [] ["zmq.w1"]]> (services example_broker)
    /\ logger s' = logger example_broker ++ [info_added_worker W1]
    /\ utc_reads s' = 2.
Proof.
  apply (ready_with_no_pending_request_waits (mdp := example_mdp)
           example_broker "w1" "echo" []).
  - reflexivity.
  - apply example_broker_live.
  - vm_compute. reflexivity.
Defined.

(** The READY of w1 for echo where the request hi waits, then its HEARTBEAT. *)
Lemma heartbeat_of_a_busy_worker_is_not_recognised_witness :
  exists s1,
    on_event_ready (mdp := example_mdp) "w1" ["echo"] one_request_broker = Return tt s1
    /\ socket s1
       = socket one_request_broker
         ++ [request_to (mdp := example_mdp) (EventWorkerRequest.mk "hi" "c1")
               (ready_record (mdp := example_mdp) "w1" "echo" 1)]
    /\ pending_of s1 "echo" = []
    /\ available_of s1 "echo" = []
    /\ workers s1 = delete "zmq.w1" (workers one_request_broker)
    /\ on_event_heartbeat (mdp := example_mdp) "w1" [] s1
       = Return tt (log (warn_no_worker_for_hb "zmq.w1") s1).
Proof.
  apply (heartbeat_of_a_busy_worker_is_not_recognised (mdp := example_mdp)
           one_request_broker "w1" "echo" [] [] (EventWorkerRequest.mk "hi" "c1") []).
  - reflexivity.
  - reflexivity.
  - intros key worker H. vm_compute in H. discriminate.
  - vm_compute. reflexivity.
Defined.

(** The READY of w1 for echo on a new broker, then its DISCONNECT. *)
Lemma disconnect_undoes_ready_witness :
  exists s1 s2,
    on_event_ready (mdp := example_mdp) "w1" ["echo"] example_broker = Return tt s1
    /\ on_event_disconnect (mdp := example_mdp) "w1" [] s1 = Return tt s2
    /\ workers s2 = workers example_broker
    /\ services s2 = <["echo" := Service.init "echo"]> (services example_broker)
    /\ socket s2 = socket example_broker.
Proof.
  apply (disconnect_undoes_ready (mdp := example_mdp) example_broker "w1" "echo" [] []).
  - reflexivity.
  - apply example_broker_live.
  - vm_compute. reflexivity.
  - reflexivity.
  - intros name service H. unfold example_broker, init in H. simpl in H.
    by rewrite lookup_empty in H.
Defined.

(** The record of w1 on the broker that knows it. *)
Lemma every_record_is_stored_under_its_identity_witness :
  WorkerData.id W1 = "zmq.w1"
  /\ WorkerData.type W1 = worker_type.zmq
  /\ (exists raw_id,
        "zmq.w1" = wrap_worker_id (Mdp := example_mdp) worker_type.zmq raw_id)
  /\ WorkerData.expires_at W1
     = (WorkerData.last_hb_received W1 + const.ttl (C (Mdp := example_mdp)))%Z.
Proof.
  apply (every_record_is_stored_under_its_identity (mdp := example_mdp)
           one_worker_broker "zmq.w1" W1).
  - apply reachable_after. constructor.
  - reflexivity.
Defined.

(** The sweep at the seventh second with two services. *)
Lemma sweep_raises_nothing_but_ValueError_witness :
  raised (cleanup_workers expired_broker) = None
  \/ raised (cleanup_workers expired_broker) = Some not_in_list.
Proof.
  apply (sweep_raises_nothing_but_ValueError (mdp := example_mdp) expired_broker).
  apply reachable_after. constructor.
Defined.

(** The sweep at the seventh second with one service. *)
Lemma sweep_returns_iff_every_queue_holds_the_expired_witness :
  (exists s', cleanup_workers one_service_broker = Return tt s')
  <-> (forall key worker name service,
         workers one_service_broker !! key = Some worker ->
         (WorkerData.expires_at worker
          <= utc one_service_broker (utc_reads one_service_broker))%Z ->
         services one_service_broker !! name = Some service ->
         key ∈ Service.workers service).
Proof.
  apply (sweep_returns_iff_every_queue_holds_the_expired (mdp := example_mdp)
           one_service_broker).
  apply reachable_registry_ok, reachable_after. constructor.
Defined.

Lemma sweep_that_returns_removes_the_expired_only_witness :
  (forall key,
     workers (final (cleanup_workers one_service_broker)) !! key
     = worker ← workers one_service_broker !! key;
       if is_expired (utc one_service_broker (utc_reads one_service_broker)) worker
       then None else Some worker)
  /\ (forall name,
        services (final (cleanup_workers one_service_broker)) !! name
        = swept (expired_ids one_service_broker) <$> services one_service_broker !! name)
  /\ (forall name,
        pending_of (final (cleanup_workers one_service_broker)) name
        = pending_of one_service_broker name)
  /\ socket (final (cleanup_workers one_service_broker)) = socket one_service_broker
  /\ logger (final (cleanup_workers one_service_broker)) = logger one_service_broker.
Proof.
  apply (sweep_that_returns_removes_the_expired_only (mdp := example_mdp)
           one_service_broker (final (cleanup_workers one_service_broker))).
  - apply reachable_registry_ok, reachable_after. constructor.
  - reflexivity.
Defined.

(** The sweep of the last two examples, computed: w1 expired at the sixth
    second and w2 expires at the eighth; the sweep at the seventh takes w1
    out of the registry and out of the queue of echo. *)
Lemma sweep_of_one_service_removes_the_expired :
  expired_ids one_service_broker = ["zmq.w1"]
  /\ raised (cleanup_workers one_service_broker) = None
  /\ workers (final (cleanup_workers one_service_broker)) = {["zmq.w2" := W2_late]}
  /\ services (final (cleanup_workers one_service_broker))
     = {["echo" := Service.mk "echo" [] ["zmq.w2"]]}.
Proof. repeat split. Qed.

(** The request hi for echo on a new broker, then the READY of w1 for echo. *)
Lemma queued_request_goes_to_the_next_ready_worker_witness :
  exists s1 s2 oldest waiting,
    handle_client (mdp := example_mdp) "c1" "echo" "hi" example_broker = Return tt s1
    /\ socket s1 = [] /\ workers s1 = ∅
    /\ pending_of s1 "echo" = [EventWorkerRequest.mk "hi" "c1"]
    /\ available_of s1 "echo" = []
    /\ [EventWorkerRequest.mk "hi" "c1"] = oldest :: waiting
    /\ on_event_ready (mdp := example_mdp) "w1" ["echo"] s1 = Return tt s2
    /\ socket s2 = [EventWorkerRequest_serialize oldest "w1"]
    /\ pending_of s2 "echo" = waiting
    /\ available_of s2 "echo" = []
    /\ (pending_of example_broker "echo" = [] ->
        oldest = EventWorkerRequest.mk "hi" "c1" /\ waiting = []).
Proof.
  apply (queued_request_goes_to_the_next_ready_worker (mdp := example_mdp)
           example_broker "c1" "echo" "hi" "w1" []).
  - reflexivity.
  - apply example_broker_live.
  - apply example_broker_live.
  - vm_compute. reflexivity.
Defined.

(** The requests one of c1 and two of c2 and the workers w1 and w2 on a new
    broker, the requests first and the workers first. *)
Lemma example_broker_no_expiry :
  no_expiry_during (mdp := example_mdp) 6 example_broker.
Proof.
  split.
  - intros i _. apply example_broker_live.
  - intros i j Hij Hj. unfold example_broker, init. cbn [utc utc_reads const.ttl C example_mdp].
    lia.
Qed.

Lemma requests_and_workers_are_paired_in_order_witness :
  (exists s2 s4,
     (handle_client (mdp := example_mdp) "c1" "echo" "one" ;;
      handle_client (mdp := example_mdp) "c2" "echo" "two") example_broker
     = Return tt s2
     /\ socket s2 = []
     /\ pending_of s2 "echo" = [R1; R2]
     /\ (on_event_ready (mdp := example_mdp) "w1" ["echo"] ;;
         on_event_ready (mdp := example_mdp) "w2" ["echo"]) s2 = Return tt s4
     /\ socket s4 = [EventWorkerRequest_serialize R1 "w1";
                     EventWorkerRequest_serialize R2 "w2"]
     /\ pending_of s4 "echo" = [] /\ available_of s4 "echo" = [])
  /\ (exists s2 s4,
        (on_event_ready (mdp := example_mdp) "w1" ["echo"] ;;
         on_event_ready (mdp := example_mdp) "w2" ["echo"]) example_broker
        = Return tt s2
        /\ socket s2 = []
        /\ available_of s2 "echo" = ["zmq.w1"; "zmq.w2"]
        /\ (handle_client (mdp := example_mdp) "c1" "echo" "one" ;;
            handle_client (mdp := example_mdp) "c2" "echo" "two") s2 = Return tt s4
        /\ socket s4 = [EventWorkerRequest_serialize R1 "w1";
                        EventWorkerRequest_serialize R2 "w2"]
        /\ pending_of s4 "echo" = [] /\ available_of s4 "echo" = []).
Proof.
  pose proof (requests_and_workers_are_paired_in_order (mdp := example_mdp)
                example_broker "echo" "c1" "one" "c2" "two" "w1" "w2"
                eq_refl eq_refl example_broker_no_expiry) as [Hrequests Hworkers].
  split; [exact Hrequests|]. apply Hworkers. discriminate.
Defined.

(** A worker that has expired when a request is dispatched is swept
    first and takes no request.  The worker w1 became ready
    for echo at the second 0 and w2 at the second 2; both wait in this
    order.  The request one comes at the seventh second, one second after
    w1 expired: it goes to w2, and the request two that follows finds no
    worker. *)
Lemma expired_worker_is_passed_over :
  reachable (mdp := example_mdp) one_service_broker
  /\ available_of one_service_broker "echo" = ["zmq.w1"; "zmq.w2"]
  /\ pending_of one_service_broker "echo" = []
  /\ raised ((handle_client (mdp := example_mdp) "c1" "echo" "one" ;;
              handle_client (mdp := example_mdp) "c2" "echo" "two") one_service_broker)
     = None
  /\ socket (final ((handle_client (mdp := example_mdp) "c1" "echo" "one" ;;
                     handle_client (mdp := example_mdp) "c2" "echo" "two")
                      one_service_broker))
     = [EventWorkerRequest_serialize R1 "w2"]
  /\ pending_of (final ((handle_client (mdp := example_mdp) "c1" "echo" "one" ;;
                         handle_client (mdp := example_mdp) "c2" "echo" "two")
                          one_service_broker)) "echo"
     = [R2].
Proof.
  split; [apply reachable_after; constructor|]. repeat split.
Qed.

(** C8 fails on the code as it is stated.  With no worker registered for
    echo and the request old of c0 waiting, the request hi of c1 is queued
    behind it, and the READY of w1 takes old: hi is not sent and the pending
    queue is not empty.  And on a broker whose clock jumps to the hundredth
    second between the READY and its sweep, the new worker has expired
    before the dispatch: it is swept, and hi stays in the queue. *)
Lemma ready_does_not_always_take_the_new_request :
  reachable (mdp := example_mdp)
    (after (mdp := example_mdp) [client_request "c0" "echo" "old"] example_broker)
  /\ workers (after (mdp := example_mdp) [client_request "c0" "echo" "old"]
                example_broker) = ∅
  /\ raised (for_each old_then_hi_then_ready (handle (mdp := example_mdp))
               example_broker) = None
  /\ socket (after (mdp := example_mdp)
               [client_request "c0" "echo" "old"; client_request "c1" "echo" "hi"]
               example_broker) = []
  /\ socket (after (mdp := example_mdp) old_then_hi_then_ready example_broker)
     = [EventWorkerRequest_serialize (EventWorkerRequest.mk "old" "c0") "w1"]
  /\ pending_of (after (mdp := example_mdp) old_then_hi_then_ready example_broker)
       "echo"
     = [EventWorkerRequest.mk "hi" "c1"]
  /\ raised (for_each [client_request "c1" "echo" "hi"; worker_ready "w1" "echo"]
               (handle (mdp := example_mdp)) jump_broker) = None
  /\ socket (after (mdp := example_mdp)
               [client_request "c1" "echo" "hi"; worker_ready "w1" "echo"] jump_broker)
     = []
  /\ pending_of (after (mdp := example_mdp)
                   [client_request "c1" "echo" "hi"; worker_ready "w1" "echo"]
                   jump_broker) "echo"
     = [EventWorkerRequest.mk "hi" "c1"].
Proof.
  split; [apply reachable_after; constructor|]. repeat split.
Qed.

(** The requests two and three on the broker where w1, which is no longer
    registered, is queued before w2. *)
Lemma stale_head_broker_live now :
  (now < 11)%Z -> none_expired now stale_head_broker.
Proof.
  intros Hnow key worker.
  assert (workers stale_head_broker
          = {["zmq.w2" := WorkerData.mk worker_type.zmq "zmq.w2" "echo" 5 None 11]})
    as -> by reflexivity.
  intros [<- <-]%lookup_singleton_Some. exact Hnow.
Qed.

Lemma stale_identity_breaks_fifo_witness :
  exists s1 s2,
    handle_client (mdp := example_mdp) "c2" "echo" "two" stale_head_broker
    = Raise (KeyError "zmq.w1") s1
    /\ socket s1 = socket stale_head_broker
    /\ pending_of s1 "echo" = []
    /\ available_of s1 "echo" = ["zmq.w2"]
    /\ handle_client (mdp := example_mdp) "c3" "echo" "three" s1 = Return tt s2
    /\ socket s2
       = socket stale_head_broker
         ++ [EventWorkerRequest_serialize (EventWorkerRequest.mk "three" "c3") "w2"]
    /\ pending_of s2 "echo" = []
    /\ available_of s2 "echo" = [].
Proof.
  apply (stale_identity_breaks_fifo (mdp := example_mdp) stale_head_broker
           "echo" "c2" "two" "c3" "three" "zmq.w1" "zmq.w2" []
           (WorkerData.mk worker_type.zmq "zmq.w2" "echo" 5 None 11)).
  - reflexivity.
  - reflexivity.
  - reflexivity.
  - reflexivity.
  - reflexivity.
  - apply stale_head_broker_live. vm_compute. reflexivity.
  - apply stale_head_broker_live. vm_compute. reflexivity.
Defined.

(** The messages of that example from a new broker: after the READY of w1
    twice, the request one, the READY of w2 and the requests two and three,
    the socket has seen one for w1 and three for w2, and two is nowhere. *)
Lemma second_request_is_never_delivered :
  reachable (mdp := example_mdp) stale_head_broker
  /\ socket stale_head_broker
     = [EventWorkerRequest_serialize (EventWorkerRequest.mk "one" "c1") "w1"]
  /\ raised (handle (mdp := example_mdp) (client_request "c2" "echo" "two")
               stale_head_broker)
     = Some (KeyError "zmq.w1")
  /\ socket (final (handle (mdp := example_mdp) (client_request "c3" "echo" "three")
               (final (handle (mdp := example_mdp) (client_request "c2" "echo" "two")
                         stale_head_broker))))
     = [EventWorkerRequest_serialize (EventWorkerRequest.mk "one" "c1") "w1";
        EventWorkerRequest_serialize (EventWorkerRequest.mk "three" "c3") "w2"]
  /\ pending_of (final (handle (mdp := example_mdp) (client_request "c3" "echo" "three")
                   (final (handle (mdp := example_mdp) (client_request "c2" "echo" "two")
                             stale_head_broker)))) "echo"
     = [].
Proof.
  split; [apply reachable_after; constructor|]. repeat split.
Qed.

End Broker.
